(* ===== verification/_CoqProject ===== *)
-Q . S2P
Prelude.v
DPIScaling.v
FuzzyMatcher.v
KeyBindings.v
WindowList.v
WindowIndex.v
Config.v
Nimbler.v
Startup.v
