(* ===== verification/Prelude.v ===== *)
(** * A verification development of nimbler, a keyboard-driven window switcher

    nimbler ([src/nimbler.py], one Python file) is a GTK overlay that, on a
    hotkey, lists the open windows grouped by workspace, binds one keystroke
    to each of them, and lets the user type a query that re-ranks the windows
    by a fuzzy subsequence score.  This library models the program's logic in
    Rocq, executable throughout, and proves what makes it right, together with
    the places where it does not do what its comments and its specification
    say.

    ** The program and how its parts interact

    - [FuzzyMatcher] (lines 26-39) compiles a query [q] into the regular
      expression ['.*?'.join(map(re.escape, q))] and scores a string by the
      position and the length of the first match that [re.search] finds.
    - [KeyBindings] (lines 41-67) is the alphabet of 93 one-character keys
      (digits, letters, punctuation without the colon) and the function keys
      F1-F12, with their GDK key values.
    - [WindowList] (lines 78-207) takes a snapshot of the screen from libwnck:
      it filters the windows (ignored types and titles, always-shown titles),
      groups them per workspace (a window on every workspace goes to the
      active one), flattens the groups into [window_list_merged], and
      [rank]s that flat list by the fuzzy score of the title and class group.
      The dictionaries of the grid and of the flat list are the same Python
      objects: [rank] writes the score into them and re-sorts only the flat
      list.
    - [NimblerWindow] (lines 210-467) is the controller: [toggle] shows the
      overlay (refresh, then [populate], which labels the [k]-th window of the
      grid with the [k]-th key) or hides it; [keypress] dispatches Escape, the
      workspace keys, the window keys (with Control: close) and the colon that
      opens the query entry; [enteredNameChanged] re-ranks.  A window key or
      button with index [k] acts on [window_list_merged[k]].
    - [DPIScaling] (lines 69-76) divides the screen resolution by 96;
      [populate] requests window buttons [256] times that factor wide.
    - [Config] (lines 470-543) reads the options; the module-level script
      (lines 545-566) loads them, builds the window, binds the hotkey (and
      exits when it cannot) and enters [Gtk.main()].

    ** Files of this development

    - [Prelude] (this file): the [py] notation scope; [PyM], a state monad
      with Python exceptions in which an exception keeps the mutations made
      before it, as a Python method does, with [pfor] for [for] loops and
      [preserves] with the [preserve] tactic for invariants of such code;
      Python's [list.index], [in], [l[i]], [str.lower], [str(n)],
      [int(s)], [str.isdigit] and [re.sub('[^0-9]', '', s)] on lists; the
      [nimbler] hint database and the shared list lemmas.
    - [DPIScaling] (Module [DPIScaling]): the object, [from_resolution] for
      its [__init__], and [button_width], the width [populate] requests.
    - [FuzzyMatcher] (Module [FuzzyMatcher]): the compiled pattern as a list
      of regex atoms ([Lit c] for an escaped character, [LazyDot] for
      ['.*?']), the backtracking semantics of Python's [re] engine on it
      ([match_here], [search]), its declarative semantics ([rmatch]), the
      greedy left-to-right scan the specification describes ([greedy]), and
      [score] in exact rationals.
    - [KeyBindings] (Module [KeyBindings]): [numbering], [function_keys],
      their GDK key values and the keypad map of [NimblerWindow.__init__].
    - [WindowList] (Module [WindowList]): the interfaces [RegexSearch] (a
      configured title pattern) and [Matcher]/[MatcherLaws] (what [rank]
      needs of [FuzzyMatcher], with its instance); the libwnck data
      ([Window], [Screen]); the object's attributes as a record whose
      dictionaries live in an append-only [store] referred to by index, so
      that the grid and [window_list_merged] alias the same dictionaries as
      in Python; [refresh], [getLatest], [rank] (with a stable descending
      insertion sort), [getHighestRanked]; the specification views
      [view], [bucket], [refresh_ok].
    - [WindowIndex] (Module [WindowIndex]): the specification's abstract
      index ([Index]: a grouped and a flattened view of entry values) with
      its [spec_refresh] and [spec_rank] (a stable sort on values); the
      abstraction [abs] of a [WindowList] state, read through the store;
      and the well-formedness [wl_wf] of a state (the flat list is a
      permutation of the grid, without repetition, into the store).
    - [Config] (Module [Config]): the options configparser has read,
      [getOption] with its dynamically typed result ([PyVal]),
      [splitAndCompileWindowRegexes], [getIgnoredWindowTypes],
      [get_icon_size] and [loadOptions], which produces the [Settings]
      [WindowList] is parametrised by; [re.compile] is the interface
      [RegexCompile].
    - [Nimbler] (Module [Nimbler]): the controller [NimblerWindow] as a
      record (visibility, the [WindowList], the table of widgets
      [self.table] names, the child of the [Gtk.Frame] ([FrameChild]: a
      [Gtk.Bin] holds one child, so [frame.add] of a second table is
      refused and the frame keeps showing the first), the entry, the
      counters [populate] leaves, and the log of the requests sent to
      libwnck); each callback ([toggle], [populate], [keypress],
      [activate_workspace], the window actions, [enteredNameChanged]) in
      [PyM]; [run] dispatches an [Event]; the GTK main loop is the relation
      [step] on the events GTK can deliver in a state, [reachable] its
      closure from [__init__], in any environment (screen and X time)
      at each step.  Module [Session] is a concrete run.
    - [Startup] (Module [Startup]): the script from [Config()] to
      [Gtk.main()] as [startup], whose [Outcome] is an exception, the
      [exit()] after a hotkey [Keybinder.bind] refuses (a section variable),
      or the started window; [running] is the set of states of the main
      loop, closed under [Nimbler.step] with the loaded settings.

    ** What the theorems show (see each file)

    - The whole program ([Startup]): [startup] on each of its branches
      (a configuration that does not load, a screen [refresh] rejects, a
      hotkey that cannot be bound, a start whose window list is well formed
      and abstracts to the screen's snapshot); in every state of the main
      loop the invariant [shown_inv] holds and no callback on the shown
      overlay raises while its frame shows the current table; a configured
      title pattern means no state at all.
    - Refinement ([WindowIndex]): [init], every successful [refresh] and
      [rank] keep [wl_wf]; the abstraction of the state a [refresh] leaves
      is [spec_refresh]; [rank] commutes with the abstraction into
      [spec_rank], the scores written through the shared dictionaries
      reaching the grouped view as the specification's values do.

    - Controller ([Nimbler]): every reachable state satisfies [shown_inv]
      (counters, flat list and buttons agree), proved by rule induction
      from the fact that every callback preserves it, raising or not (the
      [Callbacks] section proves this once for any predicate closed under
      the state changes the callbacks make); no callback on a shown overlay
      raises while the frame shows the current table, and in every run
      whose shows meet at most 93 windows the frame always does
      ([reachable_fit]); showing the overlay labels the [k]-th button with
      the [k]-th key and that key activates the window the button shows;
      each key and button does what the specification says, with the exact
      requests it sends; and the places where the code departs from it: in
      every reachable state the labels follow the grid while the keys
      follow the flat list [rank] re-sorts, with more than 93 windows the
      overlay never shows, a show stopped that way freezes its table in the
      frame for good and a click on its buttons past the current windows
      raises [IndexError], and Escape and F1-F12 act while the entry has
      the focus.  Liveness: from any state, at most
      two presses of the hotkey show the overlay with the current screen,
      whenever it has at most 93 windows to show.
    - [WindowList]: [refresh] builds exactly the per-workspace buckets of
      the kept windows and flattens them, or raises [ValueError] with a
      stale flat list; [rank] scores every dictionary and sorts the flat
      list as Python's stable sort does (the result is the unique stable
      sorted permutation) and, on the empty query, moves the windows with
      a class group first; [max_windows] is never reset.
    - [FuzzyMatcher]: the backtracking engine is sound and complete for
      [rmatch] and equals the greedy scan on every compiled pattern; the
      match starts at the leftmost possible position; a score is zero
      exactly when no match exists, which for titles without a newline is
      exactly "the query is not a subsequence of the title", and in general
      exactly "the query is a subsequence of none of the title's lines".
    - [KeyBindings]: 93 distinct keys without the colon, key values that
      give back their index, disjoint from the other keys [keypress] tests,
      and a keypad map that agrees with the top row.
    - [Config]: the default options; [getIgnoredWindowTypes] as a filter of
      its dictionary; any configured title pattern stops the program with
      [TypeError], so in a running program the window filter looks at the
      window types only; an unknown icon size silently removes the icons.
    - [DPIScaling]: buttons are 256 pixels wide at 96 dpi and positive for
      every set resolution, but the [-1] GDK reports for an unset one gives
      a width GTK rejects.

    ** Bounds, fuel and modelling choices

    - [str(n)] is computed with fuel [n + 1]; a theorem of this file
      proves every fuel [f > 0] with [n < 10 ^ f], one step per decimal
      digit, gives the same string, and [n + 1] is such a fuel;
      [py_int_str_of_nat] proves [int] gives [n] back.
    - The 93-key bound of the alphabet is computed, not assumed; the
      controller theorems split on whether a screen has at most 93 windows
      to show.
    - Python [str] is [list ascii]; [str.lower] and [str.isdigit] are
      modelled on ASCII (other characters are outside the model); [int] on
      a string accepts an optional sign and digits (not underscores).
    - Scores are Python floats; they are modelled as exact rationals [Q].  The
      comparisons the program makes are between sums of at most two terms
      [100 (1/(1+a) + 1.2/(b+1))], on which rounding is not modelled.
    - The configuration is the option values as [config.get] returns them:
      configparser's [%] interpolation is taken as done, and the
      [InterpolationError] a malformed [%] raises is not modelled.
    - Regular expressions of the configuration are abstract (the classes
      [RegexCompile] and [RegexSearch]); the one regex the program builds
      itself, the fuzzy pattern, is modelled in full.
    - GTK and libwnck are not modelled beyond the data the code reads from
      them and the requests it sends them: the table is the list of widgets
      attached to it, in order, and the frame its one child (empty, the
      table [self.table] names, or a table it no longer names); drawing, the sizes GTK computes, icons as
      pixbufs and the reading of the files are not modelled; the resolution
      [DPIScaling] reads and the result of [Keybinder.bind] are inputs.
      The SIGINT handler, the [delete-event] connection and the window
      decoration calls of the script change no state the program reads.
      [presentHighestRanked] and [presentManual] are modelled although no
      signal is connected to them. *)

From Stdlib Require Import String Ascii List Arith ZArith Lia Bool Permutation.
Import ListNotations.

Declare Scope py_scope.
Delimit Scope py_scope with py.
Open Scope py_scope.

Create HintDb nimbler.
Create Rewrite HintDb nimbler_rw.

(** ** Python exceptions and the state monad of a method call *)

(** The exceptions the modelled code can raise. *)
Inductive exn : Type :=
| IndexError
| ValueError
| TypeError
| AttributeError
| ReError          (** [re.error], raised by [re.compile] *).

(** A method on an object of type [S]: it returns a value or raises, and in
    both cases leaves the object as mutated so far. *)
Definition PyM (S A : Type) : Type := S -> (A + exn) * S.

Definition pret {S A} (a : A) : PyM S A := fun s => (inl a, s).

Definition pbind {S A B} (m : PyM S A) (k : A -> PyM S B) : PyM S B :=
  fun s => match m s with
           | (inl a, s') => k a s'
           | (inr e, s') => (inr e, s')
           end.

Definition raise {S A} (e : exn) : PyM S A := fun s => (inr e, s).
Definition pget {S} : PyM S S := fun s => (inl s, s).
Definition pput {S} (s : S) : PyM S unit := fun _ => (inl tt, s).
Definition pmodify {S} (f : S -> S) : PyM S unit := fun s => (inl tt, f s).

Notation "x <- m ;; k" := (pbind m (fun x => k))
  (at level 61, m at next level, right associativity) : py_scope.
Notation "m ;; k" := (pbind m (fun _ => k))
  (at level 61, right associativity) : py_scope.

(** [for x in l: body(x)] *)
Fixpoint pfor {S A} (l : list A) (body : A -> PyM S unit) : PyM S unit :=
  match l with
  | [] => pret tt
  | x :: l' => body x ;; pfor l' body
  end.

(** Running a method that may raise a [None]-returning lookup. *)
Definition of_option {S A} (e : exn) (o : option A) : PyM S A :=
  match o with Some a => pret a | None => raise e end.

(** A call that returns or raises without touching the object. *)
Definition of_sum {S A} (r : A + exn) : PyM S A :=
  match r with inl a => pret a | inr e => raise e end.

(** Sequencing of stateless calls that may raise. *)
Definition rbind {A B} (r : A + exn) (k : A -> B + exn) : B + exn :=
  match r with inl a => k a | inr e => inr e end.

Notation "x <-? r ;; k" := (rbind r (fun x => k))
  (at level 61, r at next level, right associativity) : py_scope.

(** A state predicate that a computation keeps, whether it returns or
    raises: the shape of the invariants of the controller. *)
Definition preserves {S A} (Q : S -> Prop) (m : PyM S A) : Prop :=
  forall s, Q s -> Q (snd (m s)).

(** ** Python lists *)

Section PyListDefs.
Context {A : Type} (eqb : A -> A -> bool).

(** [l.index(x)]: the first position of [x]; [None] stands for the
    [ValueError] Python raises. *)
Fixpoint index_of (x : A) (l : list A) : option nat :=
  match l with
  | [] => None
  | y :: l' => if eqb y x then Some 0 else option_map S (index_of x l')
  end.

(** [x in l] *)
Definition mem (x : A) (l : list A) : bool := existsb (fun y => eqb y x) l.

(** No element twice (decidable [NoDup]). *)
Fixpoint nodupb (l : list A) : bool :=
  match l with
  | [] => true
  | x :: l' => negb (mem x l') && nodupb l'
  end.

End PyListDefs.

(** [l[i] = f(l[i])] for an index known to be in range (out of range the
    list is unchanged; callers check the bound first). *)
Fixpoint update_nth {A} (i : nat) (f : A -> A) (l : list A) {struct l} : list A :=
  match l, i with
  | [], _ => []
  | x :: l', 0 => f x :: l'
  | x :: l', S i' => x :: update_nth i' f l'
  end.

(** [max(len(g) for g in l)], 0 for an empty list. *)
Definition list_max (l : list nat) : nat := fold_right Nat.max 0 l.

(** ** Python strings *)

(** A Python [str] is a sequence of characters. *)
Abbreviation pystr := (list ascii).

Definition str (s : string) : pystr := list_ascii_of_string s.

(** [str.lower] on one character (ASCII letters). *)
Definition lower_char (c : ascii) : ascii :=
  let n := nat_of_ascii c in
  if (65 <=? n) && (n <=? 90) then ascii_of_nat (n + 32) else c.

(** [str.lower] *)
Definition lower (s : pystr) : pystr := map lower_char s.

(** [==] on strings. *)
Fixpoint pystr_eqb (a b : pystr) : bool :=
  match a, b with
  | [], [] => true
  | x :: a', y :: b' => Ascii.eqb x y && pystr_eqb a' b'
  | _, _ => false
  end.

(** ** Python integers and their decimal strings *)

Definition digit_char (d : nat) : ascii := ascii_of_nat (48 + d).

Definition is_digit (c : ascii) : bool :=
  (48 <=? nat_of_ascii c) && (nat_of_ascii c <=? 57).

(** [str(n)], for a natural number, with enough fuel (one more than [n]). *)
Fixpoint str_of_nat_fuel (fuel n : nat) : pystr :=
  match fuel with
  | 0 => []
  | S f => if n <? 10 then [digit_char n]
           else str_of_nat_fuel f (n / 10) ++ [digit_char (n mod 10)]
  end.

Definition str_of_nat (n : nat) : pystr := str_of_nat_fuel (S n) n.

(** [re.sub('[^0-9]', '', s)] *)
Definition keep_digits (s : pystr) : pystr := filter is_digit s.

(** [int(s)] on a string of ASCII digits; [None] is the [ValueError] of
    [int('')]. *)
Definition py_int (s : pystr) : option nat :=
  match s with
  | [] => None
  | _ => Some (fold_left (fun acc c => acc * 10 + (nat_of_ascii c - 48)) s 0)
  end.

(** [l[i]] with Python's negative indices; [None] is the [IndexError]. *)
Definition py_getitem {A} (l : list A) (i : Z) : option A :=
  if (i <? 0)%Z then
    if (Z.of_nat (length l) + i <? 0)%Z then None
    else nth_error l (Z.to_nat (Z.of_nat (length l) + i))
  else nth_error l (Z.to_nat i).

(** The newline character, which ['.'] does not match in Python's [re]. *)
Definition newline : ascii := ascii_of_nat 10.

(** [str.isdigit] on ASCII strings: non-empty, digits only. *)
Definition isdigit (s : pystr) : bool :=
  match s with [] => false | _ => forallb is_digit s end.

(** [int(s)] with an optional sign (configparser has stripped the
    surrounding whitespace); [None] is the [ValueError]. *)
Definition py_int_signed (s : pystr) : option Z :=
  match s with
  | "-"%char :: d => if isdigit d then option_map (fun n => (- Z.of_nat n)%Z) (py_int d) else None
  | "+"%char :: d => if isdigit d then option_map Z.of_nat (py_int d) else None
  | _ => if isdigit s then option_map Z.of_nat (py_int s) else None
  end.

(** * Lemmas *)

(** ** The monad *)

Lemma pbind_ret_l {S A B} (a : A) (k : A -> PyM S B) s :
  pbind (pret a) k s = k a s.
Proof. reflexivity. Qed.

Lemma pbind_assoc {S A B C} (m : PyM S A) (k : A -> PyM S B) (h : B -> PyM S C) s :
  pbind (pbind m k) h s = pbind m (fun a => pbind (k a) h) s.
Proof. unfold pbind. destruct (m s) as [[a|e] s']; reflexivity. Qed.

Lemma pbind_ok {S A B} (m : PyM S A) (k : A -> PyM S B) s a s' :
  m s = (inl a, s') -> pbind m k s = k a s'.
Proof. unfold pbind. intros ->. reflexivity. Qed.

Lemma pbind_err {S A B} (m : PyM S A) (k : A -> PyM S B) s e s' :
  m s = (inr e, s') -> pbind m k s = (inr e, s').
Proof. unfold pbind. intros ->. reflexivity. Qed.

(** A loop whose body only ever returns, with a state function [f],
    returns, and its state is the fold of [f]. *)
Lemma pfor_total {S A} (l : list A) (body : A -> PyM S unit) (f : A -> S -> S) s :
  (forall x s0, In x l -> body x s0 = (inl tt, f x s0)) ->
  pfor l body s = (inl tt, fold_left (fun s0 x => f x s0) l s).
Proof.
  revert s. induction l as [|x l IH]; intros s Hb; [reflexivity|].
  simpl. rewrite (pbind_ok _ _ _ tt (f x s)); [|apply Hb; left; reflexivity].
  apply IH. intros y s0 Hy. apply Hb. right. exact Hy.
Qed.

#[export] Hint Rewrite @pbind_ret_l @pbind_assoc : nimbler_rw.

Lemma preserves_ret {S A} (Q : S -> Prop) (a : A) : preserves Q (pret a).
Proof. intros s Hs. exact Hs. Qed.

Lemma preserves_raise {S A} (Q : S -> Prop) e : preserves Q (@raise S A e).
Proof. intros s Hs. exact Hs. Qed.

Lemma preserves_get {S} (Q : S -> Prop) : preserves Q pget.
Proof. intros s Hs. exact Hs. Qed.

Lemma preserves_of_option {S A} (Q : S -> Prop) e (o : option A) : preserves Q (of_option e o).
Proof. destruct o; intros s Hs; exact Hs. Qed.

Lemma preserves_modify {S} (Q : S -> Prop) f :
  (forall s, Q s -> Q (f s)) -> preserves Q (pmodify f).
Proof. intros Hf s Hs. exact (Hf s Hs). Qed.

Lemma preserves_bind {S A B} (Q : S -> Prop) (m : PyM S A) (k : A -> PyM S B) :
  preserves Q m -> (forall a, preserves Q (k a)) -> preserves Q (pbind m k).
Proof.
  intros Hm Hk s Hs. unfold pbind. specialize (Hm s Hs).
  destruct (m s) as [[a|e] s']; [apply Hk|]; exact Hm.
Qed.

#[export] Hint Resolve preserves_ret preserves_raise preserves_get preserves_of_option : nimbler.

(** Walks a computation built from [pbind] and [if], closing the steps
    with [tac] and leaving those it does not close. *)
Ltac preserve_using tac :=
  repeat match goal with
  | |- preserves _ (pbind _ _) => apply preserves_bind; [|intros ?]
  | |- preserves _ (if ?b then _ else _) => destruct b
  | |- preserves _ _ => solve [tac]
  end.

Ltac preserve := preserve_using ltac:(eauto with nimbler).

(** ** Options *)

Lemma option_map_None {A B} (f : A -> B) (o : option A) :
  option_map f o = None <-> o = None.
Proof. destruct o; simpl; split; congruence. Qed.

#[export] Hint Rewrite @option_map_None : nimbler_rw.

(** ** Python lists *)

Section PyList.
Context {A : Type} (eqb : A -> A -> bool).
Hypothesis eqb_spec : forall x y, reflect (x = y) (eqb x y).

Lemma index_of_nth_error x l i :
  index_of eqb x l = Some i -> nth_error l i = Some x.
Proof.
  revert i. induction l as [|y l IH]; intros i H; simpl in H; [discriminate|].
  destruct (eqb_spec y x) as [->|Hne].
  - injection H as <-. reflexivity.
  - destruct (index_of eqb x l) as [j|] eqn:E; simpl in H; [|discriminate].
    injection H as <-. apply IH. reflexivity.
Qed.

Lemma index_of_None x l : index_of eqb x l = None <-> ~ In x l.
Proof.
  induction l as [|y l IH]; simpl; [tauto|].
  destruct (eqb_spec y x) as [->|Hne].
  - split; [discriminate|]. intros H. exfalso. apply H. left. reflexivity.
  - destruct (index_of eqb x l) as [j|] eqn:E; simpl; split; try discriminate.
    + intros H. exfalso. apply H. right.
      eapply nth_error_In, index_of_nth_error. exact E.
    + intros _ [Hyx|Hin]; [contradiction|]. apply (proj1 IH eq_refl Hin).
    + intros _. reflexivity.
Qed.

Lemma index_of_lt x l i : index_of eqb x l = Some i -> i < length l.
Proof. intros H. apply nth_error_Some. rewrite (index_of_nth_error x l i H). discriminate. Qed.

Lemma mem_In x l : mem eqb x l = true <-> In x l.
Proof.
  unfold mem. rewrite existsb_exists. split.
  - intros [y [Hy E]]. destruct (eqb_spec y x); [subst; exact Hy|discriminate].
  - intros Hin. exists x. split; [exact Hin|]. destruct (eqb_spec x x); congruence.
Qed.

Lemma mem_firstn_false x n l : mem eqb x l = false -> mem eqb x (firstn n l) = false.
Proof.
  intros H. destruct (mem eqb x (firstn n l)) eqn:E; [|reflexivity].
  apply mem_In in E. rewrite <- H. symmetry. apply mem_In.
  clear H. revert n E. induction l as [|y l IH]; intros [|n] E; simpl in *; try contradiction.
  destruct E as [E|E]; [left; exact E|right; exact (IH n E)].
Qed.

Lemma nodupb_NoDup l : nodupb eqb l = true -> NoDup l.
Proof.
  induction l as [|x l IH]; simpl; intros H; constructor.
  - apply andb_true_iff in H as [H _]. apply negb_true_iff in H.
    intros Hin. apply mem_In in Hin. congruence.
  - apply IH. apply andb_true_iff in H as [_ H]. exact H.
Qed.

(** On a list without duplicates, [l.index(l[i]) == i]. *)
Lemma index_of_NoDup l i x :
  NoDup l -> nth_error l i = Some x -> index_of eqb x l = Some i.
Proof.
  intros Hnd. revert i. induction Hnd as [|y l Hy Hnd IH]; intros i Hi.
  - destruct i; discriminate.
  - simpl. destruct i as [|i]; simpl in Hi.
    + injection Hi as ->. destruct (eqb_spec x x); congruence.
    + destruct (eqb_spec y x) as [->|Hne].
      * exfalso. apply Hy. eapply nth_error_In. exact Hi.
      * rewrite (IH i Hi). reflexivity.
Qed.
End PyList.

Lemma length_update_nth {A} i (f : A -> A) l : length (update_nth i f l) = length l.
Proof. revert i; induction l as [|x l IH]; intros [|i]; simpl; auto. Qed.

Lemma nth_error_update_nth_eq {A} i (f : A -> A) l :
  nth_error (update_nth i f l) i = option_map f (nth_error l i).
Proof. revert i; induction l as [|x l IH]; intros [|i]; simpl; auto. Qed.

Lemma nth_error_update_nth_ne {A} i j (f : A -> A) l :
  i <> j -> nth_error (update_nth i f l) j = nth_error l j.
Proof.
  revert i j; induction l as [|x l IH]; intros [|i] [|j] Hne; simpl; auto; try lia.
Qed.

Lemma update_nth_map_seq {A} (F : nat -> A) h k s n :
  update_nth k h (map F (seq s n)) = map (fun g => if g =? s + k then h (F g) else F g) (seq s n).
Proof.
  revert s k. induction n as [|n IH]; intros s k; [reflexivity|].
  destruct k as [|k]; simpl.
  - rewrite Nat.add_0_r, Nat.eqb_refl. f_equal. apply map_ext_in. intros g Hg.
    apply in_seq in Hg. destruct (Nat.eqb_spec g s); [lia|reflexivity].
  - destruct (Nat.eqb_spec s (s + S k)); [lia|]. f_equal.
    rewrite IH. apply map_ext. intros g. replace (S s + k) with (s + S k) by lia. reflexivity.
Qed.

(** Appending to one inner list appends to the concatenation, up to order. *)
Lemma concat_update_app {A} (L : list (list A)) g x :
  g < length L -> Permutation (concat (update_nth g (fun b => b ++ [x]) L)) (x :: concat L).
Proof.
  revert g. induction L as [|b L IH]; intros [|g] Hg; simpl in *; try lia.
  - rewrite <- app_assoc. simpl. apply Permutation_sym, Permutation_middle.
  - rewrite (IH g) by lia. apply Permutation_sym, Permutation_middle.
Qed.

#[export] Hint Rewrite @length_update_nth @nth_error_update_nth_eq : nimbler_rw.

Lemma forallb_false_exists {A} (f : A -> bool) l :
  forallb f l = false -> exists x, In x l /\ f x = false.
Proof.
  induction l as [|x l IH]; simpl; [discriminate|].
  destruct (f x) eqn:E; simpl; [intros H; destruct (IH H) as (y & Hy & Fy); eauto|eauto].
Qed.

(** [l[:n]] membership. *)
Lemma nth_error_In_firstn {A} (l : list A) n i x :
  i < n -> nth_error l i = Some x -> In x (firstn n l).
Proof.
  revert n i. induction l as [|y l IH]; intros [|n] [|i] Hi E; simpl in *; try lia; try discriminate.
  - left. congruence.
  - right. apply (IH n i); [lia|exact E].
Qed.

Lemma In_firstn_nth_error {A} (l : list A) n x :
  In x (firstn n l) -> exists i, i < n /\ nth_error l i = Some x.
Proof.
  intros H. apply In_nth_error in H as [i Hi].
  exists i. assert (i < length (firstn n l)) by (apply nth_error_Some; congruence).
  rewrite length_firstn in *. split; [lia|].
  rewrite nth_error_firstn in Hi. destruct (Nat.ltb_spec i n); [exact Hi|discriminate].
Qed.

(** ** Python strings *)

Lemma length_lower s : length (lower s) = length s.
Proof. apply length_map. Qed.

Lemma pystr_eqb_spec a b : reflect (a = b) (pystr_eqb a b).
Proof.
  revert b. induction a as [|x a IH]; intros [|y b]; simpl; try (constructor; congruence).
  destruct (Ascii.eqb_spec x y) as [->|Hne]; simpl; [|constructor; congruence].
  destruct (IH b); constructor; congruence.
Qed.

Lemma lower_char_idem c : lower_char (lower_char c) = lower_char c.
Proof.
  unfold lower_char. destruct ((65 <=? nat_of_ascii c) && (nat_of_ascii c <=? 90)) eqn:E;
    [|rewrite E; reflexivity].
  apply andb_true_iff in E as [E1 E2]. apply Nat.leb_le in E1, E2.
  rewrite nat_ascii_embedding by lia.
  replace ((65 <=? nat_of_ascii c + 32) && (nat_of_ascii c + 32 <=? 90)) with false;
    [reflexivity|].
  symmetry. apply andb_false_iff. right. apply Nat.leb_gt. lia.
Qed.

#[export] Hint Rewrite length_lower lower_char_idem : nimbler_rw.

(** ** Python integers *)

Lemma digit_char_is_digit d : d < 10 -> is_digit (digit_char d) = true.
Proof.
  intros Hd. unfold is_digit, digit_char. rewrite nat_ascii_embedding by lia.
  apply andb_true_iff. split; apply Nat.leb_le; lia.
Qed.

Lemma str_of_nat_fuel_digits f n : Forall (fun c => is_digit c = true) (str_of_nat_fuel f n).
Proof.
  revert n. induction f as [|f IH]; intros n; cbn [str_of_nat_fuel]; [constructor|].
  destruct (Nat.ltb_spec n 10).
  - constructor; [apply digit_char_is_digit; lia|constructor].
  - apply Forall_app. split; [apply IH|constructor; [apply digit_char_is_digit|constructor]].
    apply Nat.mod_upper_bound. lia.
Qed.

Lemma str_of_nat_fuel_nonempty f n : str_of_nat_fuel (S f) n <> [].
Proof.
  simpl. destruct (n <? 10); [discriminate|]. intros H.
  apply app_eq_nil in H as [_ H]. discriminate.
Qed.

Lemma fold_digits_snoc s c :
  fold_left (fun acc c => acc * 10 + (nat_of_ascii c - 48)) (s ++ [c]) 0 =
  fold_left (fun acc c => acc * 10 + (nat_of_ascii c - 48)) s 0 * 10 + (nat_of_ascii c - 48).
Proof. rewrite fold_left_app. reflexivity. Qed.

Lemma digit_char_value d : d < 10 -> nat_of_ascii (digit_char d) - 48 = d.
Proof. intros Hd. unfold digit_char. rewrite nat_ascii_embedding by lia. lia. Qed.

Lemma parse_str_of_nat_fuel f n :
  n < f ->
  fold_left (fun acc c => acc * 10 + (nat_of_ascii c - 48)) (str_of_nat_fuel f n) 0 = n.
Proof.
  revert n. induction f as [|f IH]; intros n Hn; [lia|]. cbn [str_of_nat_fuel].
  destruct (Nat.ltb_spec n 10).
  - cbn [fold_left]. rewrite digit_char_value by lia. reflexivity.
  - rewrite fold_digits_snoc, IH, digit_char_value.
    + pose proof (Nat.div_mod_eq n 10). lia.
    + apply Nat.mod_upper_bound. lia.
    + apply Nat.Div0.div_lt_upper_bound; lia.
Qed.

(** [int(re.sub('[^0-9]', '', prefix + str(n)))] is [n] when the prefix has
    no digit. *)
Lemma py_int_str_of_nat prefix n :
  forallb (fun c => negb (is_digit c)) prefix = true ->
  py_int (keep_digits (prefix ++ str_of_nat n)) = Some n.
Proof.
  intros Hp. unfold keep_digits. rewrite filter_app.
  replace (filter is_digit prefix) with (@nil ascii).
  2:{ induction prefix as [|c prefix IH]; simpl in *; [reflexivity|].
      apply andb_true_iff in Hp as [Hc Hp]. apply negb_true_iff in Hc. rewrite Hc. auto. }
  cbn [app]. rewrite (forallb_filter_id is_digit _).
  2:{ apply forallb_forall. intros c Hc.
      exact (proj1 (Forall_forall _ _) (str_of_nat_fuel_digits _ _) c Hc). }
  unfold py_int, str_of_nat. destruct (str_of_nat_fuel (S n) n) eqn:E;
    [exfalso; exact (str_of_nat_fuel_nonempty _ _ E)|].
  rewrite <- E, parse_str_of_nat_fuel by lia. reflexivity.
Qed.

(** Two fuels that both exceed the number of decimal digits of [n] give
    the same string. *)
Lemma str_of_nat_fuel_indep f g n :
  0 < f -> 0 < g -> n < 10 ^ f -> n < 10 ^ g -> str_of_nat_fuel f n = str_of_nat_fuel g n.
Proof.
  revert g n. induction f as [|f IH]; intros [|g] n Hf Hg Hnf Hng; try lia.
  cbn [str_of_nat_fuel]. destruct (n <? 10) eqn:E; [reflexivity|].
  apply Nat.ltb_ge in E. f_equal.
  destruct f as [|f]; [cbn in Hnf; lia|]. destruct g as [|g]; [cbn in Hng; lia|].
  apply IH; try lia; apply Nat.Div0.div_lt_upper_bound;
    [rewrite <- Nat.pow_succ_r' | rewrite <- Nat.pow_succ_r']; assumption.
Qed.

(** The fuel of [str_of_nat] is enough: [str(n)] needs one step per
    decimal digit, and every fuel that covers the digits of [n], in
    particular the [S n] that [str_of_nat] gives, yields the same digit
    string, so the recursion never stops for lack of fuel before the last
    digit. *)
Theorem str_of_nat_fuel_enough f n :
  0 < f -> n < 10 ^ f -> str_of_nat_fuel f n = str_of_nat n.
Proof.
  intros Hf Hn. unfold str_of_nat. apply str_of_nat_fuel_indep; try lia.
  apply (Nat.lt_le_trans _ (10 ^ n)); [apply Nat.pow_gt_lin_r; lia|].
  apply Nat.pow_le_mono_r; lia.
Qed.

(** Shared tactic: case analysis on the character tests of the modelled code. *)
Ltac destruct_ascii_eq :=
  repeat match goal with
  | |- context [Ascii.eqb ?a ?b] => destruct (Ascii.eqb_spec a b); subst
  | H : context [Ascii.eqb ?a ?b] |- _ => destruct (Ascii.eqb_spec a b); subst
  end.
