(* ===== verification/DPIScaling.v ===== *)
(** * DPIScaling: the width of the window buttons ([src/nimbler.py], lines 69-76, 260, 310)

    [DPIScaling.__init__] reads the resolution of the default screen from
    GDK and divides it by 96; [populate] builds one such object per call
    and asks GTK for window buttons [scaling_factor * 256] pixels wide.
    GDK returns the resolution as a [float], and [-1] when none is set
    ([Gdk.Screen.get_resolution]); the model keeps it in [Q], so the
    division is exact and rounding of the float is not modelled.  GTK's
    [set_size_request] accepts a width of [-1] (natural size) or more. *)

From Stdlib Require Import QArith Lqa.
Local Open Scope Q_scope.

Module DPIScaling.

(** The attributes of a [DPIScaling] object. *)
Record DPIScaling : Type := mkDPIScaling {
  dpi : Q;
  scaling_factor : Q
}.

(** [DPIScaling.__init__], given what [Gdk.Screen.get_resolution] returns. *)
Definition from_resolution (resolution : Q) : DPIScaling :=
  mkDPIScaling resolution (resolution / 96).

(** The width [populate] requests for every window button:
    [button.set_size_request((dpi_scaling_factor * 256), -1)] with
    [dpi_scaling_factor = DPIScaling().scaling_factor]. *)
Definition button_width (resolution : Q) : Q := scaling_factor (from_resolution resolution) * 256.

(** What [gtk_widget_set_size_request] accepts as a width. *)
Definition width_accepted (w : Q) : bool := Qle_bool (-1) w.

(** [Gdk.Screen.get_resolution] when no resolution is set. *)
Definition unset_resolution : Q := -1.

(** * Properties *)

Lemma button_width_eq r : button_width r == r * (8 # 3).
Proof. unfold button_width, from_resolution. cbn [scaling_factor]. field. Qed.

(** C39: the window buttons are 256 pixels wide at the reference
    resolution of 96 dpi and scale linearly with the resolution, so every
    set resolution gives a width GTK accepts; the resolution GDK reports
    when none is set, [-1], gives a width of [-8/3], which GTK rejects. *)
Theorem button_width_bounds r :
  button_width 96 == 256 /\
  (0 < r -> 0 < button_width r /\ width_accepted (button_width r) = true) /\
  button_width unset_resolution == -8 # 3 /\
  width_accepted (button_width unset_resolution) = false.
Proof.
  split; [rewrite button_width_eq; reflexivity|].
  split; [|split; [rewrite button_width_eq; reflexivity|reflexivity]].
  intros Hr. split; [rewrite button_width_eq; lra|].
  unfold width_accepted. apply Qle_bool_iff. rewrite button_width_eq. lra.
Qed.

Lemma button_width_bounds_witness :
  0 < 120 /\ 0 < button_width 120 /\ width_accepted (button_width 120) = true.
Proof.
  assert (H : 0 < 120) by reflexivity.
  split; [exact H|exact (proj1 (proj2 (button_width_bounds 120)) H)].
Defined.

End DPIScaling.
