(* ===== verification/FuzzyMatcher.v ===== *)
(** * FuzzyMatcher: the query pattern and the score ([src/nimbler.py], lines 26-39)

    [setPattern] compiles the query into the regular expression
    ['.*?'.join(map(re.escape, list(pattern)))]: every character is a literal,
    and between two of them stands a lazy ['.*?'].  We model that regex as a
    list of atoms, the backtracking matcher of Python's [re] on it
    ([match_here], [search]), and [score].  Next to them stand the declarative
    meaning of the regex ([rmatch]) and the greedy left-to-right scan the
    specification describes ([greedy]); the theorems relate the three. *)

From Stdlib Require Import String Ascii List Arith Lia Bool QArith Lqa.
From S2P Require Import Prelude.
Import ListNotations.
Local Open Scope nat_scope.

Module FuzzyMatcher.

(** ** Compiled patterns *)

(** An atom of the compiled regex: an escaped literal character, or ['.*?']. *)
Inductive atom : Type :=
| Lit (c : ascii)
| LazyDot.

(** ['.*?'.join(map(re.escape, list(pattern)))] *)
Fixpoint compile (p : pystr) : list atom :=
  match p with
  | [] => []
  | [c] => [Lit c]
  | c :: p' => Lit c :: LazyDot :: compile p'
  end.

(** The matcher object: its compiled pattern. *)
Record FuzzyMatcher : Type := mkFuzzyMatcher { pattern : list atom }.

(** [FuzzyMatcher.setPattern] *)
Definition setPattern (p : pystr) : FuzzyMatcher := mkFuzzyMatcher (compile p).

(** ** Python's backtracking matcher on compiled patterns *)

(** ['.*?'] followed by the continuation [k]: try the continuation first,
    then consume one more character, which ['.'] refuses when it is a
    newline. *)
Fixpoint lazy_star (k : pystr -> option nat) (s : pystr) : option nat :=
  match k s with
  | Some n => Some n
  | None =>
      match s with
      | [] => None
      | x :: s' => if Ascii.eqb x newline then None else option_map S (lazy_star k s')
      end
  end.

(** The length of the first match of [r] anchored at the start of [s], in
    the backtracking order of the engine. *)
Fixpoint match_here (r : list atom) (s : pystr) : option nat :=
  match r with
  | [] => Some 0
  | Lit c :: r' =>
      match s with
      | x :: s' => if Ascii.eqb x c then option_map S (match_here r' s') else None
      | [] => None
      end
  | LazyDot :: r' => lazy_star (match_here r') s
  end.

(** [re.search]: the first start position at which the regex matches,
    with the match's [(start(), end())]. *)
Fixpoint search_from (r : list atom) (s : pystr) (pos : nat) : option (nat * nat) :=
  match match_here r s with
  | Some n => Some (pos, pos + n)
  | None =>
      match s with
      | [] => None
      | _ :: s' => search_from r s' (S pos)
      end
  end.

Definition search (r : list atom) (s : pystr) : option (nat * nat) := search_from r s 0.

(** ** The score *)

(** [100.0 * (1.0/(1 + start) + 1.2/(end - start + 1))] *)
Definition score_of (st en : nat) : Q :=
  (100 * (1 / (1 + inject_Z (Z.of_nat st))
          + (12 # 10) / (inject_Z (Z.of_nat en - Z.of_nat st) + 1)))%Q.

(** [FuzzyMatcher.score] *)
Definition score (m : FuzzyMatcher) (s : pystr) : Q :=
  match search (pattern m) s with
  | None => 0%Q
  | Some (st, en) => score_of st en
  end.

(** ** Reference semantics *)

(** The set of match lengths of a regex at the start of a string. *)
Inductive rmatch : list atom -> pystr -> nat -> Prop :=
| rm_nil s : rmatch [] s 0
| rm_lit c r s n : rmatch r s n -> rmatch (Lit c :: r) (c :: s) (S n)
| rm_stop r s n : rmatch r s n -> rmatch (LazyDot :: r) s n
| rm_skip x r s n :
    x <> newline -> rmatch (LazyDot :: r) s n -> rmatch (LazyDot :: r) (x :: s) (S n).

(** The first occurrence of [c] in [s] before any newline. *)
Fixpoint find_nl (c : ascii) (s : pystr) : option nat :=
  match s with
  | [] => None
  | x :: s' =>
      if Ascii.eqb x c then Some 0
      else if Ascii.eqb x newline then None
      else option_map S (find_nl c s')
  end.

(** The greedy scan: each next query character at its first occurrence
    after the previous one; the result is the number of characters consumed. *)
Fixpoint greedy_rest (p : pystr) (s : pystr) : option nat :=
  match p with
  | [] => Some 0
  | c :: p' =>
      match find_nl c s with
      | None => None
      | Some k => option_map (fun n => k + 1 + n) (greedy_rest p' (skipn (S k) s))
      end
  end.

Definition greedy (p s : pystr) : option nat :=
  match p with
  | [] => Some 0
  | c :: p' =>
      match s with
      | x :: s' => if Ascii.eqb x c then option_map S (greedy_rest p' s') else None
      | [] => None
      end
  end.

(** Plain subsequence: the characters of [p] occur in [s] in order. *)
Fixpoint is_subseq (p s : pystr) : bool :=
  match p, s with
  | [], _ => true
  | _ :: _, [] => false
  | c :: p', x :: s' => if Ascii.eqb x c then is_subseq p' s' else is_subseq p s'
  end.

(** The title contains no newline (decidable form of [nl_free]). *)
Definition no_newline (s : pystr) : bool :=
  negb (existsb (fun c => Ascii.eqb c newline) s).

(** The characters before the first newline. *)
Fixpoint first_line (s : pystr) : pystr :=
  match s with
  | [] => []
  | x :: s' => if Ascii.eqb x newline then [] else x :: first_line s'
  end.

(** [s.split('\n')]: the lines of a title, the empty string giving one
    empty line. *)
Fixpoint lines (s : pystr) : list pystr :=
  match s with
  | [] => [[]]
  | x :: s' =>
      let ls := lines s' in
      if Ascii.eqb x newline then [] :: ls else (x :: hd [] ls) :: tl ls
  end.

(** No newline among the first [j] characters. *)
Definition nl_free (s : pystr) (j : nat) : Prop :=
  forall i, i < j -> nth_error s i <> Some newline.

(** ** The lazy loop, the greedy scan and the engine agree *)

Lemma lazy_star_ext (f g : pystr -> option nat) s :
  (forall t, f t = g t) -> lazy_star f s = lazy_star g s.
Proof.
  intros Hfg. induction s as [|x s IH]; simpl; rewrite Hfg; [reflexivity|].
  destruct (g (x :: s)); [reflexivity|]. rewrite IH. reflexivity.
Qed.

Lemma nl_free_cons x t j :
  nl_free (x :: t) (S j) <-> x <> newline /\ nl_free t j.
Proof.
  unfold nl_free. split.
  - intros H. split.
    + intros ->. apply (H 0); [lia|reflexivity].
    + intros i Hi. apply (H (S i)). lia.
  - intros [Hx Ht] [|i] Hi; simpl; [congruence|]. apply Ht. lia.
Qed.

(** Dropping newline-free characters one at a time. *)
Lemma iter_drop (P : pystr -> Prop) :
  (forall x t, x <> newline -> P (x :: t) -> P t) ->
  forall j t, nl_free t j -> P t -> P (skipn j t).
Proof.
  intros Hstep j. induction j as [|j IH]; intros t Hnl HP; [exact HP|].
  destruct t as [|x t]; [exact HP|].
  apply nl_free_cons in Hnl as [Hx Hnl]. apply IH; [exact Hnl|].
  exact (Hstep x t Hx HP).
Qed.

Lemma find_nl_Some c s k :
  find_nl c s = Some k -> nl_free s k /\ nth_error s k = Some c.
Proof.
  revert k. induction s as [|x s IH]; intros k H; simpl in H; [discriminate|].
  destruct (Ascii.eqb_spec x c) as [->|Hxc].
  - injection H as <-. split; [intros i Hi; lia|reflexivity].
  - destruct (Ascii.eqb_spec x newline); [discriminate|].
    destruct (find_nl c s) as [k'|] eqn:E; simpl in H; [|discriminate].
    injection H as <-. destruct (IH k' eq_refl) as [Hnl Hk].
    split; [apply nl_free_cons; tauto|exact Hk].
Qed.

Lemma greedy_rest_hit c p s :
  greedy_rest (c :: p) (c :: s) = option_map S (greedy_rest p s).
Proof.
  simpl. rewrite Ascii.eqb_refl. simpl. destruct (greedy_rest p s); reflexivity.
Qed.

Lemma greedy_rest_miss c p x s :
  x <> c -> x <> newline ->
  greedy_rest (c :: p) (x :: s) = option_map S (greedy_rest (c :: p) s).
Proof.
  intros Hxc Hxn. simpl.
  destruct (Ascii.eqb_spec x c); [contradiction|].
  destruct (Ascii.eqb_spec x newline); [contradiction|].
  destruct (find_nl c s) as [k|]; simpl; [|reflexivity].
  destruct (greedy_rest p _); reflexivity.
Qed.

(** If the greedy scan fails from a position, it fails from the next one
    too, as long as no newline lies between. *)
Lemma greedy_rest_drop p x t :
  x <> newline -> greedy_rest p (x :: t) = None -> greedy_rest p t = None.
Proof.
  revert x t. induction p as [|c p IH]; intros x t Hx H; [discriminate|].
  destruct (Ascii.eqb_spec x c) as [<-|Hxc].
  - rewrite greedy_rest_hit in H.
    destruct (greedy_rest p t) eqn:E; [discriminate|].
    cbn [greedy_rest]. destruct (find_nl x t) as [k|] eqn:F; [|reflexivity].
    apply find_nl_Some in F as [Hnl Hk].
    assert (Hp : greedy_rest p (skipn (S k) t) = None); [|rewrite Hp; reflexivity].
    apply (iter_drop (fun u => greedy_rest p u = None)); [exact IH| |exact E].
    intros i Hi. destruct (Nat.eq_dec i k) as [->|Hne]; [congruence|].
    apply Hnl. lia.
  - rewrite (greedy_rest_miss _ _ _ _ Hxc Hx) in H.
    destruct (greedy_rest (c :: p) t); [discriminate|reflexivity].
Qed.

Lemma lazy_greedy d p s :
  lazy_star (greedy (d :: p)) s = greedy_rest (d :: p) s.
Proof.
  induction s as [|x s IH]; [reflexivity|].
  destruct (Ascii.eqb_spec x d) as [->|Hxd].
  - rewrite greedy_rest_hit. simpl. rewrite Ascii.eqb_refl.
    destruct (greedy_rest p s) eqn:E; [reflexivity|]. simpl.
    destruct (Ascii.eqb_spec d newline) as [|Hdn]; [reflexivity|].
    rewrite IH, (greedy_rest_drop (d :: p) d s Hdn); [reflexivity|].
    rewrite greedy_rest_hit, E. reflexivity.
  - cbn [lazy_star greedy]. destruct (Ascii.eqb_spec x d); [contradiction|].
    destruct (Ascii.eqb_spec x newline) as [->|Hxn].
    + cbn [greedy_rest find_nl]. destruct (Ascii.eqb_spec newline d); [contradiction|].
      rewrite Ascii.eqb_refl. reflexivity.
    + rewrite IH, greedy_rest_miss by assumption. reflexivity.
Qed.

(** The engine's match at a position is the greedy scan, for every
    compiled query. *)
Lemma match_here_compile p s : match_here (compile p) s = greedy p s.
Proof.
  revert s. induction p as [|c p IH]; intros s; [reflexivity|].
  destruct p as [|d p].
  - destruct s as [|x s]; [reflexivity|]. simpl. destruct (x =? c)%char; reflexivity.
  - change (compile (c :: d :: p)) with (Lit c :: LazyDot :: compile (d :: p)).
    destruct s as [|x s]; [reflexivity|]. cbn [match_here greedy].
    destruct (x =? c)%char; [|reflexivity].
    rewrite (lazy_star_ext _ (greedy (d :: p)) s IH), lazy_greedy. reflexivity.
Qed.

(** ** The engine against the declarative semantics *)

Lemma lazy_star_unfold k s :
  lazy_star k s =
  match k s with
  | Some n => Some n
  | None =>
      match s with
      | [] => None
      | x :: s' => if Ascii.eqb x newline then None else option_map S (lazy_star k s')
      end
  end.
Proof. destruct s; reflexivity. Qed.

Lemma match_here_sound r s n : match_here r s = Some n -> rmatch r s n.
Proof.
  revert s n. induction r as [|[c|] r IH]; intros s n H.
  - injection H as <-. constructor.
  - destruct s as [|x s]; simpl in H; [discriminate|].
    destruct (Ascii.eqb_spec x c) as [->|]; [|discriminate].
    destruct (match_here r s) eqn:E; simpl in H; [|discriminate].
    injection H as <-. constructor. apply IH. exact E.
  - simpl in H. revert n H. induction s as [|x s IHs]; intros n H;
      rewrite lazy_star_unfold in H;
      (destruct (match_here r _) eqn:E; [injection H as <-; apply rm_stop, IH, E|]).
    + discriminate.
    + destruct (Ascii.eqb_spec x newline); [discriminate|].
      destruct (lazy_star (match_here r) s) eqn:E2; simpl in H; [|discriminate].
      injection H as <-. apply rm_skip; [assumption|]. apply IHs. reflexivity.
Qed.

Lemma match_here_complete r s n : rmatch r s n -> exists n', match_here r s = Some n'.
Proof.
  induction 1 as [s|c r s n _ [n' IH]|r s n _ [n' IH]|x r s n Hx _ [n' IH]].
  - exists 0. reflexivity.
  - exists (S n'). simpl. rewrite Ascii.eqb_refl, IH. reflexivity.
  - exists n'. simpl. rewrite lazy_star_unfold, IH. reflexivity.
  - simpl in IH |- *.
    destruct (match_here r (x :: s)) as [m|]; [exists m; reflexivity|].
    destruct (Ascii.eqb_spec x newline); [contradiction|].
    rewrite IH. exists (S n'). reflexivity.
Qed.

(** ** [re.search] scans the start positions from left to right *)

Lemma search_from_Some r s pos st en :
  search_from r s pos = Some (st, en) ->
  exists k n, st = pos + k /\ en = st + n /\ k <= length s /\
              match_here r (skipn k s) = Some n /\
              (forall j, j < k -> match_here r (skipn j s) = None).
Proof.
  revert pos. induction s as [|x s IH]; intros pos H; simpl in H;
    (destruct (match_here r _) as [n|] eqn:E;
     [injection H as <- <-; exists 0, n; repeat split; simpl; auto; lia|]).
  - discriminate.
  - destruct (IH _ H) as (k & n & -> & -> & Hk & Hm & Hbefore).
    exists (S k), n. repeat split; simpl; auto; try lia.
    intros [|j] Hj; [exact E|]. apply Hbefore. lia.
Qed.

Lemma search_from_None r s pos :
  search_from r s pos = None ->
  forall j, j <= length s -> match_here r (skipn j s) = None.
Proof.
  revert pos. induction s as [|x s IH]; intros pos H j Hj; simpl in H;
    (destruct (match_here r _) eqn:E; [discriminate|]).
  - destruct j; [exact E|simpl in Hj; lia].
  - destruct j as [|j]; [exact E|]. apply (IH (S pos)); [exact H|simpl in Hj; lia].
Qed.

Lemma skipn_cap {A} (s : list A) j : skipn j s = skipn (Nat.min j (length s)) s.
Proof.
  destruct (Nat.le_ge_cases j (length s)).
  - rewrite Nat.min_l by lia. reflexivity.
  - rewrite Nat.min_r, !skipn_all2 by lia. reflexivity.
Qed.

Lemma search_Some_iff r s :
  search r s <> None <->
  exists j, j <= length s /\ match_here r (skipn j s) <> None.
Proof.
  unfold search. split.
  - destruct (search_from r s 0) as [[st en]|] eqn:E; [intros _|congruence].
    destruct (search_from_Some _ _ _ _ _ E) as (k & n & _ & _ & Hk & Hm & _).
    exists k. split; [exact Hk|congruence].
  - intros (j & Hj & Hm) HN. apply Hm. exact (search_from_None _ _ _ HN j Hj).
Qed.

Lemma Qdiv_pos (a b : Q) : (0 < a -> 0 < b -> 0 < a / b)%Q.
Proof. intros Ha Hb. apply Qmult_lt_0_compat; [exact Ha|apply Qinv_lt_0_compat, Hb]. Qed.

Lemma inject_nat_nonneg n : (0 <= inject_Z (Z.of_nat n))%Q.
Proof. change (inject_Z 0 <= inject_Z (Z.of_nat n))%Q. rewrite <- Zle_Qle. lia. Qed.

(** Every match has a positive score. *)
Lemma score_of_pos st en : st <= en -> (0 < score_of st en)%Q.
Proof.
  intros Hle. unfold score_of.
  assert (0 <= inject_Z (Z.of_nat en - Z.of_nat st))%Q
    by (change (inject_Z 0 <= inject_Z (Z.of_nat en - Z.of_nat st))%Q;
        rewrite <- Zle_Qle; lia).
  pose proof (inject_nat_nonneg st).
  assert (0 < 1 / (1 + inject_Z (Z.of_nat st)))%Q by (apply Qdiv_pos; lra).
  assert (0 < (12 # 10) / (inject_Z (Z.of_nat en - Z.of_nat st) + 1))%Q
    by (apply Qdiv_pos; [reflexivity|lra]).
  lra.
Qed.

Lemma search_bounds r s st en : search r s = Some (st, en) -> st <= en.
Proof.
  unfold search. intros H.
  destruct (search_from_Some _ _ _ _ _ H) as (k & n & _ & -> & _). lia.
Qed.

Lemma score_nonneg m s : (0 <= score m s)%Q.
Proof.
  unfold score. destruct (search (pattern m) s) as [[st en]|] eqn:E; [|apply Qle_refl].
  apply Qlt_le_weak, score_of_pos. exact (search_bounds _ _ _ _ E).
Qed.

Lemma no_newline_nl_free s : no_newline s = true -> nl_free s (length s).
Proof.
  unfold no_newline. intros H i _ Hi. apply nth_error_In in Hi.
  assert (E : existsb (fun c => Ascii.eqb c newline) s = true)
    by (apply existsb_exists; exists newline; split; [exact Hi|apply Ascii.eqb_refl]).
  rewrite E in H. discriminate.
Qed.

Lemma nl_free_le s i j : nl_free s j -> i <= j -> nl_free s i.
Proof. intros H Hij k Hk. apply H. lia. Qed.

Lemma lazy_star_Some_iff k s :
  lazy_star k s <> None <->
  exists j, j <= length s /\ nl_free s j /\ k (skipn j s) <> None.
Proof.
  induction s as [|x s IH]; rewrite lazy_star_unfold;
    (destruct (k _) eqn:E;
     [split; [intros _; exists 0; repeat split; [simpl; lia|intros i; lia|simpl; congruence]
             |congruence]|]).
  - split; [congruence|]. intros (j & Hj & _ & Hk). simpl in Hj.
    replace j with 0 in Hk by lia. contradiction.
  - destruct (Ascii.eqb_spec x newline) as [->|Hx].
    + split; [congruence|]. intros ([|j] & _ & Hnl & Hk); [contradiction|].
      exfalso. apply (Hnl 0); [lia|reflexivity].
    + split.
      * intros H. assert (Hs : lazy_star k s <> None)
          by (intros E'; apply H; rewrite E'; reflexivity).
        destruct (proj1 IH Hs) as (j & Hj & Hnl & Hk).
        exists (S j). simpl. repeat split; [lia|apply nl_free_cons; tauto|exact Hk].
      * intros ([|j] & Hj & Hnl & Hk); [contradiction|].
        apply nl_free_cons in Hnl as [_ Hnl]. simpl in Hj, Hk.
        assert (Hs : lazy_star k s <> None) by (apply IH; exists j; repeat split; auto; lia).
        destruct (lazy_star k s); [discriminate|contradiction].
Qed.

Lemma greedy_rest_subseq s p :
  nl_free s (length s) -> (greedy_rest p s <> None <-> is_subseq p s = true).
Proof.
  revert p. induction s as [|x s IH]; intros [|c p] Hnl; try (simpl; split; congruence).
  apply nl_free_cons in Hnl as [Hx Hnl]. cbn [is_subseq].
  destruct (Ascii.eqb_spec x c) as [->|Hxc].
  - rewrite greedy_rest_hit, <- (IH p Hnl).
    destruct (greedy_rest p s); simpl; split; congruence.
  - rewrite <- (IH (c :: p) Hnl), greedy_rest_miss by assumption.
    destruct (greedy_rest (c :: p) s); simpl; split; congruence.
Qed.

(** On a string without newline, the compiled query matches somewhere
    exactly when it is a subsequence. *)
Lemma search_compile_subseq p s :
  nl_free s (length s) ->
  (search (compile p) s <> None <-> is_subseq p s = true).
Proof.
  intros Hnl. destruct p as [|c p].
  - split; intros _; [destruct s; reflexivity|unfold search; destruct s; discriminate].
  - rewrite search_Some_iff, <- greedy_rest_subseq, <- lazy_greedy, lazy_star_Some_iff
      by exact Hnl.
    split; intros (j & Hj & H).
    + exists j. rewrite match_here_compile in H. repeat split; [exact Hj| |exact H].
      exact (nl_free_le _ _ _ Hnl Hj).
    + exists j. rewrite match_here_compile. split; [exact Hj|apply H].
Qed.

Lemma score_zero_search m s : (score m s == 0)%Q <-> search (pattern m) s = None.
Proof.
  unfold score. destruct (search (pattern m) s) as [[st en]|] eqn:E; [|split; reflexivity].
  split; [|discriminate]. intros H.
  pose proof (score_of_pos st en (search_bounds _ _ _ _ E)). exfalso. lra.
Qed.

Lemma search_None_rmatch r s :
  search r s = None <-> (forall st n, ~ rmatch r (skipn st s) n).
Proof.
  split.
  - intros H st n Hm. destruct (match_here_complete _ _ _ Hm) as [n' E].
    rewrite skipn_cap in E. rewrite (search_from_None r s 0 H) in E by lia. discriminate.
  - intros H. destruct (search r s) as [[st en]|] eqn:E; [|reflexivity]. exfalso.
    destruct (search_from_Some _ _ _ _ _ E) as (k & n & _ & _ & _ & Hm & _).
    exact (H k n (match_here_sound _ _ _ Hm)).
Qed.

(** ** Lines *)

Lemma lines_first s : lines s = first_line s :: tl (lines s).
Proof.
  induction s as [|x s IH]; [reflexivity|]. cbn [lines first_line].
  destruct (Ascii.eqb x newline); [reflexivity|]. rewrite IH. reflexivity.
Qed.

Lemma no_newline_cons c p : no_newline (c :: p) = true -> c <> newline /\ no_newline p = true.
Proof.
  unfold no_newline. cbn [existsb]. intros H.
  destruct (Ascii.eqb_spec c newline) as [E|E]; [discriminate|]. split; [exact E|exact H].
Qed.

(** Skipping a character of the text, or the first character of the query,
    keeps a subsequence. *)
Lemma is_subseq_weaken l : forall q,
  (forall x, is_subseq q l = true -> is_subseq q (x :: l) = true) /\
  (forall c, is_subseq (c :: q) l = true -> is_subseq q l = true).
Proof.
  induction l as [|y l IH]; intros q.
  - split; [intros x H; destruct q; [reflexivity|discriminate]|intros c H; discriminate].
  - split.
    + intros x H. destruct q as [|d q]; [reflexivity|]. cbn [is_subseq] in H |- *.
      destruct (Ascii.eqb x d); [|exact H].
      destruct (Ascii.eqb y d); [apply (proj1 (IH q)), H|].
      apply (proj1 (IH q)), (proj2 (IH q) d), H.
    + intros c H. cbn [is_subseq] in H.
      destruct (Ascii.eqb y c); [apply (proj1 (IH q)), H|].
      apply (proj1 (IH q)), (proj2 (IH q) c), H.
Qed.

(** From a position, the greedy scan succeeds exactly when the query is a
    subsequence of the rest of the line. *)
Lemma greedy_rest_line q u :
  no_newline q = true -> (greedy_rest q u <> None <-> is_subseq q (first_line u) = true).
Proof.
  revert q. induction u as [|x u IH]; intros [|c q] Hq;
    [cbn; split; congruence|cbn; split; congruence|split; intros; [destruct (first_line (x :: u)); reflexivity|discriminate]|].
  destruct (no_newline_cons _ _ Hq) as [Hc Hq'].
  destruct (Ascii.eqb_spec x c) as [->|Hxc].
  - rewrite greedy_rest_hit. cbn [first_line is_subseq].
    rewrite (proj2 (Ascii.eqb_neq c newline) Hc). cbn [is_subseq]. rewrite Ascii.eqb_refl.
    rewrite <- (IH q Hq'). destruct (greedy_rest q u); cbn; split; congruence.
  - destruct (Ascii.eqb_spec x newline) as [->|Hxn].
    + cbn [greedy_rest find_nl first_line].
      rewrite (proj2 (Ascii.eqb_neq newline c) (fun E => Hc (eq_sym E))), Ascii.eqb_refl.
      cbn [is_subseq]. split; congruence.
    + rewrite (greedy_rest_miss _ _ _ _ Hxc Hxn). cbn [first_line].
      rewrite (proj2 (Ascii.eqb_neq x newline) Hxn). cbn [is_subseq].
      rewrite (proj2 (Ascii.eqb_neq x c) Hxc).
      rewrite <- (IH (c :: q) Hq). destruct (greedy_rest (c :: q) u); cbn; split; congruence.
Qed.

Lemma greedy_cons_line p x s :
  no_newline p = true ->
  (greedy p (x :: s) <> None <->
   match p with [] => True | c :: p' => x = c /\ is_subseq p' (first_line s) = true end).
Proof.
  intros Hp. destruct p as [|c p']; [cbn; split; [intros; exact I|discriminate]|].
  destruct (no_newline_cons _ _ Hp) as [_ Hp']. cbn [greedy].
  destruct (Ascii.eqb_spec x c) as [->|Hxc].
  - rewrite <- (greedy_rest_line p' s Hp'). destruct (greedy_rest p' s); cbn; intuition congruence.
  - split; [congruence|intros [E _]; contradiction].
Qed.

Lemma search_lines_aux p s :
  no_newline p = true ->
  ((exists j, j <= length s /\ greedy p (skipn j s) <> None) <->
   exists l, In l (lines s) /\ is_subseq p l = true).
Proof.
  intros Hp. induction s as [|x s IH].
  - destruct p as [|c p'].
    + split; intros _; [exists []; split; [left|]; reflexivity|exists 0; split; [cbn; lia|discriminate]].
    + split; [intros (j & _ & H); destruct j; cbn in H; congruence|].
      intros (l & [<-|[]] & H). discriminate.
  - assert (Hsplit : (exists j, j <= length (x :: s) /\ greedy p (skipn j (x :: s)) <> None) <->
                     greedy p (x :: s) <> None \/
                     exists j, j <= length s /\ greedy p (skipn j s) <> None).
    { split.
      - intros ([|j] & Hj & H); [left; exact H|right; exists j; cbn in Hj, H; split; [lia|exact H]].
      - intros [H|(j & Hj & H)]; [exists 0; split; [cbn; lia|exact H]|].
        exists (S j). cbn. split; [lia|exact H]. }
    rewrite Hsplit, IH, (greedy_cons_line p x s Hp). clear Hsplit IH.
    cbn [lines]. rewrite (lines_first s). cbn [hd tl].
    destruct (Ascii.eqb_spec x newline) as [->|Hxn].
    + destruct p as [|c p']; [split; [intros _; exists []; split; [left|]; reflexivity|intros _; left; exact I]|].
      destruct (no_newline_cons _ _ Hp) as [Hc _]. split.
      * intros [[E _]|(l & Hl & H)]; [congruence|exists l; split; [right; exact Hl|exact H]].
      * intros (l & [<-|Hl] & H); [discriminate|right; exists l; split; [exact Hl|exact H]].
    + destruct p as [|c p'].
      * split; intros _; [exists (x :: first_line s); split; [left|]; reflexivity|left; exact I].
      * split.
        -- intros [[-> H]|(l & [<-|Hl] & H)].
           ++ exists (c :: first_line s). split; [left; reflexivity|].
              cbn [is_subseq]. rewrite Ascii.eqb_refl. exact H.
           ++ exists (x :: first_line s). split; [left; reflexivity|]. cbn [is_subseq].
              destruct (Ascii.eqb_spec x c) as [->|_]; [|exact H].
              exact (proj2 (is_subseq_weaken _ p') c H).
           ++ exists l. split; [right; exact Hl|exact H].
        -- intros (l & [<-|Hl] & H).
           ++ cbn [is_subseq] in H. destruct (Ascii.eqb_spec x c) as [->|_].
              ** left. split; [reflexivity|exact H].
              ** right. exists (first_line s). split; [left; reflexivity|exact H].
           ++ right. exists l. split; [right; exact Hl|exact H].
Qed.

(** The compiled query matches somewhere exactly when it is a subsequence
    of one of the lines. *)
Lemma search_lines p s :
  no_newline p = true ->
  (search (compile p) s <> None <-> exists l, In l (lines s) /\ is_subseq p l = true).
Proof.
  intros Hp. rewrite search_Some_iff, <- (search_lines_aux p s Hp).
  split; intros (j & Hj & H); exists j; rewrite ?match_here_compile in *; split; assumption.
Qed.

(** ** Properties of the matcher *)

(** C10: for every query, Python's backtracking engine, run on the regex that
    [setPattern] compiles, returns at each position exactly what the greedy
    left-to-right scan of the specification returns: each query character at
    its first occurrence after the previous one, no newline crossed. *)
Theorem engine_is_greedy_scan p s :
  match_here (pattern (setPattern p)) s = greedy p s.
Proof. apply match_here_compile. Qed.

(** C22: [re.search] returns the leftmost match: whenever the regex matches
    at some position [st'], the search returns a start [st <= st'] with a
    real match from [st] to the returned end. *)
Theorem search_leftmost r s st' n' :
  rmatch r (skipn st' s) n' ->
  exists st en, search r s = Some (st, en) /\ st <= st' /\ rmatch r (skipn st s) (en - st).
Proof.
  intros Hm. destruct (search r s) as [[st en]|] eqn:E.
  - destruct (search_from_Some _ _ _ _ _ E) as (k & n & -> & -> & Hk & Hmk & Hbefore).
    exists k, (k + n). repeat split; [|replace (k + n - k) with n by lia;
                                      exact (match_here_sound _ _ _ Hmk)].
    destruct (Nat.le_gt_cases k st') as [Hle|Hlt]; [lia|].
    destruct (match_here_complete _ _ _ Hm) as [m Em]. rewrite Hbefore in Em by lia.
    discriminate.
  - exfalso. exact (proj1 (search_None_rmatch r s) E st' n' Hm).
Qed.

(** C32: a string scores zero exactly when the compiled query matches it at
    no position. *)
Theorem score_zero_iff p s :
  (score (setPattern p) s == 0)%Q <-> (forall st n, ~ rmatch (compile p) (skipn st s) n).
Proof. rewrite score_zero_search. apply search_None_rmatch. Qed.

(** C21: on a title without a newline, the score is zero exactly when the
    query is not a subsequence of the title. *)
Theorem score_subseq p s :
  no_newline s = true ->
  ((score (setPattern p) s == 0)%Q <-> is_subseq p s = false).
Proof.
  intros Hnl. apply no_newline_nl_free in Hnl. rewrite score_zero_search. simpl pattern.
  pose proof (search_compile_subseq p s Hnl) as H.
  destruct (search (compile p) s), (is_subseq p s); intuition congruence.
Qed.

(** With the empty query the compiled regex matches the empty string at
    position 0 of every title, so every title scores [100 * (1 + 1.2) = 220];
    the controller therefore never ranks with an empty query. *)
Theorem score_empty_pattern s : (score (setPattern []) s == 220)%Q.
Proof. unfold score. destruct s; reflexivity. Qed.

(** C40: a query without newline scores zero on a title exactly when it is
    a subsequence of none of the title's lines, [s.split('\n')]: a match
    never spans a newline, so the characters of a query found in order but
    on both sides of a newline do not count, although the specification
    permits arbitrary characters between matched characters. *)
Theorem score_zero_lines p s :
  no_newline p = true ->
  ((score (setPattern p) s == 0)%Q <-> forall l, In l (lines s) -> is_subseq p l = false).
Proof.
  intros Hp. rewrite score_zero_search. cbn [pattern setPattern]. split.
  - intros E l Hl. destruct (is_subseq p l) eqn:Hs; [|reflexivity]. exfalso.
    apply (proj2 (search_lines p s Hp)); [exists l; split; assumption|exact E].
  - intros Hall. destruct (search (compile p) s) eqn:E; [|reflexivity]. exfalso.
    destruct (proj1 (search_lines p s Hp)) as (l & Hl & Hs); [rewrite E; discriminate|].
    rewrite (Hall l Hl) in Hs. discriminate.
Qed.

(** ** Witnesses *)

Lemma search_leftmost_witness :
  exists st en, search (compile (str "fi")) (str "gimp files") = Some (st, en) /\
                st <= 5 /\ rmatch (compile (str "fi")) (skipn st (str "gimp files")) (en - st).
Proof. apply (search_leftmost _ _ 5 2). vm_compute. repeat constructor. Defined.

Lemma score_zero_lines_witness :
  no_newline (str "ab") = true /\
  is_subseq (str "ab") ("a"%char :: newline :: str "b") = true /\
  (score (setPattern (str "ab")) ("a"%char :: newline :: str "b") == 0)%Q.
Proof.
  assert (Hp : no_newline (str "ab") = true) by reflexivity.
  split; [exact Hp|split; [vm_compute; reflexivity|]].
  apply (proj2 (score_zero_lines _ _ Hp)). intros l Hl. vm_compute in Hl.
  destruct Hl as [<-|[<-|[]]]; reflexivity.
Defined.

Lemma score_subseq_witness :
  no_newline (str "firefox") = true /\
  ((score (setPattern (str "fx")) (str "firefox") == 0)%Q <->
   is_subseq (str "fx") (str "firefox") = false).
Proof. split; [reflexivity|apply score_subseq; reflexivity]. Defined.

End FuzzyMatcher.
