(* ===== verification/KeyBindings.v ===== *)
(** * KeyBindings: the key alphabet ([src/nimbler.py], lines 41-67 and 218-235)

    [numbering] is the list of one-character keys bound to windows, in the
    order windows are labelled; [function_keys] names F1-F12, bound to the
    workspaces.  The GDK key values of both lists, and the keypad map of
    [NimblerWindow.__init__], are what [keypress] compares an event with.
    The Python string constants ([string.digits], ...) and the GDK key values
    are written out from their definitions in CPython and in
    [gdk/gdkkeysyms.h]. *)

From Stdlib Require Import String Ascii List Arith Lia Bool NArith.
From S2P Require Import Prelude.
Import ListNotations.
Local Open Scope nat_scope.

Module KeyBindings.

(** ** Characters *)

(** The characters with codes [lo] to [hi]. *)
Definition char_range (lo hi : nat) : pystr := map ascii_of_nat (seq lo (S hi - lo)).

(** [string.digits], [string.ascii_letters], [string.punctuation] *)
Definition digits : pystr := char_range 48 57.
Definition ascii_letters : pystr := char_range 97 122 ++ char_range 65 90.
Definition punctuation : pystr :=
  char_range 33 47 ++ char_range 58 64 ++ char_range 91 96 ++ char_range 123 126.

(** [str.replace(c, '')] *)
Definition remove_char (c : ascii) (s : pystr) : pystr :=
  filter (fun x => negb (Ascii.eqb x c)) s.

(** [KeyBindings.__init__]: the window keys, colon filtered out. *)
Definition numbering : pystr :=
  digits ++ ascii_letters ++ remove_char ":"%char punctuation.

(** [KeyBindings.__init__]: the workspace keys. *)
Definition function_keys : list string :=
  ["F1"; "F2"; "F3"; "F4"; "F5"; "F6"; "F7"; "F8"; "F9"; "F10"; "F11"; "F12"]%string.

(** ** GDK key values *)

Definition keyval := N.

Definition KEY_Escape : keyval := 0xff1b%N.
Definition KEY_Return : keyval := 0xff0d%N.
Definition KEY_colon : keyval := 0x3a%N.
Definition KEY_0 : keyval := 0x30%N.
Definition KEY_KP_0 : keyval := 0xffb0%N.
Definition KEY_F1 : keyval := 0xffbe%N.
Definition KEY_VoidSymbol : keyval := 0xffffff%N.

(** [Gdk.unicode_to_keyval]: the Latin-1 printable code points are their own
    key value; the others (never reached from [numbering]) get the Unicode
    flag. *)
Definition unicode_to_keyval (u : N) : keyval :=
  if (((0x20 <=? u) && (u <=? 0x7e)) || ((0xa0 <=? u) && (u <=? 0xff)))%N then u
  else N.lor u 0x01000000%N.

(** [Gdk.keyval_from_name] on the names of [function_keys]. *)
Definition keyval_from_name (name : string) : keyval :=
  match index_of String.eqb name function_keys with
  | Some i => (KEY_F1 + N.of_nat i)%N
  | None => KEY_VoidSymbol
  end.

(** [KeyBindings.get_keyvals_from_unicode] *)
Definition get_keyvals_from_unicode : list keyval :=
  map (fun c => unicode_to_keyval (N_of_ascii c)) numbering.

(** [KeyBindings.get_keyvals_from_name] *)
Definition get_keyvals_from_name : list keyval := map keyval_from_name function_keys.

(** [self.keypad_numbers]: keypad digit [d] to top-row digit [d]. *)
Definition keypad_numbers : list (keyval * keyval) :=
  map (fun d => (KEY_KP_0 + N.of_nat d, KEY_0 + N.of_nat d)%N) (seq 0 10).

(** [dict.get(k, default)] on an association list. *)
Fixpoint dict_get {V} (d : list (keyval * V)) (k : keyval) (default : V) : V :=
  match d with
  | [] => default
  | (k', v) :: d' => if N.eqb k' k then v else dict_get d' k default
  end.

(** [event.keyval = self.keypad_numbers.get(event.keyval, event.keyval)] *)
Definition normalize_keyval (kv : keyval) : keyval := dict_get keypad_numbers kv kv.

(** ** Properties of the alphabet *)

Lemma dict_get_notin {V} (d : list (keyval * V)) k dflt :
  ~ In k (map fst d) -> dict_get d k dflt = dflt.
Proof.
  induction d as [|[k' v] d IH]; simpl; intros H; [reflexivity|].
  destruct (N.eqb_spec k' k); [tauto|]. apply IH. tauto.
Qed.

Lemma get_keyvals_from_unicode_NoDup : NoDup get_keyvals_from_unicode.
Proof. apply (nodupb_NoDup N.eqb N.eqb_spec). vm_compute. reflexivity. Qed.

Lemma numbering_NoDup : NoDup numbering.
Proof. apply (nodupb_NoDup Ascii.eqb Ascii.eqb_spec). vm_compute. reflexivity. Qed.

(** Escape, the colon and Return are not window or workspace keys, and the
    keypad map leaves them alone. *)
Lemma reserved_keyvals :
  normalize_keyval KEY_Escape = KEY_Escape /\ normalize_keyval KEY_colon = KEY_colon /\
  normalize_keyval KEY_Return = KEY_Return /\
  mem N.eqb KEY_colon get_keyvals_from_name = false /\
  mem N.eqb KEY_colon get_keyvals_from_unicode = false /\
  mem N.eqb KEY_Return get_keyvals_from_name = false /\
  (KEY_colon =? KEY_Escape)%N = false /\ (KEY_Return =? KEY_Escape)%N = false.
Proof. vm_compute. repeat split. Qed.

(** C34: the window alphabet has 93 keys, all distinct, and no colon (the
    colon opens the query entry). *)
Theorem numbering_wf :
  length numbering = 93 /\ NoDup numbering /\ ~ In ":"%char numbering.
Proof.
  split; [reflexivity|split; [exact numbering_NoDup|]].
  rewrite <- (mem_In Ascii.eqb Ascii.eqb_spec). vm_compute. discriminate.
Qed.

(** C33: the key value of the [i]-th key of the alphabet is found back at
    index [i] by [numbering_keyvals.index(event.keyval)]: pressing the key
    printed on label [i] selects index [i]. *)
Theorem window_key_roundtrip i c :
  nth_error numbering i = Some c ->
  index_of N.eqb (unicode_to_keyval (N_of_ascii c)) get_keyvals_from_unicode = Some i.
Proof.
  intros Hi. apply (index_of_NoDup N.eqb N.eqb_spec).
  - exact get_keyvals_from_unicode_NoDup.
  - unfold get_keyvals_from_unicode. rewrite nth_error_map, Hi. reflexivity.
Qed.

(** The key values of the window keys are left alone by the keypad map and
    are none of the other keys [keypress] tests. *)
Lemma window_keyval_plain kv :
  In kv get_keyvals_from_unicode ->
  normalize_keyval kv = kv /\ mem N.eqb kv get_keyvals_from_name = false /\
  (kv =? KEY_Escape)%N = false /\ (kv =? KEY_colon)%N = false /\ (kv =? KEY_Return)%N = false.
Proof.
  intros Hin.
  assert (Hall : forallb (fun k => (normalize_keyval k =? k)%N
                                   && negb (mem N.eqb k get_keyvals_from_name)
                                   && negb (k =? KEY_Escape)%N && negb (k =? KEY_colon)%N
                                   && negb (k =? KEY_Return)%N) get_keyvals_from_unicode = true)
    by (vm_compute; reflexivity).
  rewrite forallb_forall in Hall. specialize (Hall kv Hin).
  repeat rewrite andb_true_iff in Hall. repeat rewrite negb_true_iff in Hall.
  destruct Hall as [[[[Hn Hf] He] Hc] Hr]. apply N.eqb_eq in Hn. auto.
Qed.

(** The [i]-th function key: its key value, which the keypad map leaves
    alone, is found back at index [i], and the digits of its name spell
    [i + 1]. *)
Lemma function_key_spec i :
  i < 12 ->
  nth_error get_keyvals_from_name i = Some (KEY_F1 + N.of_nat i)%N /\
  normalize_keyval (KEY_F1 + N.of_nat i)%N = (KEY_F1 + N.of_nat i)%N /\
  (KEY_F1 + N.of_nat i =? KEY_Escape)%N = false /\
  index_of N.eqb (KEY_F1 + N.of_nat i)%N get_keyvals_from_name = Some i /\
  exists name, nth_error function_keys i = Some name /\
               py_int (keep_digits (list_ascii_of_string name)) = Some (i + 1).
Proof.
  intros Hi.
  do 12 (destruct i as [|i]; [repeat split; try reflexivity; eexists; split; reflexivity|]).
  lia.
Qed.

(** C35: no window key has the key value of a workspace key, of Escape, of
    the colon or of Return, so the branches of [keypress] never shadow a
    window key. *)
Theorem window_keys_disjoint kv :
  In kv get_keyvals_from_unicode ->
  ~ In kv get_keyvals_from_name /\ kv <> KEY_Escape /\ kv <> KEY_colon /\ kv <> KEY_Return.
Proof.
  intros Hin. destruct (window_keyval_plain kv Hin) as (_ & Hf & He & Hc & Hr).
  repeat split.
  - rewrite <- (mem_In N.eqb N.eqb_spec). congruence.
  - apply N.eqb_neq. exact He.
  - apply N.eqb_neq. exact Hc.
  - apply N.eqb_neq. exact Hr.
Qed.

(** C36: the keypad map sends keypad digit [d] to top-row digit [d] and
    leaves every other key value unchanged. *)
Theorem normalize_keyval_spec kv :
  normalize_keyval kv =
  if ((KEY_KP_0 <=? kv) && (kv <=? KEY_KP_0 + 9))%N then (kv - KEY_KP_0 + KEY_0)%N else kv.
Proof.
  unfold normalize_keyval.
  destruct ((KEY_KP_0 <=? kv) && (kv <=? KEY_KP_0 + 9))%N eqn:E.
  - apply andb_true_iff in E as [E1 E2]. apply N.leb_le in E1, E2.
    assert (Hd : exists d, d < 10 /\ kv = (KEY_KP_0 + N.of_nat d)%N)
      by (exists (N.to_nat (kv - KEY_KP_0)); lia).
    destruct Hd as (d & Hd & ->).
    do 10 (destruct d as [|d]; [reflexivity|]). lia.
  - apply dict_get_notin. intros Hin. unfold keypad_numbers in Hin.
    rewrite map_map, in_map_iff in Hin. destruct Hin as (d & <- & Hd).
    apply in_seq in Hd. simpl in Hd.
    cbn [fst] in E. apply andb_false_iff in E as [E|E]; apply N.leb_gt in E; lia.
Qed.

(** The function keys F1-F12 have twelve distinct key values. *)
Lemma get_keyvals_from_name_NoDup : NoDup get_keyvals_from_name.
Proof. apply (nodupb_NoDup N.eqb N.eqb_spec). vm_compute. reflexivity. Qed.

(** ** Witnesses *)

Lemma window_key_roundtrip_witness :
  nth_error numbering 10 = Some "a"%char /\
  index_of N.eqb (unicode_to_keyval (N_of_ascii "a"%char)) get_keyvals_from_unicode = Some 10.
Proof. split; [reflexivity|apply window_key_roundtrip; reflexivity]. Defined.

Lemma window_keys_disjoint_witness :
  In 0x61%N get_keyvals_from_unicode /\
  (~ In 0x61%N get_keyvals_from_name /\ 0x61%N <> KEY_Escape /\ 0x61%N <> KEY_colon /\
   0x61%N <> KEY_Return).
Proof.
  assert (H : In 0x61%N get_keyvals_from_unicode)
    by (apply (mem_In N.eqb N.eqb_spec); vm_compute; reflexivity).
  split; [exact H|apply window_keys_disjoint; exact H].
Defined.

End KeyBindings.
