(* ===== verification/WindowList.v ===== *)
(** * WindowList: the snapshot of the screen ([src/nimbler.py], lines 78-207)

    [refresh] reads the workspaces and windows of a libwnck [Screen], keeps
    the windows the settings let through, appends one dictionary per window
    to the list of its workspace (a window on every workspace goes to the
    active one) and flattens the per-workspace lists into
    [window_list_merged].  [rank] scores the flat list against a query and
    sorts it, stably, by decreasing score.

    The dictionaries are shared between the grid and the flat list, and
    [rank] writes into them; we therefore keep them in an append-only
    [store] (the heap of dictionaries) and let the grid and the flat list
    hold indices into it.  A failed [refresh] leaves the previous flat list
    pointing at the previous dictionaries, as in Python.

    The settings (compiled title patterns, ignored types, icon size) are
    fixed when the object is built; they are a section context here.  The
    title patterns are regular expressions of the configuration, abstract
    behind the [RegexSearch] class; the fuzzy matcher is used through the
    [Matcher] class, which [FuzzyMatcher] implements. *)

From Stdlib Require Import String Ascii List Arith Lia Bool QArith Permutation Sorted Lqa.
From S2P Require Import Prelude FuzzyMatcher.
Import ListNotations.
Local Open Scope nat_scope.

(** ** Interfaces *)

(** A compiled regular expression: [pattern.search(s) is not None]. *)
Class RegexSearch (P : Type) := re_search : P -> pystr -> bool.

(** What [WindowList.rank] needs of a matcher object. *)
Class Matcher (M : Type) := {
  m_setPattern : pystr -> M;
  m_score : M -> pystr -> Q
}.

(** The laws the ranking relies on. *)
Class MatcherLaws (M : Type) `{Matcher M} := {
  m_score_nonneg : forall m s, (0 <= m_score m s)%Q
}.

Module WindowList.

(** ** libwnck data *)

(** [Wnck.WindowType] *)
Inductive WindowType : Type :=
| NORMAL | DESKTOP | DOCK | DIALOG | TOOLBAR | MENU | UTILITY | SPLASHSCREEN.

Definition WindowType_eqb (a b : WindowType) : bool :=
  match a, b with
  | NORMAL, NORMAL | DESKTOP, DESKTOP | DOCK, DOCK | DIALOG, DIALOG
  | TOOLBAR, TOOLBAR | MENU, MENU | UTILITY, UTILITY | SPLASHSCREEN, SPLASHSCREEN => true
  | _, _ => false
  end.

(** libwnck objects are compared by identity: handles. *)
Definition window_id := nat.
Definition workspace_id := nat.
Definition icon := nat.

(** A [Wnck.Window] as read by [refresh]. *)
Record Window : Type := mkWindow {
  w_id : window_id;
  w_name : pystr;
  w_workspace : option workspace_id;   (** [None]: on every workspace *)
  w_type : WindowType;
  w_class_group : option pystr;
  w_icon : icon;
  w_mini_icon : icon
}.

(** A [Wnck.Screen] after [force_update]. *)
Record Screen : Type := mkScreen {
  sc_workspaces : list workspace_id;
  sc_active_workspace : option workspace_id;
  sc_active_window : option window_id;
  sc_windows : list Window
}.

(** [icon_size] as [Config.get_icon_size] leaves it: ['default'], ['mini'],
    or [None] for a value that is neither a keyword nor digits. *)
Inductive IconSize : Type := IconDefault | IconMini | IconUnset.

(** The fixed settings of the object ([__init__]'s arguments). *)
Record Settings (P : Type) : Type := mkSettings {
  ignored_windows : list P;
  always_show_windows : list P;
  ignored_window_types : list WindowType;
  icon_size : IconSize
}.
Arguments mkSettings {P}.
Arguments ignored_windows {P}.
Arguments always_show_windows {P}.
Arguments ignored_window_types {P}.
Arguments icon_size {P}.

(** One window's dictionary: [{'name', 'icon', 'class_group', 'window', 'rank'}]. *)
Record Entry : Type := mkEntry {
  name : pystr;
  e_icon : option icon;
  class_group : option pystr;
  window : window_id;
  e_rank : Q
}.

(** The mutable attributes of a [WindowList] object.  Dictionaries are
    referred to by their index in [store]. *)
Record WindowList (M : Type) : Type := mkWindowList {
  windowList : list (list nat);
  store : list Entry;
  window_list_merged : list nat;
  max_windows : nat;
  previousWindow : option window_id;
  workspace_count : nat;
  workspaces : list workspace_id;
  active_workspace : option workspace_id;
  fuzzyMatcher : option M     (** [None]: the fresh matcher of [__init__] *)
}.
Arguments mkWindowList {M}.
Arguments windowList {M}.
Arguments store {M}.
Arguments window_list_merged {M}.
Arguments max_windows {M}.
Arguments previousWindow {M}.
Arguments workspace_count {M}.
Arguments workspaces {M}.
Arguments active_workspace {M}.
Arguments fuzzyMatcher {M}.

Section Operations.
Context {P : Type} `{RegexSearch P} {M : Type} `{Matcher M}.
Variable cfg : Settings P.

(** [WindowList.__init__] (the settings are [cfg]). *)
Definition init : WindowList M :=
  mkWindowList [] [] [] 0 None 0 [] None None.

(** [isWindowIgnored] *)
Definition isWindowIgnored (title : pystr) : bool :=
  existsb (fun p => re_search p title) (ignored_windows cfg).

(** [isWindowAlwaysShown] *)
Definition isWindowAlwaysShown (title : pystr) : bool :=
  existsb (fun p => re_search p title) (always_show_windows cfg).

(** The filter of [refresh]: [true] when the window is not skipped. *)
Definition keep (w : Window) : bool :=
  if isWindowAlwaysShown (w_name w) then true
  else if mem WindowType_eqb (w_type w) (ignored_window_types cfg) then false
  else if isWindowIgnored (w_name w) then false
  else true.

(** [get_icon] *)
Definition get_icon (w : Window) : option icon :=
  match icon_size cfg with
  | IconDefault => Some (w_icon w)
  | IconMini => Some (w_mini_icon w)
  | IconUnset => None
  end.

(** The dictionary [refresh] builds for a window. *)
Definition new_entry (w : Window) : Entry :=
  mkEntry (w_name w) (get_icon w) (w_class_group w) (w_id w) 0.

(** The group index of a window: [self.workspaces.index(workspace)], or of
    the active workspace for a window on every workspace; [None] is the
    [ValueError] of [list.index]. *)
Definition group_of (wss : list workspace_id) (active : option workspace_id)
    (w : Window) : option nat :=
  match w_workspace w with
  | Some ws => index_of Nat.eqb ws wss
  | None => match active with
            | Some a => index_of Nat.eqb a wss
            | None => None
            end
  end.

(** [self.windowList[g].append(d)]: [d] becomes a new dictionary of the
    store. *)
Definition append_entry (g : nat) (e : Entry) : PyM (WindowList M) unit :=
  fun wl =>
    match nth_error (windowList wl) g with
    | None => (inr IndexError, wl)
    | Some _ =>
        (inl tt,
         mkWindowList (update_nth g (fun grp => grp ++ [length (store wl)]) (windowList wl))
           (store wl ++ [e]) (window_list_merged wl) (max_windows wl) (previousWindow wl)
           (workspace_count wl) (workspaces wl) (active_workspace wl) (fuzzyMatcher wl))
    end.

(** The body of the window loop of [refresh]. *)
Definition add_window (w : Window) : PyM (WindowList M) unit :=
  if keep w then
    wl <- pget ;;
    g <- of_option ValueError (group_of (workspaces wl) (active_workspace wl) w) ;;
    append_entry g (new_entry w)
  else pret tt.

(** [for i in self.windowList: if self.max_windows < len(i): ...] *)
Definition update_max (wl : WindowList M) : WindowList M :=
  mkWindowList (windowList wl) (store wl) (window_list_merged wl)
    (fold_left (fun m grp => if m <? length grp then length grp else m)
       (windowList wl) (max_windows wl))
    (previousWindow wl) (workspace_count wl) (workspaces wl) (active_workspace wl)
    (fuzzyMatcher wl).

(** [self.window_list_merged = [item for sublist in self.windowList ...]] *)
Definition merge (wl : WindowList M) : WindowList M :=
  mkWindowList (windowList wl) (store wl) (concat (windowList wl)) (max_windows wl)
    (previousWindow wl) (workspace_count wl) (workspaces wl) (active_workspace wl)
    (fuzzyMatcher wl).

(** [WindowList.refresh]: the attributes read from the screen are set
    before the first statement that can raise. *)
Definition refresh (sc : Screen) : PyM (WindowList M) unit :=
  wl <- pget ;;
  pput (mkWindowList (map (fun _ => []) (sc_workspaces sc)) (store wl)
          (window_list_merged wl) (max_windows wl) (sc_active_window sc)
          (length (sc_workspaces sc)) (sc_workspaces sc) (sc_active_workspace sc)
          (fuzzyMatcher wl)) ;;
  pfor (sc_windows sc) add_window ;;
  pmodify update_max ;;
  pmodify merge.

(** [getLatest]: refresh, then return the grid. *)
Definition getLatest (sc : Screen) : PyM (WindowList M) (list (list nat)) :=
  refresh sc ;; wl <- pget ;; pret (windowList wl).

(** The getters [get], [get_max_windows], [get_workspace_count] and
    [getPreviousWindow] return an attribute; [toggle] calls the first two,
    nothing calls the other two. *)
Definition get (wl : WindowList M) : list (list nat) := windowList wl.
Definition get_max_windows (wl : WindowList M) : nat := max_windows wl.
Definition get_workspace_count (wl : WindowList M) : nat := workspace_count wl.
Definition getPreviousWindow (wl : WindowList M) : option window_id := previousWindow wl.

(** [getHighestRanked]: the first element of [self.windowList], which is
    the first workspace's list, not a dictionary. *)
Definition getHighestRanked (wl : WindowList M) : option (list nat) :=
  match windowList wl with
  | [] => None
  | grp :: _ => Some grp
  end.

(** ** Ranking *)

(** The body of the loop of [rank]; [if i['class_group']:] is false for
    [None] and for the empty string. *)
Definition entry_score (m : M) (e : Entry) : Q :=
  (m_score m (lower (name e)) +
   match class_group e with
   | Some ((_ :: _) as cg) => m_score m (lower cg)
   | _ => 0
   end)%Q.

Definition set_rank (q : Q) (e : Entry) : Entry :=
  mkEntry (name e) (e_icon e) (class_group e) (window e) q.

(** [i['rank'] = score] *)
Definition rescore (m : M) (e : Entry) : Entry := set_rank (entry_score m e) e.

(** [x['rank']] for the dictionary at index [i]. *)
Definition rank_of (st : list Entry) (i : nat) : Q :=
  match nth_error st i with Some e => e_rank e | None => 0%Q end.

(** Insertion into a list sorted by decreasing key, after every element
    of strictly greater key and before the others. *)
Fixpoint insert_desc (key : nat -> Q) (x : nat) (l : list nat) : list nat :=
  match l with
  | [] => [x]
  | y :: l' => if Qle_bool (key y) (key x) then x :: y :: l' else y :: insert_desc key x l'
  end.

(** [list.sort(key=key, reverse=True)]: stable, by decreasing key. *)
Definition sort_desc (key : nat -> Q) (l : list nat) : list nat :=
  fold_right (insert_desc key) [] l.

(** [WindowList.rank]: score every dictionary of the flat list, then sort
    the flat list. *)
Definition rank (text : pystr) : PyM (WindowList M) unit :=
  fun wl =>
    let m := m_setPattern (lower text) in
    let st := fold_left (fun st i => update_nth i (rescore m) st)
                (window_list_merged wl) (store wl) in
    (inl tt,
     mkWindowList (windowList wl) st (sort_desc (rank_of st) (window_list_merged wl))
       (max_windows wl) (previousWindow wl) (workspace_count wl) (workspaces wl)
       (active_workspace wl) (Some m)).
End Operations.

(** ** The fuzzy matcher implements the interface *)

#[export] Instance fuzzy_matcher : Matcher FuzzyMatcher.FuzzyMatcher := {
  m_setPattern := FuzzyMatcher.setPattern;
  m_score := FuzzyMatcher.score
}.

#[export] Instance fuzzy_matcher_laws : MatcherLaws FuzzyMatcher.FuzzyMatcher := {
  m_score_nonneg := FuzzyMatcher.score_nonneg
}.

(** A compiled fuzzy pattern used as a configured title regex. *)
#[export] Instance fuzzy_regex : RegexSearch (list FuzzyMatcher.atom) :=
  fun r s => match FuzzyMatcher.search r s with Some _ => true | None => false end.

(** Whether the dictionary at index [i] has a non-empty [class_group], the
    test [if i['class_group']] of [rank]. *)
Definition has_class (st : list Entry) (i : nat) : bool :=
  match nth_error st i with
  | Some e => match class_group e with Some (_ :: _) => true | _ => false end
  | None => false
  end.

(** ** Fixtures for the concrete runs *)

Module Demo.
Definition cfg : Settings (list FuzzyMatcher.atom) := mkSettings [] [] [DOCK] IconDefault.
Definition firefox := mkWindow 1 (str "Firefox") (Some 10) NORMAL (Some (str "Firefox")) 0 0.
Definition gimp := mkWindow 2 (str "GIMP") (Some 11) NORMAL None 0 0.
Definition files := mkWindow 3 (str "Files") None NORMAL (Some (str "Nautilus")) 0 0.
Definition panel := mkWindow 4 (str "panel") None DOCK None 0 0.
Definition term := mkWindow 5 (str "Terminal") (Some 10) NORMAL None 0 0.
(** Three workspaces, the third active; a window on every workspace; a dock. *)
Definition screen := mkScreen [10; 11; 12] (Some 12) (Some 1) [firefox; gimp; files; panel].
(** The same with a second window on the first workspace. *)
Definition screen2 := mkScreen [10; 11; 12] (Some 12) (Some 1) [firefox; term; gimp; files].
(** No active workspace while a window is on every workspace. *)
Definition screen_noactive := mkScreen [10; 11] None None [firefox; files].
Definition wl0 : WindowList FuzzyMatcher.FuzzyMatcher := init.
End Demo.

(** ** Specification views of the window list *)

Section RefreshSpec.
Context {P : Type} `{RegexSearch P} {M : Type} `{Matcher M}.
Variable cfg : Settings P.

(** The dictionaries of the grid, group by group. *)
Definition view (wl : WindowList M) : list (list (option Entry)) :=
  map (map (nth_error (store wl))) (windowList wl).

(** The windows [refresh] puts in group [g]. *)
Definition in_group (wss : list workspace_id) (a : option workspace_id) (g : nat)
    (w : Window) : bool :=
  keep cfg w && match group_of wss a w with Some g' => g' =? g | None => false end.

(** What the grid should hold after [refresh] has seen the windows [l]:
    for each workspace, the dictionaries of its windows in arrival order. *)
Definition bucket (wss : list workspace_id) (a : option workspace_id) (l : list Window)
    : list (list (option Entry)) :=
  map (fun g => map (fun w => Some (new_entry cfg w)) (filter (in_group wss a g) l))
    (seq 0 (length wss)).

(** The condition under which [refresh] does not raise: every window the
    filter keeps is on a workspace of the list, or on every workspace
    while the active workspace is in the list. *)
Definition refresh_ok (sc : Screen) : bool :=
  forallb (fun w => negb (keep cfg w) ||
                    match group_of (sc_workspaces sc) (sc_active_workspace sc) w with
                    | Some _ => true
                    | None => false
                    end) (sc_windows sc).

(** Every index of the grid is a dictionary of the store. *)
Definition bounded (wl : WindowList M) : Prop :=
  forall b i, In b (windowList wl) -> In i b -> i < length (store wl).

(** The attributes the window loop leaves alone. *)
Definition loop_frame (wl0 wl : WindowList M) : Prop :=
  window_list_merged wl = window_list_merged wl0 /\ max_windows wl = max_windows wl0 /\
  previousWindow wl = previousWindow wl0 /\ workspace_count wl = workspace_count wl0 /\
  workspaces wl = workspaces wl0 /\ active_workspace wl = active_workspace wl0 /\
  fuzzyMatcher wl = fuzzyMatcher wl0.

(** The state after the first statements of [refresh]. *)
Definition refresh_start (sc : Screen) (wl : WindowList M) : WindowList M :=
  mkWindowList (map (fun _ => []) (sc_workspaces sc)) (store wl)
    (window_list_merged wl) (max_windows wl) (sc_active_window sc)
    (length (sc_workspaces sc)) (sc_workspaces sc) (sc_active_workspace sc)
    (fuzzyMatcher wl).

End RefreshSpec.

(** ** The stable descending sort *)

Section Sorting.
Variable key : nat -> Q.

(** [j] may follow [i] in a list sorted by decreasing key. *)
Definition desc (i j : nat) : Prop := (key j <= key i)%Q.

(** The elements whose key equals [q], in order. *)
Definition with_key (q : Q) (l : list nat) : list nat :=
  filter (fun i => Qeq_bool (key i) q) l.

Lemma insert_desc_perm x l : Permutation (x :: l) (insert_desc key x l).
Proof.
  induction l as [|y l IH]; simpl; [reflexivity|].
  destruct (Qle_bool (key y) (key x)); [reflexivity|].
  rewrite perm_swap. constructor. exact IH.
Qed.

Lemma sort_desc_perm l : Permutation l (sort_desc key l).
Proof.
  induction l as [|x l IH]; simpl; [reflexivity|].
  rewrite <- insert_desc_perm. constructor. exact IH.
Qed.

Lemma insert_desc_sorted x l : Sorted desc l -> Sorted desc (insert_desc key x l).
Proof.
  induction 1 as [|y l Hl IH Hhd]; simpl; [repeat constructor|].
  destruct (Qle_bool (key y) (key x)) eqn:E.
  - apply Qle_bool_iff in E. constructor; [constructor; assumption|constructor; exact E].
  - assert (Hxy : (key x <= key y)%Q)
      by (apply Qlt_le_weak, Qnot_le_lt; intros C; apply Qle_bool_iff in C; congruence).
    constructor; [exact IH|].
    destruct l as [|z l]; simpl; [constructor; exact Hxy|].
    inversion Hhd; subst.
    destruct (Qle_bool (key z) (key x)); constructor; assumption.
Qed.

Lemma sort_desc_sorted l : Sorted desc (sort_desc key l).
Proof. induction l; simpl; [constructor|apply insert_desc_sorted; assumption]. Qed.

Lemma with_key_insert q x l :
  with_key q (insert_desc key x l) = with_key q (x :: l).
Proof.
  induction l as [|y l IH]; simpl; [reflexivity|].
  destruct (Qle_bool (key y) (key x)) eqn:E; [reflexivity|].
  assert (Hlt : (key x < key y)%Q)
    by (apply Qnot_le_lt; intros C; apply Qle_bool_iff in C; congruence).
  unfold with_key in *. simpl. rewrite IH. simpl.
  destruct (Qeq_bool (key x) q) eqn:Ex, (Qeq_bool (key y) q) eqn:Ey; try reflexivity.
  apply Qeq_bool_eq in Ex, Ey. exfalso. rewrite Ex, Ey in Hlt. apply (Qlt_irrefl q Hlt).
Qed.

Lemma with_key_sort q l : with_key q (sort_desc key l) = with_key q l.
Proof.
  induction l as [|x l IH]; simpl; [reflexivity|].
  rewrite with_key_insert. unfold with_key in *. simpl. rewrite IH. reflexivity.
Qed.

Lemma with_key_head_in q x l : Qeq_bool (key x) q = true -> with_key q (x :: l) = x :: with_key q l.
Proof. intros E. unfold with_key. simpl. rewrite E. reflexivity. Qed.

Lemma with_key_below q a l :
  (key a < q)%Q -> Forall (desc a) l -> with_key q (a :: l) = [].
Proof.
  intros Hlt F. unfold with_key. simpl.
  destruct (Qeq_bool (key a) q) eqn:E.
  { apply Qeq_bool_eq in E. rewrite E in Hlt. destruct (Qlt_irrefl _ Hlt). }
  induction F as [|j l Hj F IH]; simpl; [reflexivity|].
  destruct (Qeq_bool (key j) q) eqn:Ej; [|exact IH].
  apply Qeq_bool_eq in Ej. unfold desc in Hj. rewrite Ej in Hj.
  destruct (Qlt_irrefl q). eapply Qle_lt_trans; eassumption.
Qed.

Lemma with_key_cons_inv q a l1 l2 :
  with_key q (a :: l1) = with_key q (a :: l2) -> with_key q l1 = with_key q l2.
Proof.
  unfold with_key. simpl. destruct (Qeq_bool (key a) q); [congruence|tauto].
Qed.

Lemma desc_trans : forall a b c, desc a b -> desc b c -> desc a c.
Proof. unfold desc. intros a b c Hab Hbc. eapply Qle_trans; eassumption. Qed.

(** Two lists sorted by decreasing key that agree on the elements of each
    key are equal. *)
Lemma sorted_with_key_unique l1 l2 :
  Sorted desc l1 -> Sorted desc l2 ->
  (forall q, with_key q l1 = with_key q l2) -> l1 = l2.
Proof.
  intros S1. revert l2. apply Sorted_StronglySorted in S1; [|exact desc_trans].
  induction S1 as [|a l1 S1 IH F1]; intros l2 S2 Hq.
  - destruct l2 as [|b l2]; [reflexivity|].
    specialize (Hq (key b)). rewrite with_key_head_in in Hq by apply Qeq_bool_refl.
    discriminate.
  - apply Sorted_StronglySorted in S2; [|exact desc_trans].
    destruct l2 as [|b l2].
    + specialize (Hq (key a)). rewrite with_key_head_in in Hq by apply Qeq_bool_refl.
      discriminate.
    + inversion S2 as [|b' l2' S2' F2]; subst.
      assert (Hab : (key a == key b)%Q).
      { destruct (Qlt_le_dec (key a) (key b)) as [Hlt|Hba].
        - specialize (Hq (key b)). rewrite with_key_below in Hq by assumption.
          rewrite with_key_head_in in Hq by apply Qeq_bool_refl. discriminate.
        - destruct (Qlt_le_dec (key b) (key a)) as [Hlt|Hab]; [|apply Qle_antisym; assumption].
          specialize (Hq (key a)). rewrite (with_key_below _ b) in Hq by assumption.
          rewrite with_key_head_in in Hq by apply Qeq_bool_refl. discriminate. }
      pose proof (Hq (key a)) as Ha.
      rewrite !with_key_head_in in Ha
        by (apply Qeq_bool_iff; first [reflexivity|symmetry; exact Hab]).
      injection Ha as <- _. f_equal.
      apply IH; [apply StronglySorted_Sorted; exact S2'|].
      intros q. apply with_key_cons_inv with (a := a). apply Hq.
Qed.

(** [sort_desc] is the only stable sort by decreasing key: any list that
    is sorted by decreasing key and keeps, for every key, the elements of
    that key in their original order, is [sort_desc key l].  Python's
    [list.sort(key=..., reverse=True)] is such a sort. *)
Lemma sort_desc_unique l l' :
  Sorted desc l' -> (forall q, with_key q l' = with_key q l) -> l' = sort_desc key l.
Proof.
  intros S Hq. apply sorted_with_key_unique; [exact S|apply sort_desc_sorted|].
  intros q. rewrite with_key_sort. apply Hq.
Qed.
End Sorting.

(** ** Ranking *)

Section Ranking.
Context {M : Type} `{Matcher M}.

Lemma nth_error_rescore_all m ids st j :
  nth_error (fold_left (fun st i => update_nth i (rescore m) st) ids st) j =
  if mem Nat.eqb j ids then option_map (rescore m) (nth_error st j) else nth_error st j.
Proof.
  revert st. induction ids as [|i ids IH]; intros st; [reflexivity|].
  simpl fold_left. rewrite IH. unfold mem. simpl existsb.
  destruct (Nat.eqb_spec i j) as [->|Hne]; simpl.
  - rewrite nth_error_update_nth_eq.
    destruct (existsb _ ids); [|reflexivity].
    destruct (nth_error st j); reflexivity.
  - rewrite nth_error_update_nth_ne by exact Hne. reflexivity.
Qed.

Lemma length_rescore_all m ids st :
  length (fold_left (fun st i => update_nth i (rescore m) st) ids st) = length st.
Proof.
  revert st. induction ids as [|i ids IH]; intros st; simpl; [reflexivity|].
  rewrite IH. apply length_update_nth.
Qed.

(** C9: [rank text] never raises; it leaves the grid alone, writes into
    every dictionary of the flat list the score of its lower-cased title
    plus, when the class group is a non-empty string, the score of the
    lower-cased class group, and reorders the flat list into a
    permutation of itself, sorted by decreasing score, in which windows of
    equal score keep their previous order. *)
Theorem rank_spec text (wl : WindowList M) :
  let m := m_setPattern (lower text) in
  let '(r, wl') := rank text wl in
  r = inl tt /\ windowList wl' = windowList wl /\
  length (store wl') = length (store wl) /\
  (forall i e, In i (window_list_merged wl) -> nth_error (store wl) i = Some e ->
               nth_error (store wl') i = Some (set_rank (entry_score m e) e)) /\
  Permutation (window_list_merged wl) (window_list_merged wl') /\
  Sorted (desc (rank_of (store wl'))) (window_list_merged wl') /\
  (forall q, with_key (rank_of (store wl')) q (window_list_merged wl') =
             with_key (rank_of (store wl')) q (window_list_merged wl)).
Proof.
  cbn zeta. unfold rank. cbn [fst snd windowList store window_list_merged].
  repeat split.
  - apply length_rescore_all.
  - intros i e Hin He. rewrite nth_error_rescore_all, He.
    rewrite (proj2 (mem_In Nat.eqb Nat.eqb_spec _ _) Hin). reflexivity.
  - apply sort_desc_perm.
  - apply sort_desc_sorted.
  - intros q. apply with_key_sort.
Qed.
End Ranking.

(** ** Refresh *)

Section Refresh.
Context {P : Type} `{RegexSearch P} {M : Type} `{Matcher M}.
Variable cfg : Settings P.

Lemma bucket_snoc wss a l w :
  bucket cfg wss a (l ++ [w]) =
  if keep cfg w then
    match group_of wss a w with
    | Some g => update_nth g (fun b => b ++ [Some (new_entry cfg w)]) (bucket cfg wss a l)
    | None => bucket cfg wss a l
    end
  else bucket cfg wss a l.
Proof.
  unfold bucket, in_group.
  destruct (keep cfg w) eqn:K; [destruct (group_of wss a w) as [g|] eqn:G|];
    [rewrite update_nth_map_seq; apply map_ext; intros g'|
     apply map_ext; intros g'|apply map_ext; intros g'];
    rewrite filter_app, map_app; simpl; rewrite ?K, ?G; simpl.
  - destruct (Nat.eqb_spec g g') as [->|Hne]; simpl;
      [rewrite Nat.eqb_refl; reflexivity|].
    destruct (Nat.eqb_spec g' g); [congruence|]. apply app_nil_r.
  - apply app_nil_r.
  - apply app_nil_r.
Qed.

Lemma view_append (wl : WindowList M) g e :
  bounded wl -> g < length (windowList wl) ->
  view (snd (append_entry g e wl)) =
  update_nth g (fun b => b ++ [Some e]) (view wl) /\
  bounded (snd (append_entry g e wl)) /\
  Permutation (concat (windowList (snd (append_entry g e wl))))
              (length (store wl) :: concat (windowList wl)).
Proof.
  intros Hb Hg. unfold append_entry.
  destruct (nth_error (windowList wl) g) eqn:E;
    [|apply nth_error_None in E; lia].
  unfold view, bounded in *; cbn [snd windowList store] in *.
  split; [|split; [|apply concat_update_app; exact Hg]].
  - assert (Hb' : forall b, In b (windowList wl) ->
                  map (nth_error (store wl ++ [e])) b = map (nth_error (store wl)) b)
      by (intros b Hin; apply map_ext_in; intros i Hi; apply nth_error_app1, (Hb b); assumption).
    clear E. revert g Hg. induction (windowList wl) as [|b L IH]; intros [|g] Hg;
      simpl in *; try lia.
    + rewrite map_app, Hb' by tauto. simpl.
      rewrite nth_error_app2, Nat.sub_diag by lia. simpl. f_equal.
      apply map_ext_in. intros b' Hin. apply Hb'. tauto.
    + rewrite Hb' by tauto. f_equal. apply IH; [|intros; apply Hb'; tauto|lia].
      intros b' i Hin. apply Hb. tauto.
  - intros b i Hin Hi. rewrite length_app. simpl.
    apply In_nth_error in Hin as [k Hk].
    destruct (Nat.eq_dec k g) as [->|Hne].
    + rewrite nth_error_update_nth_eq, E in Hk. injection Hk as <-.
      apply in_app_or in Hi as [Hi|[<-|[]]]; [|lia].
      specialize (Hb l i (nth_error_In _ _ E) Hi). lia.
    + rewrite nth_error_update_nth_ne in Hk by congruence.
      specialize (Hb b i (nth_error_In _ _ Hk) Hi). lia.
Qed.
Lemma group_of_lt wss a w g : group_of wss a w = Some g -> g < length wss.
Proof.
  unfold group_of. destruct (w_workspace w); [|destruct a; [|discriminate]];
    apply (index_of_lt Nat.eqb Nat.eqb_spec).
Qed.

Lemma add_window_keep (wl : WindowList M) w g :
  keep cfg w = true -> group_of (workspaces wl) (active_workspace wl) w = Some g ->
  add_window cfg w wl = append_entry g (new_entry cfg w) wl.
Proof. intros K G. unfold add_window. rewrite K. cbn. rewrite G. reflexivity. Qed.

Lemma add_window_skip (wl : WindowList M) w :
  keep cfg w = false -> add_window cfg w wl = (inl tt, wl).
Proof. intros K. unfold add_window. rewrite K. reflexivity. Qed.

Lemma append_frame (wl : WindowList M) g e :
  loop_frame wl (snd (append_entry g e wl)) /\
  length (windowList (snd (append_entry g e wl))) = length (windowList wl).
Proof.
  unfold append_entry, loop_frame.
  destruct (nth_error (windowList wl) g); simpl; repeat split; apply length_update_nth.
Qed.

Lemma append_ok (wl : WindowList M) g e :
  g < length (windowList wl) -> append_entry g e wl = (inl tt, snd (append_entry g e wl)).
Proof.
  intros Hg. unfold append_entry.
  destruct (nth_error (windowList wl) g) eqn:E; [reflexivity|].
  apply nth_error_None in E. lia.
Qed.

Lemma loop_frame_trans (a b c : WindowList M) :
  loop_frame a b -> loop_frame b c -> loop_frame a c.
Proof. unfold loop_frame. intuition congruence. Qed.

(** The window loop when every kept window has a group. *)
Lemma refresh_loop (l pre : list Window) (wl0 wl : WindowList M) :
  loop_frame wl0 wl -> length (windowList wl) = length (workspaces wl0) ->
  view wl = bucket cfg (workspaces wl0) (active_workspace wl0) pre ->
  bounded wl -> NoDup (concat (windowList wl)) ->
  (forall w, In w l -> keep cfg w = true ->
             group_of (workspaces wl0) (active_workspace wl0) w <> None) ->
  exists wl', pfor l (add_window cfg) wl = (inl tt, wl') /\
    loop_frame wl0 wl' /\ length (windowList wl') = length (workspaces wl0) /\
    view wl' = bucket cfg (workspaces wl0) (active_workspace wl0) (pre ++ l) /\
    bounded wl' /\ NoDup (concat (windowList wl')).
Proof.
  revert pre wl. induction l as [|w l IH]; intros pre wl Hf Hlen Hv Hb Hnd Hok.
  { exists wl. rewrite app_nil_r. split; [reflexivity|tauto]. }
  assert (Hws : workspaces wl = workspaces wl0 /\ active_workspace wl = active_workspace wl0)
    by (unfold loop_frame in Hf; tauto).
  replace (pre ++ w :: l) with ((pre ++ [w]) ++ l) by (rewrite <- app_assoc; reflexivity).
  simpl pfor. destruct (keep cfg w) eqn:K.
  - destruct (group_of (workspaces wl0) (active_workspace wl0) w) as [g|] eqn:G;
      [|exfalso; exact (Hok w (or_introl eq_refl) K G)].
    assert (Hg : g < length (windowList wl)) by (rewrite Hlen; exact (group_of_lt _ _ _ _ G)).
    destruct (view_append wl g (new_entry cfg w) Hb Hg) as (Hv' & Hb' & Hp).
    destruct (append_frame wl g (new_entry cfg w)) as [Hf' Hlen'].
    assert (G' : group_of (workspaces wl) (active_workspace wl) w = Some g)
      by (destruct Hws as [-> ->]; exact G).
    rewrite (pbind_ok _ _ _ tt (snd (append_entry g (new_entry cfg w) wl)))
      by (rewrite (add_window_keep wl w g K G'); apply append_ok; exact Hg).
    apply IH.
    + exact (loop_frame_trans _ _ _ Hf Hf').
    + rewrite Hlen'. exact Hlen.
    + rewrite Hv', Hv, bucket_snoc, K, G. reflexivity.
    + exact Hb'.
    + rewrite Hp. constructor; [|exact Hnd]. intros Hin.
      apply in_concat in Hin as (b & Hin & Hi). specialize (Hb b _ Hin Hi). lia.
    + intros w' Hw'. apply Hok. right. exact Hw'.
  - rewrite (pbind_ok _ _ _ tt wl) by (apply add_window_skip; exact K).
    apply IH; try assumption.
    + rewrite Hv, bucket_snoc, K. reflexivity.
    + intros w' Hw'. apply Hok. right. exact Hw'.
Qed.

(** The window loop when some kept window has no group. *)
Lemma refresh_loop_error (l : list Window) (wl0 wl : WindowList M) :
  loop_frame wl0 wl -> length (windowList wl) = length (workspaces wl0) ->
  (exists w, In w l /\ keep cfg w = true /\
             group_of (workspaces wl0) (active_workspace wl0) w = None) ->
  exists wl', pfor l (add_window cfg) wl = (inr ValueError, wl') /\ loop_frame wl0 wl'.
Proof.
  revert wl. induction l as [|w l IH]; intros wl Hf Hlen Hbad;
    [destruct Hbad as (? & [] & _)|].
  assert (Hws : workspaces wl = workspaces wl0 /\ active_workspace wl = active_workspace wl0)
    by (unfold loop_frame in Hf; tauto).
  simpl pfor. destruct (keep cfg w) eqn:K;
    [destruct (group_of (workspaces wl0) (active_workspace wl0) w) as [g|] eqn:G|].
  - assert (Hg : g < length (windowList wl)) by (rewrite Hlen; exact (group_of_lt _ _ _ _ G)).
    destruct (append_frame wl g (new_entry cfg w)) as [Hf' Hlen'].
    assert (G' : group_of (workspaces wl) (active_workspace wl) w = Some g)
      by (destruct Hws as [-> ->]; exact G).
    rewrite (pbind_ok _ _ _ tt (snd (append_entry g (new_entry cfg w) wl)))
      by (rewrite (add_window_keep wl w g K G'); apply append_ok; exact Hg).
    apply IH; [exact (loop_frame_trans _ _ _ Hf Hf')|rewrite Hlen'; exact Hlen|].
    destruct Hbad as (w' & [<-|Hin] & Hk & Hn); [congruence|]. exists w'. tauto.
  - exists wl. split; [|exact Hf]. apply pbind_err with (e := ValueError) (s' := wl).
    unfold add_window. rewrite K. cbn. destruct Hws as [-> ->]. rewrite G. reflexivity.
  - rewrite (pbind_ok _ _ _ tt wl) by (apply add_window_skip; exact K).
    apply IH; [exact Hf|exact Hlen|].
    destruct Hbad as (w' & [<-|Hin] & Hk & Hn); [congruence|]. exists w'. tauto.
Qed.

Lemma update_max_spec {A} (L : list (list A)) m :
  fold_left (fun m grp => if m <? length grp then length grp else m) L m =
  Nat.max m (list_max (map (fun b => length b) L)).
Proof.
  revert m. induction L as [|b L IH]; intros m; simpl; [lia|].
  rewrite IH. destruct (Nat.ltb_spec m (length b)); unfold list_max; lia.
Qed.
Lemma refresh_unfold sc (wl : WindowList M) :
  refresh cfg sc wl =
  match pfor (sc_windows sc) (add_window cfg) (refresh_start sc wl) with
  | (inl _, wl') => (inl tt, merge (update_max wl'))
  | (inr e, wl') => (inr e, wl')
  end.
Proof.
  unfold refresh, refresh_start, pbind, pget, pput, pmodify.
  destruct (pfor (sc_windows sc) (add_window cfg) _) as [[[]|e] s']; reflexivity.
Qed.

Lemma refresh_start_inv sc (wl : WindowList M) :
  let wl1 := refresh_start sc wl in
  loop_frame wl1 wl1 /\ length (windowList wl1) = length (workspaces wl1) /\
  view wl1 = bucket cfg (workspaces wl1) (active_workspace wl1) [] /\
  bounded wl1 /\ NoDup (concat (windowList wl1)).
Proof.
  cbn zeta. unfold refresh_start, loop_frame, view, bucket, bounded; cbn.
  repeat split; try apply length_map.
  - rewrite !map_map, !map_const, length_seq. reflexivity.
  - intros b i Hb Hi. apply in_map_iff in Hb as (? & <- & _). destruct Hi.
  - replace (concat _) with (@nil nat); [constructor|].
    induction (sc_workspaces sc); simpl; auto.
Qed.

(** [refresh] on a screen where every kept window has a group. *)
Lemma refresh_total sc (wl : WindowList M) :
  refresh_ok cfg sc = true ->
  exists wl', refresh cfg sc wl = (inl tt, wl') /\
    view wl' = bucket cfg (sc_workspaces sc) (sc_active_workspace sc) (sc_windows sc) /\
    window_list_merged wl' = concat (windowList wl') /\
    NoDup (window_list_merged wl') /\ bounded wl' /\
    length (windowList wl') = length (sc_workspaces sc) /\
    workspaces wl' = sc_workspaces sc /\ active_workspace wl' = sc_active_workspace sc /\
    workspace_count wl' = length (sc_workspaces sc) /\
    previousWindow wl' = sc_active_window sc /\
    max_windows wl' = Nat.max (max_windows wl) (list_max (map (fun b => length b) (windowList wl'))).
Proof.
  intros Hok. destruct (refresh_start_inv sc wl) as (Hf & Hlen & Hv & Hb & Hnd).
  destruct (refresh_loop (sc_windows sc) [] _ _ Hf Hlen Hv Hb Hnd) as
      (wl' & Hrun & Hf' & Hlen' & Hv' & Hb' & Hnd').
  { intros w Hw K. unfold refresh_ok in Hok. rewrite forallb_forall in Hok.
    specialize (Hok w Hw). rewrite K in Hok. simpl in Hok. cbn.
    destruct (group_of _ _ w); congruence. }
  exists (merge (update_max wl')). rewrite refresh_unfold, Hrun.
  unfold loop_frame in Hf'. cbn in Hf', Hlen', Hv'.
  destruct Hf' as (_ & Hmax & Hprev & Hcnt & Hws & Hact & _).
  unfold merge, update_max, view, bounded in *;
    cbn [windowList store window_list_merged max_windows previousWindow workspace_count
         workspaces active_workspace fuzzyMatcher].
  rewrite update_max_spec. repeat split; auto; congruence.
Qed.

(** C8: when every kept window has a group, [refresh] returns, and the
    grid holds, for each workspace in order, the dictionaries of the kept
    windows of that workspace in the order libwnck lists them (a window on
    every workspace counting for the active one); the flat list is the
    concatenation of the groups, without repetition; the attributes read
    from the screen are set, and [max_windows] becomes the maximum of its
    previous value and the largest group. *)
Theorem refresh_spec sc (wl : WindowList M) :
  refresh_ok cfg sc = true ->
  exists wl', refresh cfg sc wl = (inl tt, wl') /\
    view wl' = bucket cfg (sc_workspaces sc) (sc_active_workspace sc) (sc_windows sc) /\
    window_list_merged wl' = concat (windowList wl') /\
    NoDup (window_list_merged wl') /\ bounded wl' /\
    length (windowList wl') = length (sc_workspaces sc) /\
    workspaces wl' = sc_workspaces sc /\ active_workspace wl' = sc_active_workspace sc /\
    workspace_count wl' = length (sc_workspaces sc) /\
    previousWindow wl' = sc_active_window sc /\
    max_windows wl' = Nat.max (max_windows wl) (list_max (map (fun b => length b) (windowList wl'))).
Proof. apply refresh_total. Qed.

(** [refresh] on a screen where some kept window has no group. *)
Lemma refresh_raises sc (wl : WindowList M) :
  refresh_ok cfg sc = false ->
  exists wl', refresh cfg sc wl = (inr ValueError, wl') /\
    window_list_merged wl' = window_list_merged wl /\ max_windows wl' = max_windows wl.
Proof.
  intros Hko. destruct (refresh_start_inv sc wl) as (Hf & Hlen & _).
  destruct (refresh_loop_error (sc_windows sc) _ _ Hf Hlen) as (wl' & Hrun & Hf').
  { destruct (forallb_false_exists _ _ Hko) as (w & Hw & F).
    exists w. cbn. destruct (keep cfg w); [|discriminate].
    destruct (group_of _ _ w); [discriminate|]. auto. }
  exists wl'. rewrite refresh_unfold, Hrun. unfold loop_frame in Hf'. cbn in Hf'. tauto.
Qed.

(** C23: when some kept window has no group ([workspaces.index] fails,
    for instance a window on every workspace while no workspace is
    active), [refresh] raises [ValueError] and leaves [window_list_merged]
    and [max_windows] as they were: the flat list still refers to the
    dictionaries of the previous snapshot. *)
Theorem refresh_error sc (wl : WindowList M) :
  refresh_ok cfg sc = false ->
  exists wl', refresh cfg sc wl = (inr ValueError, wl') /\
    window_list_merged wl' = window_list_merged wl /\ max_windows wl' = max_windows wl.
Proof. apply refresh_raises. Qed.
End Refresh.

(** ** Properties of ranking and of the highest-ranked window *)

Section Highest.
Context {M : Type} `{Matcher M}.

(** C24: [rank] sorts the flat list exactly as Python's stable
    [list.sort(key=lambda x: x['rank'], reverse=True)] does: the result is
    the only permutation sorted by decreasing rank that keeps the windows
    of each rank in their previous order. *)
Theorem rank_is_python_sort text (wl : WindowList M) l' :
  let st := store (snd (rank text wl)) in
  Sorted (desc (rank_of st)) l' ->
  (forall q, with_key (rank_of st) q l' = with_key (rank_of st) q (window_list_merged wl)) ->
  window_list_merged (snd (rank text wl)) = l'.
Proof.
  cbn zeta. intros S Hq. symmetry. apply sort_desc_unique; assumption.
Qed.

End Highest.

(** ** Concrete runs *)


Lemma refresh_spec_witness :
  refresh_ok Demo.cfg Demo.screen = true /\
  exists wl', refresh Demo.cfg Demo.screen Demo.wl0 = (inl tt, wl') /\
    view wl' = bucket Demo.cfg (sc_workspaces Demo.screen) (sc_active_workspace Demo.screen)
                 (sc_windows Demo.screen) /\
    window_list_merged wl' = concat (windowList wl') /\
    NoDup (window_list_merged wl') /\ bounded wl' /\
    length (windowList wl') = length (sc_workspaces Demo.screen) /\
    workspaces wl' = sc_workspaces Demo.screen /\
    active_workspace wl' = sc_active_workspace Demo.screen /\
    workspace_count wl' = length (sc_workspaces Demo.screen) /\
    previousWindow wl' = sc_active_window Demo.screen /\
    max_windows wl' = Nat.max (max_windows Demo.wl0)
                        (list_max (map (fun b => length b) (windowList wl'))).
Proof.
  assert (H : refresh_ok Demo.cfg Demo.screen = true) by reflexivity.
  split; [exact H|exact (refresh_spec Demo.cfg Demo.screen Demo.wl0 H)].
Defined.

Lemma refresh_error_witness :
  refresh_ok Demo.cfg Demo.screen_noactive = false /\
  exists wl', refresh Demo.cfg Demo.screen_noactive Demo.wl0 = (inr ValueError, wl') /\
    window_list_merged wl' = window_list_merged Demo.wl0 /\
    max_windows wl' = max_windows Demo.wl0.
Proof.
  assert (H : refresh_ok Demo.cfg Demo.screen_noactive = false) by reflexivity.
  split; [exact H|exact (refresh_error Demo.cfg Demo.screen_noactive Demo.wl0 H)].
Defined.

Lemma rank_is_python_sort_witness :
  let wl := snd (refresh Demo.cfg Demo.screen Demo.wl0) in
  let st := store (snd (rank (str "fi") wl)) in
  (Sorted (desc (rank_of st)) [0; 2; 1] /\
   (forall q, with_key (rank_of st) q [0; 2; 1] =
              with_key (rank_of st) q (window_list_merged wl))) /\
  window_list_merged (snd (rank (str "fi") wl)) = [0; 2; 1].
Proof.
  cbn zeta.
  set (st := store (snd (rank (str "fi") (snd (refresh Demo.cfg Demo.screen Demo.wl0))))).
  assert (Hm : window_list_merged (snd (refresh Demo.cfg Demo.screen Demo.wl0)) = [0; 1; 2])
    by (vm_compute; reflexivity).
  assert (H12 : Qeq_bool (rank_of st 1) (rank_of st 2) = false) by (vm_compute; reflexivity).
  assert (HS : Sorted (desc (rank_of st)) [0; 2; 1])
    by (vm_compute; repeat constructor; discriminate).
  assert (Hq : forall q, with_key (rank_of st) q [0; 2; 1] =
                         with_key (rank_of st) q
                           (window_list_merged (snd (refresh Demo.cfg Demo.screen Demo.wl0)))).
  { intros q. rewrite Hm. unfold with_key. cbn [filter].
    destruct (Qeq_bool (rank_of st 1) q) eqn:E1, (Qeq_bool (rank_of st 2) q) eqn:E2;
      try reflexivity.
    apply Qeq_bool_eq in E1, E2. rewrite <- E2 in E1.
    apply Qeq_bool_iff in E1. congruence. }
  split; [split; assumption|apply rank_is_python_sort; assumption].
Defined.

(** ** The empty query *)

Section TwoKeys.
Variable key : nat -> Q.

Lemma insert_desc_top x l : (forall y, In y l -> (key y <= key x)%Q) -> insert_desc key x l = x :: l.
Proof.
  destruct l as [|y l]; intros Hl; [reflexivity|]. cbn [insert_desc].
  rewrite (proj2 (Qle_bool_iff _ _)) by (apply Hl; left; reflexivity). reflexivity.
Qed.

Lemma insert_desc_skip x h l :
  (forall y, In y h -> (key x < key y)%Q) -> insert_desc key x (h ++ l) = h ++ insert_desc key x l.
Proof.
  induction h as [|y h IH]; intros Hh; [reflexivity|]. cbn [insert_desc app].
  destruct (Qle_bool (key y) (key x)) eqn:E.
  - apply Qle_bool_iff, Qle_not_lt in E. exfalso. apply E, Hh. left. reflexivity.
  - rewrite IH; [reflexivity|]. intros z Hz. apply Hh. right. exact Hz.
Qed.

(** A stable descending sort by a key with two values puts the elements of
    the higher value first, each part in its previous order. *)
Lemma sort_desc_two hi lo l :
  (lo < hi)%Q -> (forall i, In i l -> key i == hi \/ key i == lo) ->
  sort_desc key l =
    filter (fun i => Qeq_bool (key i) hi) l ++ filter (fun i => negb (Qeq_bool (key i) hi)) l.
Proof.
  intros Hlt. induction l as [|x l IH]; intros Hk; [reflexivity|].
  unfold sort_desc in *. cbn [fold_right filter].
  rewrite IH by (intros i Hi; apply Hk; right; exact Hi).
  assert (Hin : forall y, In y (filter (fun i => Qeq_bool (key i) hi) l ++
                               filter (fun i => negb (Qeq_bool (key i) hi)) l) -> In y l)
    by (intros y Hy; apply in_app_or in Hy as [Hy|Hy]; apply filter_In in Hy; apply Hy).
  destruct (Hk x (or_introl eq_refl)) as [Ex|Ex].
  - rewrite (proj2 (Qeq_bool_iff _ _) Ex). cbn [negb app].
    apply insert_desc_top. intros y Hy. rewrite Ex.
    destruct (Hk y (or_intror (Hin y Hy))) as [Ey|Ey]; rewrite Ey; lra.
  - assert (Ef : Qeq_bool (key x) hi = false)
      by (apply not_true_iff_false; intros E; apply Qeq_bool_iff in E; lra).
    rewrite Ef. cbn [negb]. rewrite insert_desc_skip.
    + rewrite insert_desc_top; [reflexivity|]. intros y Hy. apply filter_In in Hy as [Hy Hn].
      destruct (Hk y (or_intror Hy)) as [Ey|Ey]; [|rewrite Ey, Ex; lra].
      rewrite (proj2 (Qeq_bool_iff _ _) Ey) in Hn. discriminate.
    + intros y Hy. apply filter_In in Hy as [_ Hy]. apply Qeq_bool_iff in Hy. rewrite Hy, Ex. exact Hlt.
Qed.
End TwoKeys.

Lemma Qeq_bool_two q (b : bool) :
  q == (if b then 440 else 220) -> Qeq_bool q 440 = b.
Proof.
  destruct b; intros E; [apply Qeq_bool_iff, E|].
  apply not_true_iff_false. intros E'. apply Qeq_bool_iff in E'. rewrite E in E'. discriminate E'.
Qed.

(** The rank [rank('')] writes: 220 for the title, 220 more for a
    non-empty class group. *)
Lemma empty_query_rank (wl : WindowList FuzzyMatcher.FuzzyMatcher) i :
  In i (window_list_merged wl) -> i < length (store wl) ->
  rank_of (store (snd (rank [] wl))) i == (if has_class (store wl) i then 440 else 220).
Proof.
  intros Hin Hlt. unfold rank_of. cbn [rank snd store]. rewrite nth_error_rescore_all.
  replace (mem Nat.eqb i (window_list_merged wl)) with true
    by (symmetry; apply (mem_In Nat.eqb Nat.eqb_spec); exact Hin).
  unfold has_class. destruct (nth_error (store wl) i) as [e|] eqn:E;
    [|apply nth_error_None in E; lia].
  cbn [option_map e_rank rescore set_rank]. unfold entry_score. cbn [m_score m_setPattern fuzzy_matcher].
  change (lower []) with (@nil ascii). rewrite FuzzyMatcher.score_empty_pattern.
  destruct (class_group e) as [[|c cg]|]; [| rewrite FuzzyMatcher.score_empty_pattern|];
    reflexivity.
Qed.

(** C37: [WindowList.rank] on the empty query is not a no-op: every title
    scores 220 and every non-empty class group 220 more, so the flat list
    becomes the windows with a class group followed by the others, each
    part in its previous order.  Only the caller's [if text:] keeps the
    empty query from re-sorting. *)
Theorem rank_empty_partitions (wl : WindowList FuzzyMatcher.FuzzyMatcher) :
  (forall i, In i (window_list_merged wl) -> i < length (store wl)) ->
  window_list_merged (snd (rank [] wl)) =
    filter (has_class (store wl)) (window_list_merged wl) ++
    filter (fun i => negb (has_class (store wl) i)) (window_list_merged wl).
Proof.
  intros Hb.
  change (window_list_merged (snd (rank [] wl)))
    with (sort_desc (rank_of (store (snd (rank [] wl)))) (window_list_merged wl)).
  rewrite (sort_desc_two _ 440 220); [|reflexivity|].
  - f_equal; apply filter_ext_in; intros i Hi;
      rewrite (Qeq_bool_two _ _ (empty_query_rank wl i Hi (Hb i Hi))); reflexivity.
  - intros i Hi. rewrite (empty_query_rank wl i Hi (Hb i Hi)).
    destruct (has_class (store wl) i); [left|right]; reflexivity.
Qed.

Lemma rank_empty_partitions_witness :
  let wl := snd (refresh Demo.cfg Demo.screen Demo.wl0) in
  (forall i, In i (window_list_merged wl) -> i < length (store wl)) /\
  window_list_merged wl = [0; 1; 2] /\
  window_list_merged (snd (rank [] wl)) = [0; 2; 1] /\
  window_list_merged (snd (rank [] wl)) =
    filter (has_class (store wl)) (window_list_merged wl) ++
    filter (fun i => negb (has_class (store wl) i)) (window_list_merged wl).
Proof.
  cbv zeta.
  assert (Hb : forall i, In i (window_list_merged (snd (refresh Demo.cfg Demo.screen Demo.wl0))) ->
                 i < length (store (snd (refresh Demo.cfg Demo.screen Demo.wl0))))
    by (intros i Hi; vm_compute in Hi |- *; destruct Hi as [<-|[<-|[<-|[]]]]; lia).
  split; [exact Hb|split; [vm_compute; reflexivity|split; [vm_compute; reflexivity|]]].
  exact (rank_empty_partitions _ Hb).
Defined.

End WindowList.
