(* ===== verification/WindowIndex.v ===== *)
(** * WindowIndex: the abstract window index and its refinement by [WindowList]

    The specification describes a [WindowIndex] whose state is a grouped
    view (one list of entries per workspace) and a flattened view, with
    [refresh] replacing both and [rank] re-scoring every entry and
    re-sorting the flattened view, stably, by decreasing rank.  It says
    nothing of aliasing: its entries are values.  [WindowList] implements
    it with Python dictionaries shared between the grid and
    [window_list_merged], which the model keeps in the store of
    [WindowList.v].

    This file states the abstract index ([Index], [spec_refresh],
    [spec_rank]), the abstraction of a [WindowList] state into an [Index]
    ([abs], which reads every index through the store), the
    well-formedness of a [WindowList] state ([wl_wf]: the flat list is a
    permutation of the grid, without repetition, into the store), and
    proves that [init], a successful [refresh] and [rank] keep it and
    that [refresh] and [rank] refine their abstract counterparts. *)

From Stdlib Require Import String Ascii List Arith Lia Bool QArith Permutation.
From S2P Require Import Prelude FuzzyMatcher WindowList.
Import ListNotations.
Local Open Scope nat_scope.

Module WindowIndex.
Import WindowList.

(** ** The abstract index *)

(** An entry of the index: [None] stands for an index the store does not
    have, which a well-formed state never shows. *)
Definition slot := option Entry.

Record Index : Type := mkIndex {
  groups : list (list slot);
  flat : list slot
}.

(** The rank of a slot. *)
Definition slot_rank (o : slot) : Q := match o with Some e => e_rank e | None => 0%Q end.

Section SortBy.
Context {A : Type}.
Variable key : A -> Q.

(** Stable insertion by decreasing key, on values. *)
Fixpoint insert_by (x : A) (l : list A) : list A :=
  match l with
  | [] => [x]
  | y :: l' => if Qle_bool (key y) (key x) then x :: y :: l' else y :: insert_by x l'
  end.

Definition sort_by (l : list A) : list A := fold_right insert_by [] l.
End SortBy.

Section Spec.
Context {P : Type} `{RegexSearch P} {M : Type} `{Matcher M}.

(** [refresh] as the specification states it: the kept windows of each
    workspace in libwnck's order, and their concatenation. *)
Definition spec_refresh (cfg : Settings P) (sc : Screen) : Index :=
  let g := bucket cfg (sc_workspaces sc) (sc_active_workspace sc) (sc_windows sc) in
  mkIndex g (concat g).

(** [rank] as the specification states it: every entry gets its score,
    the flattened view is sorted stably by decreasing rank. *)
Definition spec_rank (m : M) (ix : Index) : Index :=
  let f := option_map (rescore m) in
  mkIndex (map (map f) (groups ix)) (sort_by slot_rank (map f (flat ix))).

(** ** The concrete state *)

(** The abstraction function: read the grid and the flat list through the
    store. *)
Definition abs (wl : WindowList M) : Index :=
  mkIndex (view wl) (map (nth_error (store wl)) (window_list_merged wl)).

(** Well-formedness of a [WindowList] state. *)
Definition wl_wf (wl : WindowList M) : Prop :=
  NoDup (window_list_merged wl) /\
  Permutation (window_list_merged wl) (concat (windowList wl)) /\
  bounded wl.
End Spec.

(** * Properties *)

Section SortMap.
Context {A B : Type}.

Lemma map_insert_by (k : A -> Q) (key : B -> Q) (g : A -> B) x l :
  (forall y, key (g y) = k y) ->
  map g (insert_by k x l) = insert_by key (g x) (map g l).
Proof.
  intros Hk. induction l as [|y l IH]; [reflexivity|]. cbn [insert_by map].
  rewrite !Hk. destruct (Qle_bool (k y) (k x)); [reflexivity|]. cbn [map]. rewrite IH. reflexivity.
Qed.

Lemma map_sort_by (k : A -> Q) (key : B -> Q) (g : A -> B) l :
  (forall y, key (g y) = k y) -> map g (sort_by k l) = sort_by key (map g l).
Proof.
  intros Hk. induction l as [|x l IH]; [reflexivity|]. cbn [sort_by fold_right map].
  unfold sort_by in IH. rewrite (map_insert_by k key g) by exact Hk. rewrite IH. reflexivity.
Qed.
End SortMap.

(** [insert_desc] of [WindowList] is [insert_by] on indices. *)
Lemma insert_desc_by key x l : insert_desc key x l = insert_by key x l.
Proof. induction l as [|y l IH]; cbn; [reflexivity|]. rewrite IH. reflexivity. Qed.

Lemma sort_desc_by key l : sort_desc key l = sort_by key l.
Proof.
  induction l as [|x l IH]; [reflexivity|]. cbn [sort_desc sort_by fold_right].
  unfold sort_desc, sort_by in IH. rewrite IH, insert_desc_by. reflexivity.
Qed.

Section Refinement.
Context {P : Type} `{RegexSearch P} {M : Type} `{Matcher M}.

Lemma rank_store text (wl : WindowList M) i :
  In i (window_list_merged wl) ->
  nth_error (store (snd (rank text wl))) i =
  option_map (rescore (m_setPattern (lower text))) (nth_error (store wl) i).
Proof.
  intros Hi. unfold rank. cbn [snd store]. rewrite nth_error_rescore_all.
  replace (mem Nat.eqb i (window_list_merged wl)) with true; [reflexivity|].
  symmetry. apply (mem_In Nat.eqb Nat.eqb_spec). exact Hi.
Qed.

Lemma rank_wf text (wl : WindowList M) : wl_wf wl -> wl_wf (snd (rank text wl)).
Proof.
  intros (Hnd & Hp & Hb). unfold wl_wf, bounded, rank in *.
  cbn [snd window_list_merged windowList store].
  match goal with |- context [sort_desc ?k _] =>
    pose proof (sort_desc_perm k (window_list_merged wl)) as Hs end.
  split; [exact (Permutation_NoDup Hs Hnd)|split; [rewrite <- Hs; exact Hp|]].
  intros b i Hbin Hi. rewrite length_rescore_all. exact (Hb b i Hbin Hi).
Qed.

Lemma refresh_wf cfg sc (wl : WindowList M) :
  refresh_ok cfg sc = true -> wl_wf (snd (refresh cfg sc wl)).
Proof.
  intros Hok. destruct (refresh_total cfg sc wl Hok) as (wl' & -> & _ & Hm & Hnd & Hb & _).
  cbn [snd]. split; [exact Hnd|split; [rewrite Hm; reflexivity|exact Hb]].
Qed.

Lemma abs_snapshot (wl : WindowList M) :
  wl_wf wl -> Permutation (flat (abs wl)) (concat (groups (abs wl))).
Proof.
  intros (_ & Hp & _). unfold abs, view. cbn [flat groups].
  rewrite <- concat_map. apply Permutation_map, Hp.
Qed.

(** C6: the window list is well formed after [__init__], after every
    successful [refresh] whatever the state before, and after [rank] of a
    well-formed state; in a well-formed state the flattened view and the
    grouped view hold the same entries, which is the snapshot invariant of
    the specification. *)
Theorem wl_wf_preserved :
  wl_wf (init (M := M)) /\
  (forall cfg sc (wl : WindowList M), refresh_ok cfg sc = true -> wl_wf (snd (refresh cfg sc wl))) /\
  (forall text (wl : WindowList M), wl_wf wl -> wl_wf (snd (rank text wl))) /\
  (forall wl : WindowList M, wl_wf wl -> Permutation (flat (abs wl)) (concat (groups (abs wl)))).
Proof.
  split; [|split; [exact refresh_wf|split; [exact rank_wf|exact abs_snapshot]]].
  split; [constructor|split; [reflexivity|intros b i []]].
Qed.

Lemma refresh_abs cfg sc (wl : WindowList M) :
  refresh_ok cfg sc = true -> abs (snd (refresh cfg sc wl)) = spec_refresh cfg sc.
Proof.
  intros Hok. destruct (refresh_total cfg sc wl Hok) as (wl' & -> & Hv & Hm & _).
  cbn [snd]. unfold abs, spec_refresh. rewrite Hm, <- Hv. unfold view. rewrite concat_map.
  reflexivity.
Qed.

Lemma rank_abs text (wl : WindowList M) :
  wl_wf wl -> abs (snd (rank text wl)) = spec_rank (m_setPattern (lower text)) (abs wl).
Proof.
  intros (Hnd & Hp & Hb). unfold abs, spec_rank. cbn [groups flat]. f_equal.
  - unfold view. change (windowList (snd (rank text wl))) with (windowList wl).
    rewrite map_map. apply map_ext_in. intros b Hbin. rewrite map_map.
    apply map_ext_in. intros i Hi. apply rank_store.
    apply (Permutation_in _ (Permutation_sym Hp)), in_concat. exists b. auto.
  - change (window_list_merged (snd (rank text wl)))
      with (sort_desc (rank_of (store (snd (rank text wl)))) (window_list_merged wl)).
    rewrite sort_desc_by, (map_sort_by _ slot_rank) by (intros; reflexivity).
    f_equal. rewrite map_map. apply map_ext_in. intros i Hi. apply rank_store, Hi.
Qed.

(** C5: [refresh] and [rank] refine the abstract index: the abstraction
    of the state a successful [refresh] leaves is [spec_refresh]; on a
    well-formed state, the abstraction of [rank text] is [spec_rank] of
    the abstraction, the scores written into the shared dictionaries
    reaching the grouped view as the specification's values do. *)
Theorem window_list_refines cfg sc text (wl : WindowList M) :
  (refresh_ok cfg sc = true -> abs (snd (refresh cfg sc wl)) = spec_refresh cfg sc) /\
  (wl_wf wl -> abs (snd (rank text wl)) = spec_rank (m_setPattern (lower text)) (abs wl)).
Proof. split; [apply refresh_abs|apply rank_abs]. Qed.

End Refinement.

(** ** Concrete runs on the fixtures of [WindowList.Demo] *)

(** The state of [WindowList.Demo] after one refresh, then a search. *)
Lemma wl_wf_preserved_witness :
  wl_wf (snd (rank (str "fi") (snd (refresh Demo.cfg Demo.screen Demo.wl0)))).
Proof.
  destruct wl_wf_preserved as (_ & Hr & Hk & _).
  apply Hk, Hr. reflexivity.
Defined.

Lemma window_list_refines_witness :
  let wl1 := snd (refresh Demo.cfg Demo.screen Demo.wl0) in
  abs wl1 = spec_refresh Demo.cfg Demo.screen /\
  abs (snd (rank (str "fi") wl1)) = spec_rank (m_setPattern (lower (str "fi"))) (abs wl1).
Proof.
  split.
  - apply (window_list_refines Demo.cfg Demo.screen (str "fi") Demo.wl0). reflexivity.
  - apply (window_list_refines Demo.cfg Demo.screen (str "fi")). apply refresh_wf. reflexivity.
Defined.

End WindowIndex.
