(* ===== verification/Config.v ===== *)
(** * Config: the options file ([src/nimbler.py], lines 470-543)

    [Config.__init__] reads up to three files into configparser's [DEFAULT]
    section, and [loadOptions] turns the options into the hotkey and the
    arguments of [WindowList] ([WindowList.Settings]).  The files are
    modelled as the (option, value) pairs configparser has read, in reading
    order, a later value overriding an earlier one, each value being what
    [config.get] returns: configparser's [%] interpolation ([%%], [%(name)s],
    and the [InterpolationError] of a malformed [%]) is taken as done, and
    option names as already lowercased; [re.compile] is abstract
    ([RegexCompile]).  An exception in [loadOptions] leaves the module-level
    [config = Config()] and stops the program before any window is shown.

    Python's [getOption] returns either the string read from the file or
    the caller's default, whose type varies ([str], [list], [bool]): it is
    modelled as the sum [PyVal], and every operation the code applies to it
    is written out on each case, with the exception Python raises where the
    operation does not apply. *)

From Stdlib Require Import String Ascii List Arith ZArith Lia Bool.
From S2P Require Import Prelude WindowList.
Import ListNotations.
Local Open Scope nat_scope.

(** [re.compile]: a compiled pattern, or [None] for the [re.error] of a
    malformed one. *)
Class RegexCompile (P : Type) := re_compile : pystr -> option P.

Module Config.
Import WindowList.

(** ** Data *)

(** The values [getOption] returns. *)
Inductive PyVal : Type :=
| VStr (s : pystr)
| VList (l : list pystr)
| VBool (b : bool).

(** What configparser has read into [DEFAULT], in reading order. *)
Record ConfigFile : Type := mkConfigFile { options : list (pystr * pystr) }.

(** The attributes [loadOptions] sets. *)
Record Options (P : Type) : Type := mkOptions {
  hotkey : PyVal;
  settings : Settings P;
  default_icon_size : option nat   (** the argument of [Wnck.set_default_icon_size] *)
}.
Arguments mkOptions {P}.
Arguments hotkey {P}.
Arguments settings {P}.
Arguments default_icon_size {P}.

(** ** Options *)

(** [config.has_option('DEFAULT', name)] and [config.get('DEFAULT', name)]:
    the last value read for [name], as [config.get] returns it after
    interpolation. *)
Definition cp_get (c : ConfigFile) (name : pystr) : option pystr :=
  fold_left (fun acc kv => if pystr_eqb (fst kv) name then Some (snd kv) else acc)
    (options c) None.

(** [getOption] *)
Definition getOption (c : ConfigFile) (name : pystr) (default_value : PyVal) : PyVal :=
  match cp_get c name with
  | Some v => VStr v
  | None => default_value
  end.

(** [int(x)] on what [getOption] returns. *)
Definition py_int_of (v : PyVal) : Z + exn :=
  match v with
  | VBool b => inl (if b then 1 else 0)%Z
  | VStr s => match py_int_signed s with Some z => inl z | None => inr ValueError end
  | VList _ => inr TypeError
  end.

(** The dictionary [window_types] of [getIgnoredWindowTypes], in its order:
    the option suffix, the window type, the default of [show_windows_*]. *)
Definition window_types : list (pystr * WindowType * bool) :=
  [(str "normal", NORMAL, true); (str "desktop", DESKTOP, false);
   (str "dock", DOCK, false); (str "dialog", DIALOG, false);
   (str "toolbar", TOOLBAR, false); (str "menu", MENU, false);
   (str "utility", UTILITY, false); (str "splashscreen", SPLASHSCREEN, false)].

(** The body of the loop of [getIgnoredWindowTypes]: [should_show =
    bool(int(...))], then the append to [ignored_window_types]. *)
Definition ignore_type (c : ConfigFile) (t : pystr * WindowType * bool)
    : PyM (list WindowType) unit :=
  let '(name, ty, dflt) := t in
  n <- of_sum (py_int_of (getOption c (str "show_windows_" ++ name) (VBool dflt))) ;;
  if negb (Z.eqb n 0) then pret tt else pmodify (fun l => l ++ [ty]).

(** [getIgnoredWindowTypes] *)
Definition getIgnoredWindowTypes (c : ConfigFile) : list WindowType + exn :=
  match pfor window_types (ignore_type c) [] with
  | (inl _, l) => inl l
  | (inr e, _) => inr e
  end.

(** [get_icon_size]: [icon_size == 'default'] is false on a non-string, and
    [isdigit] is not a method of one.  A number is given to
    [Wnck.set_default_icon_size] and the size becomes ['default']; any other
    value falls off the end of the function, which returns [None]. *)
Definition get_icon_size (v : PyVal) : (IconSize * option nat) + exn :=
  match v with
  | VStr s =>
      if pystr_eqb s (str "default") then inl (IconDefault, None)
      else if pystr_eqb s (str "mini") then inl (IconMini, None)
      else if isdigit s then inl (IconDefault, py_int s)
      else inl (IconUnset, None)
  | _ => inr AttributeError
  end.

(** The options [loadOptions] reads. *)
Definition option_names : list pystr :=
  [str "hotkey"; str "ignored_windows"; str "always_show_windows"; str "icon_size"] ++
  map (fun t => str "show_windows_" ++ fst (fst t)) window_types.

Section Patterns.
Context {P : Type} `{RegexCompile P}.

(** [for i in range(0, len(windows)): windows[i] = re.compile(windows[i])] *)
Fixpoint compile_all (l : list pystr) : list P + exn :=
  match l with
  | [] => inl []
  | x :: l' =>
      match re_compile x with
      | None => inr ReError
      | Some p => ps <-? compile_all l' ;; inl (p :: ps)
      end
  end.

(** [splitAndCompileWindowRegexes]: a string from the file becomes
    [filter(None, windows.split("\n"))], a Python 3 [filter] object, and
    [len] of it raises [TypeError], as [len] of a [bool] does. *)
Definition splitAndCompileWindowRegexes (windows : PyVal) : list P + exn :=
  match windows with
  | VStr _ => inr TypeError
  | VList l => compile_all l
  | VBool _ => inr TypeError
  end.

(** [prepareIgnoredWindows] *)
Definition prepareIgnoredWindows (windows : PyVal) : list P + exn :=
  splitAndCompileWindowRegexes windows.

(** [prepareAlwaysShowWindows] *)
Definition prepareAlwaysShowWindows (windows : PyVal) : list P + exn :=
  splitAndCompileWindowRegexes windows.

(** [loadOptions], in the order of its assignments. *)
Definition loadOptions (c : ConfigFile) : Options P + exn :=
  let hk := getOption c (str "hotkey") (VStr (str "F10")) in
  ig <-? prepareIgnoredWindows (getOption c (str "ignored_windows") (VList [])) ;;
  al <-? prepareAlwaysShowWindows (getOption c (str "always_show_windows") (VList [])) ;;
  tys <-? getIgnoredWindowTypes c ;;
  isz <-? get_icon_size (getOption c (str "icon_size") (VStr (str "default"))) ;;
  inl (mkOptions hk (mkSettings ig al tys (fst isz)) (snd isz)).

End Patterns.

(** ** Specification views *)

(** Whether [getIgnoredWindowTypes] shows the windows of an entry of
    [window_types]: [bool(int(option))], [None] when [int] raises. *)
Definition shown_by (c : ConfigFile) (t : pystr * WindowType * bool) : option bool :=
  match py_int_of (getOption c (str "show_windows_" ++ fst (fst t)) (VBool (snd t))) with
  | inl n => Some (negb (Z.eqb n 0))
  | inr _ => None
  end.

Definition parses (c : ConfigFile) (t : pystr * WindowType * bool) : bool :=
  match shown_by c t with Some _ => true | None => false end.

Definition hidden_by (c : ConfigFile) (t : pystr * WindowType * bool) : bool :=
  match shown_by c t with Some false => true | _ => false end.

(** ** Sample files *)

Module Sample.
(** Patterns are kept as their source; a pattern matches a title equal to it. *)
#[export] Instance compile_source : RegexCompile pystr := fun s => Some s.
#[export] Instance search_equal : RegexSearch pystr := fun p s => pystr_eqb p s.
(** No file. *)
Definition empty : ConfigFile := mkConfigFile [].
(** An ignored title. *)
Definition ignoring : ConfigFile := mkConfigFile [(str "ignored_windows", str "xfce4-panel")].
(** A size that is neither a keyword nor a number, and docks shown. *)
Definition large : ConfigFile :=
  mkConfigFile [(str "icon_size", str "large"); (str "show_windows_dock", str "1")].
End Sample.

(** * Properties *)

Lemma getOption_set c name v d : cp_get c name = Some v -> getOption c name d = VStr v.
Proof. unfold getOption. intros ->. reflexivity. Qed.

Lemma getOption_unset c name d : cp_get c name = None -> getOption c name d = d.
Proof. unfold getOption. intros ->. reflexivity. Qed.

(** [int] on an option read with a [bool] default raises only [ValueError]. *)
Lemma py_int_of_bool_default c name d :
  py_int_of (getOption c name (VBool d)) = inr ValueError \/
  exists n, py_int_of (getOption c name (VBool d)) = inl n.
Proof.
  unfold getOption. destruct (cp_get c name) as [v|]; cbn [py_int_of]; [|right; eexists; reflexivity].
  destruct (py_int_signed v); [right; eexists; reflexivity|left; reflexivity].
Qed.

Lemma ignore_type_step c t acc :
  ignore_type c t acc =
  match shown_by c t with
  | Some true => (inl tt, acc)
  | Some false => (inl tt, acc ++ [snd (fst t)])
  | None => (inr ValueError, acc)
  end.
Proof.
  destruct t as [[name ty] dflt]. unfold ignore_type, shown_by, pbind, of_sum. cbn [fst snd].
  destruct (py_int_of_bool_default c (str "show_windows_" ++ name) dflt) as [E|[n E]];
    rewrite E; [reflexivity|]. unfold pret, pmodify. cbv beta iota zeta.
  destruct (negb (n =? 0)%Z); reflexivity.
Qed.

(** The loop of [getIgnoredWindowTypes] on any list of entries. *)
Lemma pfor_ignore_type c l acc :
  (forallb (parses c) l = true ->
   pfor l (ignore_type c) acc =
     (inl tt, acc ++ map (fun t => snd (fst t)) (filter (hidden_by c) l))) /\
  (forallb (parses c) l = false ->
   exists acc', pfor l (ignore_type c) acc = (inr ValueError, acc')).
Proof.
  revert acc. induction l as [|t l IH]; intros acc; cbn [forallb pfor filter map].
  - split; [intros _; rewrite app_nil_r; reflexivity|discriminate].
  - unfold pbind. rewrite ignore_type_step.
    change (parses c t) with (match shown_by c t with Some _ => true | None => false end).
    change (hidden_by c t) with (match shown_by c t with Some false => true | _ => false end).
    destruct (shown_by c t) as [[|]|]; cbn [andb].
    + exact (IH acc).
    + destruct (IH (acc ++ [snd (fst t)])) as [IH1 IH2]. rewrite <- app_assoc in IH1.
      split; [exact IH1|exact IH2].
    + split; [discriminate|intros _; exists acc; reflexivity].
Qed.

(** C30: [getIgnoredWindowTypes] returns, in the order of its dictionary,
    the window types whose [show_windows_*] option is zero (unset, the
    normal windows are shown and the seven other types ignored), and raises
    [ValueError] as soon as one option is not an integer. *)
Theorem getIgnoredWindowTypes_spec c :
  getIgnoredWindowTypes c =
  if forallb (parses c) window_types
  then inl (map (fun t => snd (fst t)) (filter (hidden_by c) window_types))
  else inr ValueError.
Proof.
  unfold getIgnoredWindowTypes. destruct (pfor_ignore_type c window_types []) as [H1 H2].
  destruct (forallb (parses c) window_types).
  - rewrite (H1 eq_refl). reflexivity.
  - destruct (H2 eq_refl) as (acc & ->). reflexivity.
Qed.

Lemma In_option_names name : mem pystr_eqb name option_names = true -> In name option_names.
Proof. apply (mem_In pystr_eqb pystr_eqb_spec). Qed.

Section Loaded.
Context {P : Type} `{RegexCompile P} `{RegexSearch P}.

(** C31: a configuration that sets none of the options gives the hotkey
    F10, no title patterns, the seven non-normal window types ignored, and
    the default icons. *)
Theorem loadOptions_defaults c :
  (forall name, In name option_names -> cp_get c name = None) ->
  loadOptions c = inl (mkOptions (VStr (str "F10"))
    (mkSettings (P := P) [] [] [DESKTOP; DOCK; DIALOG; TOOLBAR; MENU; UTILITY; SPLASHSCREEN]
       IconDefault) None).
Proof.
  intros Hn.
  assert (Hg : forall name d, In name option_names -> getOption c name d = d)
    by (intros name d Hin; apply getOption_unset, Hn, Hin).
  assert (Hs : forall t, In t window_types -> shown_by c t = Some (snd t)).
  { intros t Ht. unfold shown_by. rewrite Hg; [destruct (snd t); reflexivity|].
    unfold option_names. apply in_or_app. right.
    exact (in_map (fun t => str "show_windows_" ++ fst (fst t)) _ _ Ht). }
  assert (Hp : forallb (parses c) window_types = true)
    by (apply forallb_forall; intros t Ht; unfold parses; rewrite (Hs t Ht); reflexivity).
  assert (Hf : filter (hidden_by c) window_types = filter (fun t => negb (snd t)) window_types)
    by (apply filter_ext_in; intros t Ht; unfold hidden_by; rewrite (Hs t Ht);
        destruct (snd t); reflexivity).
  unfold loadOptions.
  rewrite !Hg by (apply In_option_names; reflexivity).
  unfold getIgnoredWindowTypes. rewrite (proj1 (pfor_ignore_type c window_types []) Hp), Hf.
  reflexivity.
Qed.

(** [loadOptions] once the title options are read. *)
Lemma loadOptions_titles c :
  loadOptions (P := P) c =
  match cp_get c (str "ignored_windows"), cp_get c (str "always_show_windows") with
  | None, None =>
      tys <-? getIgnoredWindowTypes c ;;
      isz <-? get_icon_size (getOption c (str "icon_size") (VStr (str "default"))) ;;
      inl (mkOptions (getOption c (str "hotkey") (VStr (str "F10")))
             (mkSettings [] [] tys (fst isz)) (snd isz))
  | _, _ => inr TypeError
  end.
Proof.
  unfold loadOptions.
  destruct (cp_get c (str "ignored_windows")) eqn:E1, (cp_get c (str "always_show_windows")) eqn:E2;
    rewrite ?(getOption_set _ _ _ _ E1), ?(getOption_unset _ _ _ E1),
      ?(getOption_set _ _ _ _ E2), ?(getOption_unset _ _ _ E2); reflexivity.
Qed.

(** A configuration with a title pattern does not load. *)
Lemma loadOptions_titles_error c :
  cp_get c (str "ignored_windows") <> None \/ cp_get c (str "always_show_windows") <> None ->
  loadOptions (P := P) c = inr TypeError.
Proof.
  intros Hset. rewrite loadOptions_titles.
  destruct (cp_get c (str "ignored_windows")), (cp_get c (str "always_show_windows"));
    [reflexivity..|destruct Hset; congruence].
Qed.

(** C18: setting [ignored_windows] or [always_show_windows] in the
    configuration file makes [loadOptions] raise [TypeError]
    ([len] of a [filter] object), so the program stops at startup. *)
Theorem title_patterns_crash c :
  cp_get c (str "ignored_windows") <> None \/ cp_get c (str "always_show_windows") <> None ->
  loadOptions (P := P) c = inr TypeError.
Proof. apply loadOptions_titles_error. Qed.

(** The settings of a configuration that loads. *)
Lemma loaded_settings c (o : Options P) :
  loadOptions c = inl o ->
  exists tys isz, getIgnoredWindowTypes c = inl tys /\
    get_icon_size (getOption c (str "icon_size") (VStr (str "default"))) = inl isz /\
    o = mkOptions (getOption c (str "hotkey") (VStr (str "F10")))
          (mkSettings [] [] tys (fst isz)) (snd isz).
Proof.
  rewrite loadOptions_titles.
  destruct (cp_get c (str "ignored_windows")), (cp_get c (str "always_show_windows"));
    try discriminate.
  destruct (getIgnoredWindowTypes c) as [tys|e]; [|discriminate]. cbn [rbind].
  destruct (get_icon_size _) as [isz|e]; [|discriminate]. cbn [rbind].
  intros E. injection E as <-. exists tys, isz. auto.
Qed.

(** C20: in a running program the window filter of [WindowList] looks at
    the window types only: no configuration that loads has a title
    pattern, so [isWindowIgnored] and [isWindowAlwaysShown] are always
    false. *)
Theorem loaded_filter_by_type c (o : Options P) :
  loadOptions c = inl o ->
  ignored_windows (settings o) = [] /\ always_show_windows (settings o) = [] /\
  forall w, keep (settings o) w =
            negb (mem WindowType_eqb (w_type w) (ignored_window_types (settings o))).
Proof.
  intros E. destruct (loaded_settings c o E) as (tys & isz & _ & _ & ->). cbn [settings].
  split; [reflexivity|split; [reflexivity|]].
  intros w. unfold keep, isWindowAlwaysShown, isWindowIgnored. cbn [existsb ignored_windows
    always_show_windows ignored_window_types].
  destruct (mem WindowType_eqb (w_type w) tys); reflexivity.
Qed.

(** C38: an [icon_size] that is neither [default], [mini] nor a number is
    accepted without error and leaves every window without an icon. *)
Theorem invalid_icon_size_hides_icons c (o : Options P) s :
  loadOptions c = inl o -> cp_get c (str "icon_size") = Some s ->
  pystr_eqb s (str "default") = false -> pystr_eqb s (str "mini") = false -> isdigit s = false ->
  icon_size (settings o) = IconUnset /\ forall w, get_icon (settings o) w = None.
Proof.
  intros E Hs H1 H2 H3. destruct (loaded_settings c o E) as (tys & isz & _ & Hi & ->).
  rewrite (getOption_set _ _ _ _ Hs) in Hi. cbn [get_icon_size] in Hi.
  rewrite H1, H2, H3 in Hi. injection Hi as <-. split; reflexivity.
Qed.

End Loaded.

(** ** Witnesses *)

Definition loaded_large : Options pystr :=
  mkOptions (VStr (str "F10"))
    (mkSettings [] [] [DESKTOP; DIALOG; TOOLBAR; MENU; UTILITY; SPLASHSCREEN] IconUnset) None.

Lemma loadOptions_defaults_witness :
  (forall name, In name option_names -> cp_get Sample.empty name = None) /\
  @loadOptions pystr Sample.compile_source Sample.empty =
    inl (mkOptions (VStr (str "F10"))
      (mkSettings [] [] [DESKTOP; DOCK; DIALOG; TOOLBAR; MENU; UTILITY; SPLASHSCREEN]
         IconDefault) None).
Proof.
  assert (H : forall name, In name option_names -> cp_get Sample.empty name = None)
    by (intros name _; reflexivity).
  split; [exact H|exact (@loadOptions_defaults pystr Sample.compile_source
                           Sample.empty H)].
Defined.

Lemma title_patterns_crash_witness :
  (cp_get Sample.ignoring (str "ignored_windows") <> None \/
   cp_get Sample.ignoring (str "always_show_windows") <> None) /\
  @loadOptions pystr Sample.compile_source Sample.ignoring = inr TypeError.
Proof.
  assert (H : cp_get Sample.ignoring (str "ignored_windows") <> None \/
              cp_get Sample.ignoring (str "always_show_windows") <> None)
    by (left; vm_compute; discriminate).
  split; [exact H|exact (@title_patterns_crash pystr Sample.compile_source
                           Sample.ignoring H)].
Defined.

Lemma loaded_filter_by_type_witness :
  @loadOptions pystr Sample.compile_source Sample.large = inl loaded_large /\
  (ignored_windows (settings loaded_large) = [] /\ always_show_windows (settings loaded_large) = [] /\
   forall w, @keep pystr Sample.search_equal (settings loaded_large) w =
             negb (mem WindowType_eqb (w_type w) (ignored_window_types (settings loaded_large)))).
Proof.
  assert (H : @loadOptions pystr Sample.compile_source Sample.large = inl loaded_large)
    by (vm_compute; reflexivity).
  split; [exact H|exact (@loaded_filter_by_type pystr Sample.compile_source Sample.search_equal
                           Sample.large loaded_large H)].
Defined.

Lemma invalid_icon_size_hides_icons_witness :
  @loadOptions pystr Sample.compile_source Sample.large = inl loaded_large /\
  cp_get Sample.large (str "icon_size") = Some (str "large") /\
  pystr_eqb (str "large") (str "default") = false /\ pystr_eqb (str "large") (str "mini") = false /\
  isdigit (str "large") = false /\
  (icon_size (settings loaded_large) = IconUnset /\
   forall w, get_icon (settings loaded_large) w = None).
Proof.
  assert (H : @loadOptions pystr Sample.compile_source Sample.large = inl loaded_large)
    by (vm_compute; reflexivity).
  assert (Hs : cp_get Sample.large (str "icon_size") = Some (str "large")) by reflexivity.
  assert (H1 : pystr_eqb (str "large") (str "default") = false) by reflexivity.
  assert (H2 : pystr_eqb (str "large") (str "mini") = false) by reflexivity.
  assert (H3 : isdigit (str "large") = false) by reflexivity.
  do 5 (split; [assumption|]).
  exact (@invalid_icon_size_hides_icons pystr Sample.compile_source
           Sample.large loaded_large _ H Hs H1 H2 H3).
Defined.

End Config.
