(* ===== verification/Nimbler.v ===== *)
(** * Nimbler: the controller window ([src/nimbler.py], lines 210-467)

    [NimblerWindow] owns the visibility flag, the [WindowList], the table of
    buttons built by [populate], the frame that displays a table (one child
    at a time, [FrameChild]), the query entry, and the counters
    [populate] leaves behind ([window_counter], [num_workspaces]).  Its
    callbacks are modelled as methods in the [PyM] monad over the controller
    state: a Python exception inside a GTK callback stops the callback and
    keeps what it had already changed, which is what PyGObject does.
    libwnck is an environment: the screen [refresh] reads and the X server
    time, which may change between two events; the requests sent to the
    window manager ([activate], [close]) are appended to a command log.

    The event loop is the relation [step] over the events GTK can deliver
    in a state (keys and clicks only while the overlay is shown, text only
    while the entry has the focus); [reachable] is its closure from the
    state [__init__] builds.  Module [Session] is a concrete run on the
    screen of [WindowList.Demo].

    The theorems: [populate] and [toggle] are characterised on every branch
    (success with at most 93 windows, [IndexError] beyond, [ValueError] of
    [refresh]); each key and button is characterised by the requests it
    sends; every callback preserves [shown_inv], hence every reachable
    state satisfies it, and no callback on a shown overlay raises while the
    frame shows the current table, which it always does in runs whose
    shows fit the alphabet; a show stopped by more than 93 windows freezes
    its table in the frame, and its buttons past the current windows
    raise; in every reachable state the button labels follow the grid
    while the keys follow the re-ranked flat list.  The concrete sessions
    exhibit each of these. *)

From Stdlib Require Import String Ascii List Arith ZArith Lia Bool NArith QArith Permutation
  Relation_Operators.
From S2P Require Import Prelude FuzzyMatcher KeyBindings WindowList.
Import ListNotations.
Local Open Scope nat_scope.

Module Nimbler.
Import KeyBindings WindowList.

(** ** Data *)

(** What [populate] attaches to the table. *)
Inductive Widget : Type :=
| WorkspaceButton (name : pystr)               (** named ['F' + str(i + 1)] *)
| BindingLabel (markup : option ascii)         (** the key printed next to a window *)
| WindowButton (name : ascii) (entry : nat)    (** named after its key; shows a dictionary *)
| EntryBox.                                    (** the query entry *)

(** The child of [self.frame], a [Gtk.Frame], which holds one widget: none,
    the table [self.table] names (whose children are [table]), or an older
    table, whose children no longer change once [self.table] names another
    one. *)
Inductive FrameChild : Type :=
| FrameEmpty
| FrameCurrent
| FrameStale (children : list Widget).

(** The requests the program sends to libwnck, and its one print. *)
Inductive Command : Type :=
| ActivateWorkspace (ws : workspace_id) (time : Z)
| ActivateWindow (w : window_id) (time : Z)
| CloseWindow (w : window_id) (time : Z)
| PrintEnter.

(** The world outside the program at the time of an event. *)
Record Env : Type := mkEnv {
  screen : Screen;
  server_time : option Z      (** [None]: [x11_get_server_time] raised *)
}.

(** The attributes of a [NimblerWindow]. *)
Record Nimbler (M : Type) : Type := mkNimbler {
  hidden : bool;
  wlist : WindowList M;            (** [self.windowList] *)
  window_counter : nat;
  num_workspaces : nat;
  nw_max_windows : nat;            (** [self.max_windows] *)
  nw_workspaces : nat;             (** [self.workspaces], a count *)
  table : list Widget;             (** the children of [self.table] *)
  frame : FrameChild;              (** the child of [self.frame] *)
  entry_shown : bool;
  entry_focus : bool;
  entry_text : pystr;
  log : list Command
}.
Arguments mkNimbler {M}.
Arguments hidden {M}.
Arguments wlist {M}.
Arguments window_counter {M}.
Arguments num_workspaces {M}.
Arguments nw_max_windows {M}.
Arguments nw_workspaces {M}.
Arguments table {M}.
Arguments frame {M}.
Arguments entry_shown {M}.
Arguments entry_focus {M}.
Arguments entry_text {M}.
Arguments log {M}.

(** The events of the GTK main loop. *)
Inductive Event : Type :=
| Hotkey                                     (** the global hotkey *)
| KeyPress (kv : keyval) (ctrl : bool)       (** ["key-press-event"] *)
| EntryChanged (text : pystr)                (** the entry's ["changed"] *)
| ClickWindowButton (name : ascii)
| ClickWorkspaceButton (name : pystr)
| FocusGrid.                                 (** the focus leaves the entry *)

Section Controller.
Context {P : Type} `{RegexSearch P} {M : Type} `{Matcher M}.
Variable cfg : Settings P.

(** ** Field updates *)

Definition set_hidden (b : bool) (s : Nimbler M) : Nimbler M :=
  mkNimbler b (wlist s) (window_counter s) (num_workspaces s) (nw_max_windows s)
    (nw_workspaces s) (table s) (frame s) (entry_shown s) (entry_focus s) (entry_text s) (log s).

Definition set_wlist (w : WindowList M) (s : Nimbler M) : Nimbler M :=
  mkNimbler (hidden s) w (window_counter s) (num_workspaces s) (nw_max_windows s)
    (nw_workspaces s) (table s) (frame s) (entry_shown s) (entry_focus s) (entry_text s) (log s).

Definition set_counters (c nws : nat) (s : Nimbler M) : Nimbler M :=
  mkNimbler (hidden s) (wlist s) c nws (nw_max_windows s)
    (nw_workspaces s) (table s) (frame s) (entry_shown s) (entry_focus s) (entry_text s) (log s).

Definition set_layout (mx wss : nat) (s : Nimbler M) : Nimbler M :=
  mkNimbler (hidden s) (wlist s) (window_counter s) (num_workspaces s) mx wss
    (table s) (frame s) (entry_shown s) (entry_focus s) (entry_text s) (log s).

Definition set_table (t : list Widget) (s : Nimbler M) : Nimbler M :=
  mkNimbler (hidden s) (wlist s) (window_counter s) (num_workspaces s) (nw_max_windows s)
    (nw_workspaces s) t (frame s) (entry_shown s) (entry_focus s) (entry_text s) (log s).

Definition set_entry (shown focus : bool) (text : pystr) (s : Nimbler M) : Nimbler M :=
  mkNimbler (hidden s) (wlist s) (window_counter s) (num_workspaces s) (nw_max_windows s)
    (nw_workspaces s) (table s) (frame s) shown focus text (log s).

Definition set_log (l : list Command) (s : Nimbler M) : Nimbler M :=
  mkNimbler (hidden s) (wlist s) (window_counter s) (num_workspaces s) (nw_max_windows s)
    (nw_workspaces s) (table s) (frame s) (entry_shown s) (entry_focus s) (entry_text s) l.

Definition set_frame (f : FrameChild) (s : Nimbler M) : Nimbler M :=
  mkNimbler (hidden s) (wlist s) (window_counter s) (num_workspaces s) (nw_max_windows s)
    (nw_workspaces s) (table s) f (entry_shown s) (entry_focus s) (entry_text s) (log s).

(** A [WindowList] method run on [self.windowList]. *)
Definition lift {A} (m : PyM (WindowList M) A) : PyM (Nimbler M) A :=
  fun s => let '(r, w) := m (wlist s) in (r, set_wlist w s).

(** [self.table.attach(widget, ...)] *)
Definition attach (x : Widget) : PyM (Nimbler M) unit :=
  pmodify (fun s => set_table (table s ++ [x]) s).

(** A request to libwnck. *)
Definition emit (c : Command) : PyM (Nimbler M) unit :=
  pmodify (fun s => set_log (log s ++ [c]) s).

(** [getXTime] *)
Definition getXTime (env : Env) : Z :=
  match server_time env with Some t => t | None => 0%Z end.

(** [window.get_workspace()], asked of libwnck when the window is presented. *)
Definition window_workspace (sc : Screen) (w : window_id) : option workspace_id :=
  match find (fun x => Nat.eqb (w_id x) w) (sc_windows sc) with
  | Some x => w_workspace x
  | None => None
  end.

(** ** populate *)

(** The inner loop body of [populate] for the dictionary [id]: the key is
    read before the bound is checked. *)
Definition populate_window (id : nat) : PyM (Nimbler M) unit :=
  s <- pget ;;
  binding <- of_option IndexError (nth_error numbering (window_counter s)) ;;
  attach (BindingLabel (if window_counter s <? length numbering then Some binding else None)) ;;
  attach (WindowButton binding id) ;;
  pmodify (fun s => set_counters (S (window_counter s)) (num_workspaces s) s).

(** ['F' + str(i_label)] with [i_label = i + 1]. *)
Definition ws_label (i : nat) : pystr := "F"%char :: str_of_nat (i + 1).

(** The outer loop body of [populate] for group [i]. *)
Definition populate_workspace (groups : list (list nat)) (i : nat) : PyM (Nimbler M) unit :=
  attach (WorkspaceButton (ws_label i)) ;;
  pfor (nth i groups []) populate_window.

(** [populate] *)
Definition populate : PyM (Nimbler M) unit :=
  s <- pget ;;
  let groups := windowList (wlist s) in
  pput (set_counters 0 (length groups) s) ;;
  pfor (seq 0 (length groups)) (populate_workspace groups).

(** ** toggle and the actions *)

(** [self.frame.add(self.table)] with a new table: a [Gtk.Frame] holds one
    child, so the new table goes in only when the frame is empty; otherwise
    GTK warns and the frame keeps its child, which stops changing once
    [self.table] names the new table. *)
Definition frame_add (s : Nimbler M) : Nimbler M :=
  set_frame (match frame s with
             | FrameEmpty => FrameCurrent
             | FrameCurrent => FrameStale (table s)
             | FrameStale w => FrameStale w
             end) s.

(** [self.table.destroy()]: the table leaves the frame when it is its
    child. *)
Definition destroy_table (s : Nimbler M) : Nimbler M :=
  set_table [] (set_frame (match frame s with FrameCurrent => FrameEmpty | f => f end) s).

(** [toggle] *)
Definition toggle (env : Env) : PyM (Nimbler M) unit :=
  s <- pget ;;
  if hidden s then
    lift (refresh cfg (screen env)) ;;
    s <- pget ;;
    pput (set_layout (get_max_windows (wlist s)) (length (get (wlist s))) s) ;;
    pmodify frame_add ;;
    pmodify (set_table [EntryBox]) ;;
    pmodify (set_entry false false []) ;;
    populate ;;
    pmodify (set_hidden false)
  else
    pmodify (set_hidden true) ;;
    pmodify destroy_table ;;
    pmodify (fun s => set_entry false false (entry_text s) s).

(** [activate_workspace] *)
Definition activate_workspace (env : Env) (label : pystr) : PyM (Nimbler M) unit :=
  n <- of_option ValueError (py_int (keep_digits label)) ;;
  toggle env ;;
  s <- pget ;;
  ws <- of_option IndexError (py_getitem (workspaces (wlist s)) (Z.of_nat n - 1)) ;;
  emit (ActivateWorkspace ws (getXTime env)).

(** [activate_workspace_via_button] *)
Definition activate_workspace_via_button (env : Env) (name : pystr) : PyM (Nimbler M) unit :=
  activate_workspace env name.

(** [self.windowList.window_list_merged[n]['window']] *)
Definition merged_window (n : nat) : PyM (Nimbler M) window_id :=
  s <- pget ;;
  i <- of_option IndexError (nth_error (window_list_merged (wlist s)) n) ;;
  e <- of_option IndexError (nth_error (store (wlist s)) i) ;;
  pret (window e).

(** [presentWindow] *)
Definition presentWindow (env : Env) (w : window_id) : PyM (Nimbler M) unit :=
  match window_workspace (screen env) w with
  | Some ws => emit (ActivateWorkspace ws (getXTime env))
  | None => pret tt
  end ;;
  emit (ActivateWindow w (getXTime env)).

(** [close_window_via_number] *)
Definition close_window_via_number (env : Env) (n : nat) : PyM (Nimbler M) unit :=
  toggle env ;;
  w <- merged_window n ;;
  emit (CloseWindow w (getXTime env)).

(** [present_window_via_number] *)
Definition present_window_via_number (env : Env) (n : nat) : PyM (Nimbler M) unit :=
  toggle env ;;
  w <- merged_window n ;;
  presentWindow env w.

(** [present_window_via_button] *)
Definition present_window_via_button (env : Env) (name : ascii) : PyM (Nimbler M) unit :=
  n <- of_option ValueError (index_of Ascii.eqb name numbering) ;;
  present_window_via_number env n.

(** [presentHighestRanked]: [highestRanked['window']] indexes a list with a
    string. *)
Definition presentHighestRanked : PyM (Nimbler M) unit :=
  s <- pget ;;
  match getHighestRanked (wlist s) with
  | Some _ => raise TypeError
  | None => pret tt
  end.

(** [presentManual]: [windows[index]] is a workspace's list, which
    [['window']] cannot index. *)
Definition presentManual (env : Env) (indices : list nat) : PyM (Nimbler M) unit :=
  match indices with
  | [] => pret tt
  | index :: _ =>
      s <- pget ;;
      if index <? length (windowList (wlist s)) then toggle env ;; raise TypeError
      else pret tt
  end.

(** [enteredNameChanged] *)
Definition enteredNameChanged (text : pystr) : PyM (Nimbler M) unit :=
  match text with
  | [] => pret tt
  | _ => lift (rank text) ;; populate
  end.

(** [self.enteredName.grab_focus()] gives the focus to the entry only when
    it is in the window, that is in the table the frame shows. *)
Definition entry_displayed (s : Nimbler M) : bool :=
  match frame s with FrameCurrent => true | _ => false end.

(** [keypress]; the result is the handler's return value ([True] stops the
    key from reaching the entry). *)
Definition keypress (env : Env) (kv0 : keyval) (ctrl : bool) : PyM (Nimbler M) bool :=
  let kv := normalize_keyval kv0 in
  s <- pget ;;
  if N.eqb kv KEY_Escape then toggle env ;; pret false
  else if mem N.eqb kv (firstn (num_workspaces s) get_keyvals_from_name) then
    i <- of_option ValueError (index_of N.eqb kv get_keyvals_from_name) ;;
    name <- of_option IndexError (nth_error function_keys i) ;;
    activate_workspace env (list_ascii_of_string name) ;;
    pret false
  else if negb (entry_focus s) then
    if mem N.eqb kv (firstn (window_counter s) get_keyvals_from_unicode) then
      i <- of_option ValueError (index_of N.eqb kv get_keyvals_from_unicode) ;;
      (if ctrl then close_window_via_number env i else present_window_via_number env i) ;;
      pret false
    else if N.eqb kv KEY_colon then
      pmodify (fun s => set_entry true (entry_displayed s) (entry_text s) s) ;;
      pret true
    else pret false
  else if N.eqb kv KEY_Return then emit PrintEnter ;; pret false
  else pret false.

(** [NimblerWindow.__init__]: the window starts hidden, after a first
    [getLatest]. *)
Definition nimbler_init (env : Env) : (unit + exn) * Nimbler M :=
  let '(r, w) := getLatest cfg (screen env) init in
  (match r with inl _ => inl tt | inr e => inr e end,
   mkNimbler true w 0 0 0 0 [] FrameEmpty false false [] []).

(** ** The event loop *)

(** One callback, run to its end or to its exception; its return value is
    dropped (only [keypress]'s goes back to GTK). *)
Definition run (env : Env) (ev : Event) (s : Nimbler M) : (unit + exn) * Nimbler M :=
  match ev with
  | Hotkey => toggle env s
  | KeyPress kv ctrl =>
      let '(r, s') := keypress env kv ctrl s in
      (match r with inl _ => inl tt | inr e => inr e end, s')
  | EntryChanged text => enteredNameChanged text (set_entry (entry_shown s) (entry_focus s) text s)
  | ClickWindowButton name => present_window_via_button env name s
  | ClickWorkspaceButton name => activate_workspace_via_button env name s
  | FocusGrid => (inl tt, set_entry (entry_shown s) false (entry_text s) s)
  end.

(** The state after a callback: GTK reports an exception and goes on. *)
Definition handle (env : Env) (ev : Event) (s : Nimbler M) : Nimbler M := snd (run env ev s).

(** The children of the table the window shows. *)
Definition displayed (s : Nimbler M) : list Widget :=
  match frame s with
  | FrameEmpty => []
  | FrameCurrent => table s
  | FrameStale w => w
  end.

(** The events GTK can deliver in a state: buttons are clicked in the table
    the window shows. *)
Definition deliverable (ev : Event) (s : Nimbler M) : Prop :=
  match ev with
  | Hotkey => True
  | KeyPress _ _ | FocusGrid => hidden s = false
  | EntryChanged _ => hidden s = false /\ entry_shown s = true /\ entry_focus s = true
  | ClickWindowButton name => hidden s = false /\ exists id, In (WindowButton name id) (displayed s)
  | ClickWorkspaceButton name => hidden s = false /\ In (WorkspaceButton name) (displayed s)
  end.

Inductive step : Nimbler M -> Nimbler M -> Prop :=
| step_event env ev s : deliverable ev s -> step s (handle env ev s).

(** The states of a running program: [__init__] succeeded, then any
    sequence of deliverable events, in any environment. *)
Inductive reachable : Nimbler M -> Prop :=
| reach_init env s : nimbler_init env = (inl tt, s) -> reachable s
| reach_step s s' : reachable s -> step s s' -> reachable s'.

(** ** Specification-level views of the state *)

(** The window buttons of the table, as (name, dictionary) pairs. *)
Fixpoint window_buttons (t : list Widget) : list (ascii * nat) :=
  match t with
  | [] => []
  | WindowButton c id :: t' => (c, id) :: window_buttons t'
  | _ :: t' => window_buttons t'
  end.

(** The names of the workspace buttons of the table. *)
Fixpoint workspace_buttons (t : list Widget) : list pystr :=
  match t with
  | [] => []
  | WorkspaceButton l :: t' => l :: workspace_buttons t'
  | _ :: t' => workspace_buttons t'
  end.

(** The attributes [populate] does not touch. *)
Definition pop_frame (s s' : Nimbler M) : Prop :=
  hidden s' = hidden s /\ wlist s' = wlist s /\ nw_max_windows s' = nw_max_windows s /\
  nw_workspaces s' = nw_workspaces s /\ entry_shown s' = entry_shown s /\
  entry_focus s' = entry_focus s /\ entry_text s' = entry_text s /\ log s' = log s /\
  frame s' = frame s.

(** The state [toggle] leaves when it hides the overlay. *)
Definition hide_state (s : Nimbler M) : Nimbler M :=
  set_entry false false (entry_text s) (destroy_table (set_hidden true s)).

(** The state [toggle] hands to [populate] after a successful [refresh]. *)
Definition show_start (w : WindowList M) (s : Nimbler M) : Nimbler M :=
  set_entry false false [] (set_table [EntryBox]
    (frame_add (set_layout (max_windows w) (length (windowList w)) (set_wlist w s)))).

(** The requests of [presentWindow]. *)
Definition present_cmds (env : Env) (w : window_id) : list Command :=
  match window_workspace (screen env) w with
  | Some ws => [ActivateWorkspace ws (getXTime env)]
  | None => []
  end ++ [ActivateWindow w (getXTime env)].

(** What holds of a shown overlay: the counters [populate] left describe
    the snapshot, the flat list is a permutation of the grid and refers to
    dictionaries of the store, and every button of the table names a key
    or a workspace that is in range. *)
Definition shown_inv (s : Nimbler M) : Prop :=
  hidden s = false ->
  let w := wlist s in
  window_counter s = length (window_list_merged w) /\
  window_counter s <= length numbering /\
  Permutation (window_list_merged w) (concat (windowList w)) /\
  (forall i, In i (window_list_merged w) -> i < length (store w)) /\
  num_workspaces s = length (windowList w) /\
  length (windowList w) = length (workspaces w) /\
  (forall c id, In (c, id) (window_buttons (table s)) ->
     exists k, k < window_counter s /\ nth_error numbering k = Some c) /\
  (forall l, In l (workspace_buttons (table s)) ->
     exists i, i < num_workspaces s /\ l = ws_label i).

(** The window shows the table [self.table] names exactly while the
    overlay is shown, and no table while it is hidden. *)
Definition frame_in_step (s : Nimbler M) : Prop :=
  frame s = if hidden s then FrameEmpty else FrameCurrent.

(** A screen on which [toggle] does not stop in [populate]: [refresh]
    rejects it, or it has at most 93 windows to show. *)
Definition show_fits (env : Env) : Prop :=
  refresh_ok cfg (screen env) = false \/
  length (filter (keep cfg) (sc_windows (screen env))) <= length numbering.

(** The states of the runs in which no [toggle] meets a screen that does
    not fit. *)
Inductive reachable_fit : Nimbler M -> Prop :=
| fit_init env s : nimbler_init env = (inl tt, s) -> reachable_fit s
| fit_step env ev s : reachable_fit s -> deliverable ev s -> show_fits env ->
    reachable_fit (handle env ev s).

(** Every window button of the table of a shown overlay carries the key of
    its position in the grid: the [k]-th key labels the [k]-th dictionary
    of [concat self.windowList.windowList]. *)
Definition labels_follow_grid (s : Nimbler M) : Prop :=
  hidden s = false ->
  forall c id, In (c, id) (window_buttons (table s)) ->
    exists k, nth_error numbering k = Some c /\
              nth_error (concat (windowList (wlist s))) k = Some id.

(** The states after a show stopped by the 94th window: hidden with the
    stopped table in the frame, or with that table frozen in the frame. *)
Definition frozen_by (T : list Widget) (a : Nimbler M) : Prop :=
  (hidden a = true /\ frame a = FrameCurrent /\ table a = T) \/ frame a = FrameStale T.

End Controller.

(** ** A concrete session

    The screen of [WindowList.Demo] (Firefox on the first workspace, GIMP
    on the second, Files on every workspace, a dock), the X server time
    42, and a screen of 94 windows on one workspace. *)
Module Session.
Definition env : Env := mkEnv Demo.screen (Some 42%Z).
Definition s0 : Nimbler FuzzyMatcher.FuzzyMatcher := snd (nimbler_init Demo.cfg env).
Definition next (ev : Event) (s : Nimbler FuzzyMatcher.FuzzyMatcher)
    : Nimbler FuzzyMatcher.FuzzyMatcher :=
  handle Demo.cfg env ev s.
(** The overlay shown. *)
Definition s1 := next Hotkey s0.
(** The entry opened and focused. *)
Definition s2 := next (KeyPress KEY_colon false) s1.
(** The query ["fi"] typed, then the focus back on the grid. *)
Definition s3 := next (EntryChanged (str "fi")) s2.
Definition s4 := next FocusGrid s3.
Definition key (c : ascii) : keyval := unicode_to_keyval (N_of_ascii c).
Definition crowd : list Window :=
  map (fun i => mkWindow i (str "w") (Some 10) NORMAL None 0 0) (seq 0 94).
Definition env_crowd : Env := mkEnv (mkScreen [10] (Some 10) None crowd) None.
(** A show that stops at the 94th window of the crowd, then a show of the
    demonstration screen, which the window displays in the first table. *)
Definition c1 := handle Demo.cfg env_crowd Hotkey s0.
Definition c2 := next Hotkey c1.
End Session.

(** ** populate *)

Section PopulateLemmas.
Context {M : Type}.

Lemma window_buttons_app t1 t2 :
  window_buttons (t1 ++ t2) = window_buttons t1 ++ window_buttons t2.
Proof. induction t1 as [|[] t1 IH]; simpl; rewrite ?IH; reflexivity. Qed.

Lemma workspace_buttons_app t1 t2 :
  workspace_buttons (t1 ++ t2) = workspace_buttons t1 ++ workspace_buttons t2.
Proof. induction t1 as [|[] t1 IH]; simpl; rewrite ?IH; reflexivity. Qed.

#[local] Hint Rewrite window_buttons_app workspace_buttons_app : nimbler_rw.

Lemma pop_frame_refl (s : Nimbler M) : pop_frame s s.
Proof. repeat split. Qed.

Lemma pop_frame_trans (a b c : Nimbler M) : pop_frame a b -> pop_frame b c -> pop_frame a c.
Proof. unfold pop_frame. intuition congruence. Qed.

Lemma skipn_nth_error {A} (l : list A) c b :
  nth_error l c = Some b -> skipn c l = b :: skipn (S c) l.
Proof.
  revert l. induction c as [|c IH]; intros [|x l] H; simpl in *; try discriminate.
  - injection H as ->. reflexivity.
  - apply IH. exact H.
Qed.

Lemma combine_firstn_app {A B} (l : list A) (g1 g2 : list B) :
  length g1 <= length l ->
  combine (firstn (length g1 + length g2) l) (g1 ++ g2) =
  combine (firstn (length g1) l) g1 ++ combine (firstn (length g2) (skipn (length g1) l)) g2.
Proof.
  revert l. induction g1 as [|y g1 IH]; intros l Hlen; [reflexivity|].
  destruct l as [|x l]; simpl in Hlen; [lia|]. simpl. rewrite IH by lia. reflexivity.
Qed.

Lemma populate_window_ok id (s : Nimbler M) b :
  nth_error numbering (window_counter s) = Some b ->
  exists s', populate_window id s = (inl tt, s') /\ pop_frame s s' /\
    window_counter s' = S (window_counter s) /\ num_workspaces s' = num_workspaces s /\
    table s' = table s ++ [BindingLabel (Some b); WindowButton b id].
Proof.
  intros Hb. assert (Hlt : (window_counter s <? length numbering) = true)
    by (apply Nat.ltb_lt, nth_error_Some; congruence).
  unfold populate_window, pbind, pget, of_option, attach, pmodify, pret.
  rewrite Hb, Hlt. eexists. split; [reflexivity|]. cbn.
  rewrite <- app_assoc. repeat split.
Qed.

Lemma populate_group_ok grp (s : Nimbler M) :
  window_counter s + length grp <= length numbering ->
  exists s', pfor grp populate_window s = (inl tt, s') /\ pop_frame s s' /\
    window_counter s' = window_counter s + length grp /\ num_workspaces s' = num_workspaces s /\
    window_buttons (table s') = window_buttons (table s) ++
      combine (firstn (length grp) (skipn (window_counter s) numbering)) grp /\
    workspace_buttons (table s') = workspace_buttons (table s).
Proof.
  revert s. induction grp as [|id grp IH]; intros s Hlen.
  { exists s. simpl. rewrite app_nil_r, Nat.add_0_r.
    split; [reflexivity|split; [apply pop_frame_refl|auto]]. }
  change (length (id :: grp)) with (S (length grp)) in Hlen.
  destruct (nth_error numbering (window_counter s)) as [b|] eqn:Hb;
    [|apply nth_error_None in Hb; lia].
  destruct (populate_window_ok id s b Hb) as (s1 & Hrun & Hf1 & Hc1 & Hn1 & Ht1).
  destruct (IH s1) as (s2 & Hrun2 & Hf2 & Hc2 & Hn2 & Hw2 & Hs2); [lia|].
  exists s2. simpl pfor. rewrite (pbind_ok _ _ _ _ _ Hrun).
  split; [exact Hrun2|split; [exact (pop_frame_trans _ _ _ Hf1 Hf2)|]].
  split; [simpl; lia|split; [congruence|split]].
  - rewrite Hw2, Ht1, window_buttons_app, Hc1, (skipn_nth_error _ _ _ Hb).
    simpl. rewrite <- app_assoc. reflexivity.
  - rewrite Hs2, Ht1, workspace_buttons_app. apply app_nil_r.
Qed.

Lemma populate_group_error grp (s : Nimbler M) :
  window_counter s <= length numbering /\ length numbering < window_counter s + length grp ->
  exists s', pfor grp populate_window s = (inr IndexError, s') /\ pop_frame s s' /\
    window_counter s' = length numbering.
Proof.
  revert s. induction grp as [|id grp IH]; intros s Hlen; [cbn [length] in Hlen; lia|].
  change (length (id :: grp)) with (S (length grp)) in Hlen.
  simpl pfor. destruct (nth_error numbering (window_counter s)) as [b|] eqn:Hb.
  - destruct (populate_window_ok id s b Hb) as (s1 & Hrun & Hf1 & Hc1 & _ & _).
    assert (window_counter s < length numbering) by (apply nth_error_Some; congruence).
    destruct (IH s1) as (s2 & Hrun2 & Hf2 & Hc2); [rewrite Hc1; lia|].
    exists s2. rewrite (pbind_ok _ _ _ _ _ Hrun). eauto using pop_frame_trans.
  - exists s. split; [|split; [apply pop_frame_refl|apply nth_error_None in Hb; lia]].
    apply pbind_err with (e := IndexError) (s' := s).
    unfold populate_window, pbind, pget, of_option. rewrite Hb. reflexivity.
Qed.

Lemma attach_ws (s : Nimbler M) i :
  attach (WorkspaceButton (ws_label i)) s =
  (inl tt, set_table (table s ++ [WorkspaceButton (ws_label i)]) s).
Proof. reflexivity. Qed.

Lemma firstn_S_skipn {A} (l : list A) a k d :
  a < length l -> firstn (S k) (skipn a l) = nth a l d :: firstn k (skipn (S a) l).
Proof. intros Ha. rewrite (skipn_nth_error _ _ (nth a l d)) by (apply nth_error_nth'; exact Ha). reflexivity. Qed.

Lemma populate_groups_ok groups k a (s : Nimbler M) :
  a + k <= length groups ->
  window_counter s + length (concat (firstn k (skipn a groups))) <= length numbering ->
  exists s', pfor (seq a k) (populate_workspace groups) s = (inl tt, s') /\ pop_frame s s' /\
    window_counter s' = window_counter s + length (concat (firstn k (skipn a groups))) /\
    num_workspaces s' = num_workspaces s /\
    window_buttons (table s') = window_buttons (table s) ++
      combine (firstn (length (concat (firstn k (skipn a groups)))) (skipn (window_counter s) numbering))
              (concat (firstn k (skipn a groups))) /\
    workspace_buttons (table s') = workspace_buttons (table s) ++ map ws_label (seq a k).
Proof.
  revert a s. induction k as [|k IH]; intros a s Hk Hlen.
  { exists s. simpl. rewrite !app_nil_r, Nat.add_0_r.
    split; [reflexivity|split; [apply pop_frame_refl|auto]]. }
  rewrite (firstn_S_skipn _ _ _ []) in * by lia. cbn [concat] in *. rewrite length_app in *.
  set (g := nth a groups []) in *.
  set (s0 := set_table (table s ++ [WorkspaceButton (ws_label a)]) s).
  destruct (populate_group_ok g s0) as (s1 & Hrun1 & Hf1 & Hc1 & Hn1 & Hw1 & Hs1);
    [change (window_counter s0) with (window_counter s); lia|].
  change (window_counter s0) with (window_counter s) in Hc1.
  change (num_workspaces s0) with (num_workspaces s) in Hn1.
  change (table s0) with (table s ++ [WorkspaceButton (ws_label a)]) in Hw1, Hs1.
  destruct (IH (S a) s1) as (s2 & Hrun2 & Hf2 & Hc2 & Hn2 & Hw2 & Hs2); [lia|rewrite Hc1; lia|].
  exists s2. cbn [seq pfor]. unfold populate_workspace at 1.
  rewrite pbind_assoc, (pbind_ok _ _ _ _ _ (attach_ws s a)). cbv beta. fold s0.
  rewrite (pbind_ok _ _ _ _ _ Hrun1).
  assert (Hf0 : pop_frame s s0) by (repeat split).
  split; [exact Hrun2|split; [eauto using pop_frame_trans|]].
  split; [lia|split; [congruence|split]].
  - rewrite Hw2, Hw1, Hc1, window_buttons_app, combine_firstn_app.
    + cbn. rewrite app_nil_r, <- app_assoc, skipn_skipn, Nat.add_comm. reflexivity.
    + rewrite length_skipn. lia.
  - rewrite Hs2, Hs1, workspace_buttons_app. cbn. rewrite <- app_assoc. reflexivity.
Qed.

Lemma populate_groups_error groups k a (s : Nimbler M) :
  a + k <= length groups -> window_counter s <= length numbering ->
  length numbering < window_counter s + length (concat (firstn k (skipn a groups))) ->
  exists s', pfor (seq a k) (populate_workspace groups) s = (inr IndexError, s') /\ pop_frame s s'.
Proof.
  revert a s. induction k as [|k IH]; intros a s Hk Hle Hlt.
  { cbn [firstn concat length] in Hlt. lia. }
  rewrite (firstn_S_skipn _ _ _ []) in Hlt by lia. cbn [concat] in Hlt. rewrite length_app in Hlt.
  set (g := nth a groups []) in *.
  set (s0 := set_table (table s ++ [WorkspaceButton (ws_label a)]) s).
  assert (Hf0 : pop_frame s s0) by (repeat split).
  cbn [seq pfor]. unfold populate_workspace at 1.
  rewrite pbind_assoc, (pbind_ok _ _ _ _ _ (attach_ws s a)). cbv beta. fold s0.
  destruct (Nat.le_gt_cases (window_counter s + length g) (length numbering)) as [Hok|Hover].
  - destruct (populate_group_ok g s0) as (s1 & Hrun1 & Hf1 & Hc1 & _);
      [change (window_counter s0) with (window_counter s); lia|].
    change (window_counter s0) with (window_counter s) in Hc1.
    destruct (IH (S a) s1) as (s2 & Hrun2 & Hf2); [lia|lia|rewrite Hc1; lia|].
    exists s2. rewrite (pbind_ok _ _ _ _ _ Hrun1). eauto using pop_frame_trans.
  - destruct (populate_group_error g s0) as (s1 & Hrun1 & Hf1 & _);
      [change (window_counter s0) with (window_counter s); lia|].
    exists s1. rewrite (pbind_err _ _ _ _ _ Hrun1). eauto using pop_frame_trans.
Qed.

Lemma populate_unfold (s : Nimbler M) :
  populate s = pfor (seq 0 (length (windowList (wlist s))))
                 (populate_workspace (windowList (wlist s)))
                 (set_counters 0 (length (windowList (wlist s))) s).
Proof. reflexivity. Qed.

(** With at most 93 windows, [populate] labels the [k]-th window of the
    grid with the [k]-th key, and counts the windows and workspaces. *)
Lemma populate_ok (s : Nimbler M) :
  length (concat (windowList (wlist s))) <= length numbering ->
  exists s', populate s = (inl tt, s') /\ pop_frame s s' /\
    window_counter s' = length (concat (windowList (wlist s))) /\
    num_workspaces s' = length (windowList (wlist s)) /\
    window_buttons (table s') =
      window_buttons (table s) ++ combine numbering (concat (windowList (wlist s))) /\
    workspace_buttons (table s') =
      workspace_buttons (table s) ++ map ws_label (seq 0 (length (windowList (wlist s)))).
Proof.
  intros Hlen. rewrite populate_unfold.
  set (groups := windowList (wlist s)) in *.
  set (s1 := set_counters 0 (length groups) s).
  assert (Hall : firstn (length groups) (skipn 0 groups) = groups) by apply firstn_all.
  destruct (populate_groups_ok groups (length groups) 0 s1) as (s2 & Hrun & Hf & Hc & Hn & Hw & Hs);
    [lia|rewrite Hall; change (window_counter s1) with 0; lia|].
  rewrite Hall in Hc, Hw. change (window_counter s1) with 0 in Hc, Hw.
  exists s2. split; [exact Hrun|split; [|split; [lia|split; [exact Hn|split]]]].
  - apply pop_frame_trans with s1; [repeat split|exact Hf].
  - rewrite Hw. f_equal. rewrite (combine_firstn_r numbering). reflexivity.
  - exact Hs.
Qed.

(** With more than 93 windows, [populate] raises [IndexError] (it reads
    [self.numbering[self.window_counter]] before the bound check). *)
Lemma populate_error (s : Nimbler M) :
  length numbering < length (concat (windowList (wlist s))) ->
  exists s', populate s = (inr IndexError, s') /\ pop_frame s s'.
Proof.
  intros Hlen. rewrite populate_unfold.
  set (groups := windowList (wlist s)) in *.
  set (s1 := set_counters 0 (length groups) s).
  assert (Hall : firstn (length groups) (skipn 0 groups) = groups) by apply firstn_all.
  destruct (populate_groups_error groups (length groups) 0 s1) as (s2 & Hrun & Hf);
    [lia|change (window_counter s1) with 0; lia|rewrite Hall; change (window_counter s1) with 0; lia|].
  exists s2. split; [exact Hrun|]. apply pop_frame_trans with s1; [repeat split|exact Hf].
Qed.

End PopulateLemmas.


(** ** toggle *)

Section ToggleLemmas.
Context {P : Type} `{RegexSearch P} {M : Type} `{Matcher M}.
Variable cfg : Settings P.

Lemma toggle_hide env (s : Nimbler M) :
  hidden s = false -> toggle cfg env s = (inl tt, hide_state s).
Proof. intros Hh. unfold toggle, pbind, pget. rewrite Hh. reflexivity. Qed.

Lemma toggle_show_unfold env (s : Nimbler M) :
  hidden s = true ->
  toggle cfg env s =
  match refresh cfg (screen env) (wlist s) with
  | (inl _, w) =>
      match populate (show_start w s) with
      | (inl _, s2) => (inl tt, set_hidden false s2)
      | (inr e, s2) => (inr e, s2)
      end
  | (inr e, w) => (inr e, set_wlist w s)
  end.
Proof.
  intros Hh. unfold toggle, lift, pbind, pget, pput, pmodify, pret. rewrite Hh.
  destruct (refresh cfg (screen env) (wlist s)) as [[u|e] w]; [|reflexivity].
  unfold show_start. destruct (populate _) as [[u'|e'] s2]; reflexivity.
Qed.

Lemma combine_In_nth {A B} (l1 : list A) (l2 : list B) a b :
  In (a, b) (combine l1 l2) -> exists k, nth_error l1 k = Some a /\ nth_error l2 k = Some b.
Proof.
  revert l2. induction l1 as [|x l1 IH]; intros [|y l2] Hin; simpl in Hin; try contradiction.
  destruct Hin as [E|Hin].
  - injection E as -> ->. exists 0. split; reflexivity.
  - destruct (IH l2 Hin) as (k & H1 & H2). exists (S k). split; assumption.
Qed.

Lemma grid_count (w : WindowList M) :
  length (concat (windowList w)) = length (concat (view w)).
Proof. unfold view. rewrite <- concat_map, length_map. reflexivity. Qed.

Lemma bucket_length wss a l :
  (forall w, In w l -> keep cfg w = true -> group_of wss a w <> None) ->
  length (concat (bucket cfg wss a l)) = length (filter (keep cfg) l).
Proof.
  induction l as [|w l IH] using rev_ind; intros Hg.
  - unfold bucket. simpl. induction (seq 0 (length wss)); simpl; auto.
  - rewrite bucket_snoc, filter_app. simpl. rewrite length_app.
    assert (IH' : length (concat (bucket cfg wss a l)) = length (filter (keep cfg) l))
      by (apply IH; intros x Hx; apply Hg, in_or_app; left; exact Hx).
    destruct (keep cfg w) eqn:K; simpl; [|lia].
    destruct (group_of wss a w) as [g|] eqn:G;
      [|exfalso; apply (Hg w); [apply in_or_app; right; left; reflexivity|exact K|exact G]].
    assert (Hlt : g < length (bucket cfg wss a l))
      by (unfold bucket; rewrite length_map, length_seq; exact (group_of_lt _ _ _ _ G)).
    rewrite (Permutation_length (concat_update_app _ g _ Hlt)). simpl. lia.
Qed.

Lemma refresh_count sc (w0 w : WindowList M) :
  refresh_ok cfg sc = true ->
  view w = bucket cfg (sc_workspaces sc) (sc_active_workspace sc) (sc_windows sc) ->
  length (concat (windowList w)) = length (filter (keep cfg) (sc_windows sc)).
Proof.
  intros Hok Hv. rewrite grid_count, Hv. apply bucket_length.
  intros x Hx K. unfold refresh_ok in Hok. rewrite forallb_forall in Hok.
  specialize (Hok x Hx). rewrite K in Hok. simpl in Hok.
  destruct (group_of _ _ x); congruence.
Qed.

(** Showing the overlay with at most 93 windows to show. *)
Lemma show_ok env (s : Nimbler M) :
  hidden s = true ->
  refresh_ok cfg (screen env) = true ->
  length (filter (keep cfg) (sc_windows (screen env))) <= length numbering ->
  exists s', toggle cfg env s = (inl tt, s') /\ hidden s' = false /\ log s' = log s /\
    entry_shown s' = false /\ entry_focus s' = false /\
    view (wlist s') = bucket cfg (sc_workspaces (screen env)) (sc_active_workspace (screen env))
                        (sc_windows (screen env)) /\
    window_list_merged (wlist s') = concat (windowList (wlist s')) /\
    window_buttons (table s') = combine numbering (window_list_merged (wlist s')) /\
    shown_inv s'.
Proof.
  intros Hh Hok Hcount.
  destruct (refresh_total cfg (screen env) (wlist s) Hok)
    as (w & Hr & Hv & Hm & Hnd & Hb & Hlen & Hws & _ & _ & _ & _).
  pose proof (refresh_count _ (wlist s) w Hok Hv) as Hc.
  destruct (populate_ok (show_start w s)) as (s2 & Hpop & Hf & Hc2 & Hn2 & Hw2 & Hs2);
    [change (wlist (show_start w s)) with w; lia|].
  change (wlist (show_start w s)) with w in Hc2, Hn2, Hw2, Hs2.
  change (window_buttons (table (show_start w s))) with (@nil (ascii * nat)) in Hw2.
  change (workspace_buttons (table (show_start w s))) with (@nil pystr) in Hs2.
  rewrite app_nil_l in Hw2, Hs2.
  destruct Hf as (_ & Hwl & _ & _ & Hes & Hef & _ & Hlog & Hfr). cbn in Hwl, Hes, Hef, Hlog.
  exists (set_hidden false s2). rewrite toggle_show_unfold, Hr, Hpop by exact Hh.
  cbn [set_hidden hidden log entry_shown entry_focus wlist table window_counter num_workspaces].
  rewrite Hwl. split; [reflexivity|split; [reflexivity|]].
  split; [exact Hlog|split; [exact Hes|split; [exact Hef|split; [exact Hv|split; [exact Hm|]]]]].
  split; [rewrite Hw2, Hm; reflexivity|].
  intros _. cbn [wlist window_counter num_workspaces table set_hidden]. rewrite Hwl.
  repeat split.
  - rewrite Hc2, Hm. reflexivity.
  - rewrite Hc2. lia.
  - rewrite Hm. reflexivity.
  - intros i Hi. rewrite Hm in Hi. apply in_concat in Hi as (b & Hbin & Hi). exact (Hb b i Hbin Hi).
  - exact Hn2.
  - rewrite Hlen, Hws. reflexivity.
  - intros c id Hin. rewrite Hw2 in Hin. apply combine_In_nth in Hin as (k & Hk1 & Hk2).
    exists k. split; [|exact Hk1]. rewrite Hc2. apply nth_error_Some. congruence.
  - intros l Hin. rewrite Hs2 in Hin. apply in_map_iff in Hin as (i & <- & Hi).
    apply in_seq in Hi. exists i. split; [lia|reflexivity].
Qed.

(** Showing the overlay with more than 93 windows to show. *)
Lemma show_overflow env (s : Nimbler M) :
  hidden s = true ->
  refresh_ok cfg (screen env) = true ->
  length numbering < length (filter (keep cfg) (sc_windows (screen env))) ->
  exists s', toggle cfg env s = (inr IndexError, s') /\ hidden s' = true /\ log s' = log s.
Proof.
  intros Hh Hok Hcount.
  destruct (refresh_total cfg (screen env) (wlist s) Hok) as (w & Hr & Hv & _).
  pose proof (refresh_count _ (wlist s) w Hok Hv) as Hc.
  destruct (populate_error (show_start w s)) as (s2 & Hpop & Hf);
    [change (wlist (show_start w s)) with w; lia|].
  destruct Hf as (Hhid & _ & _ & _ & _ & _ & _ & Hlog & Hfr).
  exists s2. rewrite toggle_show_unfold, Hr, Hpop by exact Hh.
  split; [reflexivity|split; [rewrite Hhid; exact Hh|exact Hlog]].
Qed.

(** When some kept window has no group, showing the overlay raises
    [ValueError] and the overlay stays hidden. *)
Lemma show_refresh_error env (s : Nimbler M) :
  hidden s = true -> refresh_ok cfg (screen env) = false ->
  exists s', toggle cfg env s = (inr ValueError, s') /\ hidden s' = true /\ log s' = log s.
Proof.
  intros Hh Hko. destruct (refresh_raises cfg (screen env) (wlist s) Hko) as (w & Hr & _).
  exists (set_wlist w s). rewrite toggle_show_unfold, Hr by exact Hh.
  split; [reflexivity|split; [exact Hh|reflexivity]].
Qed.

End ToggleLemmas.

(** ** Keys and buttons *)

Section KeyLemmas.
Context {P : Type} `{RegexSearch P} {M : Type} `{Matcher M}.
Variable cfg : Settings P.

Lemma emit_ok (s : Nimbler M) c : emit c s = (inl tt, set_log (log s ++ [c]) s).
Proof. reflexivity. Qed.

Lemma presentWindow_ok env w (s : Nimbler M) :
  presentWindow env w s = (inl tt, set_log (log s ++ present_cmds env w) s).
Proof.
  unfold presentWindow, present_cmds.
  destruct (window_workspace (screen env) w); unfold pbind, emit, pmodify, pret;
    cbn [log set_log]; [rewrite <- app_assoc|]; reflexivity.
Qed.

(** In a shown state, the [k]-th entry of the flat list, for [k] below the
    counter, is a dictionary of the store. *)
Lemma merged_entry (s : Nimbler M) k :
  shown_inv s -> hidden s = false -> k < window_counter s ->
  exists i e, nth_error (window_list_merged (wlist s)) k = Some i /\
              nth_error (store (wlist s)) i = Some e.
Proof.
  intros Hinv Hh Hk. destruct (Hinv Hh) as (Hc & _ & _ & Hst & _).
  destruct (nth_error (window_list_merged (wlist s)) k) as [i|] eqn:Ei;
    [|apply nth_error_None in Ei; lia].
  destruct (nth_error (store (wlist s)) i) as [e|] eqn:Ee;
    [|apply nth_error_None in Ee; specialize (Hst i (nth_error_In _ _ Ei)); lia].
  exists i, e. auto.
Qed.

Lemma merged_window_ok (s : Nimbler M) k i e :
  nth_error (window_list_merged (wlist s)) k = Some i ->
  nth_error (store (wlist s)) i = Some e ->
  merged_window k s = (inl (window e), s).
Proof.
  intros Ei Ee. unfold merged_window, pbind, pget, of_option, pret. cbv beta iota.
  rewrite Ei. cbv beta iota. rewrite Ee. reflexivity.
Qed.

Lemma hide_state_log (s : Nimbler M) l : set_log l (hide_state s) = hide_state (set_log l s).
Proof. reflexivity. Qed.

(** The window actions of a shown state, by number. *)
Lemma via_number_ok env (s : Nimbler M) k i e :
  hidden s = false ->
  nth_error (window_list_merged (wlist s)) k = Some i ->
  nth_error (store (wlist s)) i = Some e ->
  close_window_via_number cfg env k s =
    (inl tt, set_log (log s ++ [CloseWindow (window e) (getXTime env)]) (hide_state s)) /\
  present_window_via_number cfg env k s =
    (inl tt, set_log (log s ++ present_cmds env (window e)) (hide_state s)).
Proof.
  intros Hh Ei Ee. unfold close_window_via_number, present_window_via_number.
  rewrite !(pbind_ok _ _ _ _ _ (toggle_hide cfg env s Hh)).
  rewrite !(pbind_ok _ _ _ _ _ (merged_window_ok (hide_state s) k i e Ei Ee)).
  rewrite emit_ok, presentWindow_ok. split; reflexivity.
Qed.

(** The workspace action of a shown state, for a label whose digits spell
    [i + 1]. *)
Lemma activate_workspace_ok env (s : Nimbler M) label i ws :
  hidden s = false ->
  py_int (keep_digits label) = Some (i + 1) ->
  nth_error (workspaces (wlist s)) i = Some ws ->
  activate_workspace cfg env label s =
    (inl tt, set_log (log s ++ [ActivateWorkspace ws (getXTime env)]) (hide_state s)).
Proof.
  intros Hh Hl Hw. unfold activate_workspace. rewrite Hl. cbn [of_option].
  rewrite pbind_ret_l, (pbind_ok _ _ _ _ _ (toggle_hide cfg env s Hh)).
  unfold pbind at 1, pget. unfold py_getitem.
  replace (Z.of_nat (i + 1) - 1)%Z with (Z.of_nat i) by lia.
  replace (Z.of_nat i <? 0)%Z with false by (symmetry; apply Z.ltb_ge; lia).
  rewrite Nat2Z.id. change (workspaces (wlist (hide_state s))) with (workspaces (wlist s)).
  rewrite Hw. reflexivity.
Qed.

Lemma window_buttons_In t c id : In (WindowButton c id) t -> In (c, id) (window_buttons t).
Proof.
  induction t as [|x t IH]; simpl; [tauto|]. intros [->|Hin]; [left; reflexivity|].
  destruct x; try (right; apply IH; exact Hin); apply IH; exact Hin.
Qed.

Lemma workspace_buttons_In t l : In (WorkspaceButton l) t -> In l (workspace_buttons t).
Proof.
  induction t as [|x t IH]; simpl; [tauto|]. intros [->|Hin]; [left; reflexivity|].
  destruct x; try (right; apply IH; exact Hin); apply IH; exact Hin.
Qed.

(** [keypress] on the [k]-th window key, [k] below the counter, while the
    entry does not have the focus: the action on window [k]. *)
Lemma keypress_window_key env (s : Nimbler M) k kv ctrl :
  entry_focus s = false -> k < window_counter s ->
  nth_error get_keyvals_from_unicode k = Some kv ->
  keypress cfg env kv ctrl s =
  pbind (if ctrl then close_window_via_number cfg env k else present_window_via_number cfg env k)
        (fun _ => pret false) s.
Proof.
  intros Hf Hk Hkv.
  destruct (window_keyval_plain kv (nth_error_In _ _ Hkv)) as (Hn & Hname & Hesc & _).
  assert (Hwin : mem N.eqb kv (firstn (window_counter s) get_keyvals_from_unicode) = true)
    by (apply (mem_In N.eqb N.eqb_spec); exact (nth_error_In_firstn _ _ _ _ Hk Hkv)).
  assert (Hidx : index_of N.eqb kv get_keyvals_from_unicode = Some k)
    by exact (index_of_NoDup N.eqb N.eqb_spec _ _ _ get_keyvals_from_unicode_NoDup Hkv).
  unfold keypress. cbv zeta. rewrite Hn. unfold pbind at 1, pget. cbv beta iota.
  rewrite Hesc, (mem_firstn_false N.eqb N.eqb_spec _ _ _ Hname), Hf, Hwin, Hidx.
  reflexivity.
Qed.

(** [keypress] on the [i]-th function key, [i] below the number of
    workspaces, whether or not the entry has the focus. *)
Lemma keypress_function_key env (s : Nimbler M) i ctrl :
  i < 12 -> i < num_workspaces s ->
  exists name, py_int (keep_digits (list_ascii_of_string name)) = Some (i + 1) /\
  keypress cfg env (KEY_F1 + N.of_nat i)%N ctrl s =
  pbind (activate_workspace cfg env (list_ascii_of_string name)) (fun _ => pret false) s.
Proof.
  intros Hi Hn.
  destruct (function_key_spec i Hi) as (Hkv & Hnorm & Hesc & Hidx & name & Hname & Hpy).
  exists name. split; [exact Hpy|].
  assert (Hmem : mem N.eqb (KEY_F1 + N.of_nat i)%N
                   (firstn (num_workspaces s) get_keyvals_from_name) = true)
    by (apply (mem_In N.eqb N.eqb_spec); exact (nth_error_In_firstn _ _ _ _ Hn Hkv)).
  unfold keypress. cbv zeta. rewrite Hnorm. unfold pbind at 1, pget. cbv beta iota.
  rewrite Hesc, Hmem, Hidx. cbn [of_option]. rewrite pbind_ret_l, Hname. reflexivity.
Qed.

(** [present_window_via_button] on the button named after the [k]-th key. *)
Lemma present_window_via_button_ok env (s : Nimbler M) c k i e :
  hidden s = false -> nth_error numbering k = Some c ->
  nth_error (window_list_merged (wlist s)) k = Some i ->
  nth_error (store (wlist s)) i = Some e ->
  present_window_via_button cfg env c s =
    (inl tt, set_log (log s ++ present_cmds env (window e)) (hide_state s)).
Proof.
  intros Hh Hc Ei Ee. unfold present_window_via_button.
  rewrite (index_of_NoDup Ascii.eqb Ascii.eqb_spec _ _ _ numbering_NoDup Hc).
  cbn [of_option]. rewrite pbind_ret_l. exact (proj2 (via_number_ok env s k i e Hh Ei Ee)).
Qed.

Lemma ws_label_digits i : py_int (keep_digits (ws_label i)) = Some (i + 1).
Proof. apply (py_int_str_of_nat ["F"%char]). reflexivity. Qed.

(** C13: in a shown overlay whose entry does not have the focus, the key
    printed on label [k] (the [k]-th key of the alphabet, [k] below the
    counter) hides the overlay and acts on the window of the [k]-th
    dictionary of the flat list: with Control it closes that window,
    otherwise it activates its workspace, when it has one, then the window.
    The handler returns [False], so the key goes on to GTK. *)
Theorem window_key_acts env (s : Nimbler M) k c ctrl :
  hidden s = false -> entry_focus s = false -> shown_inv s ->
  nth_error numbering k = Some c -> k < window_counter s ->
  exists i e, nth_error (window_list_merged (wlist s)) k = Some i /\
    nth_error (store (wlist s)) i = Some e /\
    keypress cfg env (unicode_to_keyval (N_of_ascii c)) ctrl s =
      (inl false, set_log (log s ++ if ctrl then [CloseWindow (window e) (getXTime env)]
                                    else present_cmds env (window e)) (hide_state s)).
Proof.
  intros Hh Hf Hinv Hc Hk.
  destruct (merged_entry s k Hinv Hh Hk) as (i & e & Ei & Ee).
  exists i, e. split; [exact Ei|split; [exact Ee|]].
  rewrite (keypress_window_key env s k _ ctrl Hf Hk)
    by (unfold get_keyvals_from_unicode; rewrite nth_error_map, Hc; reflexivity).
  destruct (via_number_ok env s k i e Hh Ei Ee) as [Hcl Hpr].
  destruct ctrl; [rewrite (pbind_ok _ _ _ _ _ Hcl)|rewrite (pbind_ok _ _ _ _ _ Hpr)]; reflexivity.
Qed.

(** C25: clicking a window button of a shown overlay hides it and activates
    the window of the dictionary at the button's key's index in the flat
    list, which need not be the dictionary the button shows. *)
Theorem window_button_presents env (s : Nimbler M) c id :
  hidden s = false -> shown_inv s -> In (WindowButton c id) (table s) ->
  exists k i e, nth_error numbering k = Some c /\ k < window_counter s /\
    nth_error (window_list_merged (wlist s)) k = Some i /\
    nth_error (store (wlist s)) i = Some e /\
    run cfg env (ClickWindowButton c) s =
      (inl tt, set_log (log s ++ present_cmds env (window e)) (hide_state s)).
Proof.
  intros Hh Hinv Hin.
  destruct (Hinv Hh) as (_ & _ & _ & _ & _ & _ & Hwb & _).
  destruct (Hwb c id (window_buttons_In _ _ _ Hin)) as (k & Hk & Hc).
  destruct (merged_entry s k Hinv Hh Hk) as (i & e & Ei & Ee).
  exists k, i, e. do 4 (split; [assumption|]).
  exact (present_window_via_button_ok env s c k i e Hh Hc Ei Ee).
Qed.

(** C28: clicking the workspace button of a shown overlay named
    ['F' + str(i + 1)] hides it and activates the [i]-th workspace. *)
Theorem workspace_button_switches env (s : Nimbler M) l :
  hidden s = false -> shown_inv s -> In (WorkspaceButton l) (table s) ->
  exists i ws, l = ws_label i /\ nth_error (workspaces (wlist s)) i = Some ws /\
    run cfg env (ClickWorkspaceButton l) s =
      (inl tt, set_log (log s ++ [ActivateWorkspace ws (getXTime env)]) (hide_state s)).
Proof.
  intros Hh Hinv Hin.
  destruct (Hinv Hh) as (_ & _ & _ & _ & Hn & Hl & _ & Hsb).
  destruct (Hsb l (workspace_buttons_In _ _ Hin)) as (i & Hi & ->).
  destruct (nth_error (workspaces (wlist s)) i) as [ws|] eqn:Ew;
    [|apply nth_error_None in Ew; lia].
  exists i, ws. split; [reflexivity|split; [exact Ew|]].
  exact (activate_workspace_ok env s _ i ws Hh (ws_label_digits i) Ew).
Qed.

(** C26: in a shown overlay, function key [F(i+1)], for [i] below the
    number of workspaces, hides the overlay and activates the [i]-th
    workspace, also while the entry has the focus. *)
Theorem function_key_switches env (s : Nimbler M) i ctrl :
  hidden s = false -> shown_inv s -> i < 12 -> i < num_workspaces s ->
  exists ws, nth_error (workspaces (wlist s)) i = Some ws /\
    keypress cfg env (KEY_F1 + N.of_nat i)%N ctrl s =
      (inl false, set_log (log s ++ [ActivateWorkspace ws (getXTime env)]) (hide_state s)).
Proof.
  intros Hh Hinv Hi Hn.
  destruct (Hinv Hh) as (_ & _ & _ & _ & Hnw & Hl & _).
  destruct (nth_error (workspaces (wlist s)) i) as [ws|] eqn:Ew;
    [|apply nth_error_None in Ew; lia].
  exists ws. split; [first [exact Ew|reflexivity]|].
  destruct (keypress_function_key env s i ctrl Hi Hn) as (name & Hpy & ->).
  rewrite (pbind_ok _ _ _ _ _ (activate_workspace_ok env s _ i ws Hh Hpy Ew)). reflexivity.
Qed.

(** C27: in a shown overlay, Escape hides it, also while the entry has the
    focus. *)
Theorem escape_hides env (s : Nimbler M) ctrl :
  hidden s = false -> keypress cfg env KEY_Escape ctrl s = (inl false, hide_state s).
Proof.
  intros Hh. destruct reserved_keyvals as (He & _).
  unfold keypress. cbv zeta. rewrite He. unfold pbind at 1, pget. cbv beta iota.
  rewrite N.eqb_refl, (pbind_ok _ _ _ _ _ (toggle_hide cfg env s Hh)). reflexivity.
Qed.

(** While the entry does not have the focus, the colon shows the entry
    and gives it the focus when the window shows its table, and the
    handler returns [True], so the colon is not typed into the entry. *)
Theorem colon_opens_entry env (s : Nimbler M) ctrl :
  entry_focus s = false ->
  keypress cfg env KEY_colon ctrl s =
    (inl true, set_entry true (entry_displayed s) (entry_text s) s).
Proof.
  intros Hf. destruct reserved_keyvals as (_ & Hc & _ & Hcn & Hcu & _ & Hce & _).
  unfold keypress. cbv zeta. rewrite Hc. unfold pbind at 1, pget. cbv beta iota.
  rewrite Hce, (mem_firstn_false N.eqb N.eqb_spec _ _ _ Hcn), Hf,
    (mem_firstn_false N.eqb N.eqb_spec _ _ _ Hcu), N.eqb_refl.
  reflexivity.
Qed.

(** C29: while the entry has the focus, a window key changes nothing (it
    goes on to the entry) and Return only logs the reserved action. *)
Theorem focused_entry_keys env (s : Nimbler M) kv ctrl :
  entry_focus s = true -> In kv get_keyvals_from_unicode ->
  keypress cfg env kv ctrl s = (inl false, s) /\
  keypress cfg env KEY_Return ctrl s = (inl false, set_log (log s ++ [PrintEnter]) s).
Proof.
  intros Hf Hin. destruct (window_keyval_plain kv Hin) as (Hn & Hname & Hesc & _ & Hret).
  destruct reserved_keyvals as (_ & _ & Hr & _ & _ & Hrn & _ & Hre).
  split; unfold keypress; cbv zeta; [rewrite Hn|rewrite Hr]; unfold pbind at 1, pget;
    cbv beta iota; rewrite Hf.
  - rewrite Hesc, (mem_firstn_false N.eqb N.eqb_spec _ _ _ Hname), Hret. reflexivity.
  - rewrite Hre, (mem_firstn_false N.eqb N.eqb_spec _ _ _ Hrn), N.eqb_refl. reflexivity.
Qed.

(** C7: showing the overlay with at most 93 windows to show succeeds, and
    the table it builds keeps its promises: the grid is the snapshot
    [refresh] specifies, the [k]-th window button is labelled with the
    [k]-th key and shows the [k]-th dictionary of the grid read in order,
    and pressing the key printed on any window button activates the window
    that button shows. *)
Theorem show_binds_keys env env' (s : Nimbler M) :
  hidden s = true -> refresh_ok cfg (screen env) = true ->
  length (filter (keep cfg) (sc_windows (screen env))) <= length numbering ->
  exists s', toggle cfg env s = (inl tt, s') /\ hidden s' = false /\
    view (wlist s') = bucket cfg (sc_workspaces (screen env)) (sc_active_workspace (screen env))
                        (sc_windows (screen env)) /\
    window_buttons (table s') = combine numbering (concat (windowList (wlist s'))) /\
    forall c id, In (WindowButton c id) (table s') ->
      exists e, nth_error (store (wlist s')) id = Some e /\
        keypress cfg env' (unicode_to_keyval (N_of_ascii c)) false s' =
          (inl false, set_log (log s' ++ present_cmds env' (window e)) (hide_state s')).
Proof.
  intros Hh Hok Hle.
  destruct (show_ok cfg env s Hh Hok Hle) as (s' & E & Hh' & _ & _ & Hf & Hv & Hm & Hw & Hinv).
  exists s'. rewrite <- Hm. do 4 (split; [assumption|]).
  intros c id Hin. apply window_buttons_In in Hin. rewrite Hw in Hin.
  apply combine_In_nth in Hin as (k & Hc & Hk).
  assert (Hlt : k < window_counter s')
    by (destruct (Hinv Hh') as (-> & _); apply nth_error_Some; congruence).
  destruct (merged_entry s' k Hinv Hh' Hlt) as (i & e & Ei & Ee).
  rewrite Hk in Ei. injection Ei as <-. exists e. split; [exact Ee|].
  rewrite (keypress_window_key env' s' k _ false Hf Hlt)
    by (unfold get_keyvals_from_unicode; rewrite nth_error_map, Hc; reflexivity).
  rewrite (pbind_ok _ _ _ _ _ (proj2 (via_number_ok env' s' k id e Hh' Hk Ee))). reflexivity.
Qed.

End KeyLemmas.

(** ** The invariant of a shown overlay *)

Section Invariant.
Context {P : Type} `{RegexSearch P} {M : Type} `{Matcher M}.
Variable cfg : Settings P.

Lemma shown_inv_hidden (s : Nimbler M) : hidden s = true -> shown_inv s.
Proof. intros Hh Hf. congruence. Qed.

Lemma toggle_inv env (s : Nimbler M) : shown_inv (snd (toggle cfg env s)).
Proof.
  destruct (hidden s) eqn:Hh;
    [|rewrite (toggle_hide cfg env s Hh); apply shown_inv_hidden; reflexivity].
  destruct (refresh_ok cfg (screen env)) eqn:Hok.
  - destruct (le_lt_dec (length (filter (keep cfg) (sc_windows (screen env)))) (length numbering))
      as [Hle|Hgt].
    + destruct (show_ok cfg env s Hh Hok Hle) as (s' & -> & _ & _ & _ & _ & _ & _ & _ & Hinv).
      exact Hinv.
    + destruct (show_overflow cfg env s Hh Hok Hgt) as (s' & -> & Hh' & _).
      apply shown_inv_hidden. exact Hh'.
  - destruct (show_refresh_error cfg env s Hh Hok) as (s' & -> & Hh' & _).
    apply shown_inv_hidden. exact Hh'.
Qed.

Lemma toggle_preserves env : preserves shown_inv (toggle (M:=M) cfg env).
Proof. intros s _. apply toggle_inv. Qed.

Lemma emit_preserves c : preserves shown_inv (emit (M:=M) c).
Proof. apply preserves_modify. intros s Hs. exact Hs. Qed.

Lemma set_entry_inv a b t (s : Nimbler M) : shown_inv s -> shown_inv (set_entry a b t s).
Proof. intros Hs. exact Hs. Qed.

Lemma entry_preserves a b : preserves shown_inv (pmodify (fun s : Nimbler M =>
  set_entry a b (entry_text s) s)).
Proof. apply preserves_modify. intros s Hs. exact Hs. Qed.

Lemma populate_preserves : preserves shown_inv (populate (M:=M)).
Proof.
  intros s Hinv. destruct (hidden s) eqn:Hh.
  - destruct (le_lt_dec (length (concat (windowList (wlist s)))) (length numbering)) as [Hle|Hgt].
    + destruct (populate_ok s Hle) as (s' & -> & (Hh' & _) & _).
      apply shown_inv_hidden. cbn [snd]. congruence.
    + destruct (populate_error s Hgt) as (s' & -> & (Hh' & _)).
      apply shown_inv_hidden. cbn [snd]. congruence.
  - destruct (Hinv Hh) as (Hc & Hle & Hp & Hst & Hn & Hl & Hwb & Hsb).
    assert (Hlen : length (concat (windowList (wlist s))) = window_counter s)
      by (rewrite Hc; symmetry; apply Permutation_length; exact Hp).
    destruct (populate_ok s) as (s' & -> & Hf & Hc' & Hn' & Hw' & Hs'); [lia|].
    destruct Hf as (_ & Hwl & _). intros _. cbn [snd]. cbv zeta. rewrite Hwl.
    repeat split; try assumption; try lia.
    + intros c id Hin. rewrite Hw' in Hin. apply in_app_or in Hin as [Hin|Hin].
      * destruct (Hwb c id Hin) as (k & Hk & Hkc). exists k. split; [lia|exact Hkc].
      * apply combine_In_nth in Hin as (k & Hk1 & Hk2). exists k. split; [|exact Hk1].
        rewrite Hc', <- nth_error_Some. congruence.
    + intros l Hin. rewrite Hs' in Hin. apply in_app_or in Hin as [Hin|Hin].
      * destruct (Hsb l Hin) as (i & Hi & ->). exists i. split; [lia|reflexivity].
      * apply in_map_iff in Hin as (i & <- & Hi). apply in_seq in Hi.
        exists i. split; [lia|reflexivity].
Qed.

Lemma rank_preserves text : preserves shown_inv (lift (M:=M) (rank text)).
Proof.
  intros s Hinv Hh. unfold lift, rank in *. cbn [snd set_wlist hidden] in Hh |- *.
  destruct (Hinv Hh) as (Hc & Hle & Hp & Hst & Hn & Hl & Hwb & Hsb).
  set (st := fold_left _ _ _).
  pose proof (sort_desc_perm (rank_of st) (window_list_merged (wlist s))) as Hperm.
  cbv zeta. cbn [wlist window_counter num_workspaces table windowList store window_list_merged
                 workspaces set_wlist].
  repeat split; try assumption.
  - rewrite Hc. apply Permutation_length. exact Hperm.
  - rewrite <- Hperm. exact Hp.
  - intros i Hi. unfold st. rewrite length_rescore_all.
    apply Hst. apply (Permutation_in _ (Permutation_sym Hperm)). exact Hi.
Qed.

Lemma presentWindow_preserves env w : preserves shown_inv (presentWindow (M:=M) env w).
Proof. intros s Hs. rewrite presentWindow_ok. exact Hs. Qed.

Lemma merged_window_preserves n : preserves shown_inv (merged_window (M:=M) n).
Proof. unfold merged_window. preserve. Qed.

Lemma activate_workspace_preserves env label :
  preserves shown_inv (activate_workspace (M:=M) cfg env label).
Proof.
  unfold activate_workspace.
  preserve_using ltac:(eauto using toggle_preserves, emit_preserves with nimbler).
Qed.

Lemma present_window_via_number_preserves env n :
  preserves shown_inv (present_window_via_number (M:=M) cfg env n).
Proof.
  unfold present_window_via_number.
  preserve_using ltac:(eauto using toggle_preserves, merged_window_preserves,
                                   presentWindow_preserves with nimbler).
Qed.

Lemma close_window_via_number_preserves env n :
  preserves shown_inv (close_window_via_number (M:=M) cfg env n).
Proof.
  unfold close_window_via_number.
  preserve_using ltac:(eauto using toggle_preserves, merged_window_preserves,
                                   emit_preserves with nimbler).
Qed.

Lemma keypress_preserves env kv ctrl : preserves shown_inv (keypress (M:=M) cfg env kv ctrl).
Proof.
  unfold keypress. cbv zeta.
  preserve_using ltac:(eauto using toggle_preserves, emit_preserves, entry_preserves,
    activate_workspace_preserves, close_window_via_number_preserves,
    present_window_via_number_preserves with nimbler).
Qed.

Lemma enteredNameChanged_preserves text :
  preserves shown_inv (enteredNameChanged (M:=M) text).
Proof.
  unfold enteredNameChanged. destruct text;
    preserve_using ltac:(eauto using rank_preserves, populate_preserves with nimbler).
Qed.

Lemma present_window_via_button_preserves env name :
  preserves shown_inv (present_window_via_button (M:=M) cfg env name).
Proof.
  unfold present_window_via_button.
  preserve_using ltac:(eauto using present_window_via_number_preserves with nimbler).
Qed.

(** Every callback keeps the invariant, whether it returns or raises. *)
Lemma handle_inv env ev (s : Nimbler M) : shown_inv s -> shown_inv (handle cfg env ev s).
Proof.
  intros Hs. unfold handle, run. destruct ev as [| kv ctrl | text | name | name |].
  - apply toggle_inv.
  - pose proof (keypress_preserves env kv ctrl s Hs) as Hk.
    destruct (keypress cfg env kv ctrl s). exact Hk.
  - apply enteredNameChanged_preserves, set_entry_inv, Hs.
  - apply present_window_via_button_preserves, Hs.
  - apply activate_workspace_preserves, Hs.
  - apply set_entry_inv, Hs.
Qed.

End Invariant.

(** ** Callbacks under a predicate of the state

    Only [toggle] changes the visibility and the frame, and only
    [enteredNameChanged] changes the window list outside [toggle]; a
    predicate that the requests, the entry and those two keep is kept by
    every callback. *)

Section Callbacks.
Context {P : Type} `{RegexSearch P} {M : Type} `{Matcher M}.
Variable cfg : Settings P.
Variable env : Env.
Variable Q : Nimbler M -> Prop.
Hypothesis Q_log : forall l s, Q s -> Q (set_log l s).
Hypothesis Q_entry : forall a b t s, Q s -> Q (set_entry a b t s).
Hypothesis Q_toggle : preserves Q (toggle cfg env).
Hypothesis Q_entered : forall text, preserves Q (enteredNameChanged (M := M) text).

Lemma emit_kept c : preserves Q (emit (M := M) c).
Proof. apply preserves_modify. intros s. apply Q_log. Qed.

Lemma merged_window_kept n : preserves Q (merged_window (M := M) n).
Proof. unfold merged_window. preserve. Qed.

Lemma presentWindow_kept w : preserves Q (presentWindow (M := M) env w).
Proof.
  unfold presentWindow. apply preserves_bind; [destruct (window_workspace _ _)|intros _];
    eauto using emit_kept with nimbler.
Qed.

Lemma activate_workspace_kept label : preserves Q (activate_workspace cfg env label).
Proof. unfold activate_workspace. preserve_using ltac:(eauto using emit_kept with nimbler). Qed.

Lemma close_kept n : preserves Q (close_window_via_number cfg env n).
Proof.
  unfold close_window_via_number.
  preserve_using ltac:(eauto using emit_kept, merged_window_kept with nimbler).
Qed.

Lemma present_kept n : preserves Q (present_window_via_number cfg env n).
Proof.
  unfold present_window_via_number.
  preserve_using ltac:(eauto using merged_window_kept, presentWindow_kept with nimbler).
Qed.

Lemma keypress_kept kv ctrl : preserves Q (keypress cfg env kv ctrl).
Proof.
  unfold keypress. cbv zeta.
  preserve_using ltac:(first
    [ eauto using emit_kept, activate_workspace_kept, close_kept, present_kept with nimbler
    | apply preserves_modify; intros ? ?; apply Q_entry; assumption ]).
  all: apply preserves_modify; intros s0 Hs0; cbv beta; apply Q_entry; exact Hs0.
Qed.

Lemma button_kept name : preserves Q (present_window_via_button cfg env name).
Proof. unfold present_window_via_button. preserve_using ltac:(eauto using present_kept with nimbler). Qed.

Lemma handle_kept ev (s : Nimbler M) : Q s -> Q (handle cfg env ev s).
Proof.
  intros Hs. unfold handle, run. destruct ev as [| kv ctrl | text | name | name |].
  - apply Q_toggle, Hs.
  - pose proof (keypress_kept kv ctrl s Hs) as Hk. destruct (keypress cfg env kv ctrl s). exact Hk.
  - apply Q_entered, Q_entry, Hs.
  - apply button_kept, Hs.
  - apply activate_workspace_kept, Hs.
  - apply Q_entry, Hs.
Qed.
End Callbacks.

(** ** The frame *)

Section Frames.
Context {P : Type} `{RegexSearch P} {M : Type} `{Matcher M}.
Variable cfg : Settings P.

Lemma populate_view (s : Nimbler M) :
  frame (snd (populate s)) = frame s /\ hidden (snd (populate s)) = hidden s.
Proof.
  destruct (le_lt_dec (length (concat (windowList (wlist s)))) (length numbering)) as [Hle|Hgt];
    [destruct (populate_ok s Hle) as (s' & -> & Hf & _)|destruct (populate_error s Hgt) as (s' & -> & Hf)];
    destruct Hf as (Hh & _ & _ & _ & _ & _ & _ & _ & Hfr); split; assumption.
Qed.

Lemma entered_view text (s : Nimbler M) :
  frame (snd (enteredNameChanged text s)) = frame s /\
  hidden (snd (enteredNameChanged text s)) = hidden s.
Proof.
  destruct text as [|c t]; [split; reflexivity|]. unfold enteredNameChanged. cbv [pbind lift].
  destruct (rank (c :: t) (wlist s)) as [[u|e] w]; cbv beta iota;
    [destruct (populate_view (set_wlist w s)) as [F1 H1]; split; [exact F1|exact H1]|split; reflexivity].
Qed.

Lemma toggle_refresh_error_view env (s : Nimbler M) :
  hidden s = true -> refresh_ok cfg (screen env) = false ->
  frame (snd (toggle cfg env s)) = frame s /\ hidden (snd (toggle cfg env s)) = true /\
  table (snd (toggle cfg env s)) = table s.
Proof.
  intros Hh Hko. destruct (refresh_raises cfg (screen env) (wlist s) Hko) as (w & Hr & _).
  rewrite toggle_show_unfold, Hr by exact Hh. split; [reflexivity|split; [exact Hh|reflexivity]].
Qed.

Lemma toggle_show_view env (s : Nimbler M) :
  hidden s = true -> refresh_ok cfg (screen env) = true ->
  frame (snd (toggle cfg env s)) = frame (frame_add s) /\
  (hidden (snd (toggle cfg env s)) = false <->
   length (filter (keep cfg) (sc_windows (screen env))) <= length numbering).
Proof.
  intros Hh Hok. split.
  - rewrite toggle_show_unfold by exact Hh.
    destruct (refresh_total cfg (screen env) (wlist s) Hok) as (w & -> & _).
    destruct (populate_view (show_start w s)) as [Hf _].
    destruct (populate (show_start w s)) as [[u|e] s2]; cbn [snd] in Hf |- *;
      [change (frame (set_hidden false s2)) with (frame s2)|]; rewrite Hf; reflexivity.
  - split.
    + intros Hh'. destruct (le_lt_dec (length (filter (keep cfg) (sc_windows (screen env))))
                              (length numbering)) as [Hle|Hgt]; [exact Hle|].
      destruct (show_overflow cfg env s Hh Hok Hgt) as (s' & E & H1 & _).
      rewrite E in Hh'. cbn [snd] in Hh'. congruence.
    + intros Hle. destruct (show_ok cfg env s Hh Hok Hle) as (s' & -> & H1 & _). exact H1.
Qed.

Lemma toggle_in_step env : show_fits cfg env -> preserves frame_in_step (toggle (M := M) cfg env).
Proof.
  intros Hfit s Hs. unfold frame_in_step in *. destruct (hidden s) eqn:Hh.
  - destruct (refresh_ok cfg (screen env)) eqn:Hok.
    + destruct Hfit as [Hko|Hle]; [congruence|].
      destruct (toggle_show_view env s Hh Hok) as [Hf Hiff].
      rewrite (proj2 Hiff Hle), Hf. unfold frame_add, set_frame. cbn [frame]. rewrite Hs.
      reflexivity.
    + destruct (toggle_refresh_error_view env s Hh Hok) as (-> & -> & _). exact Hs.
  - rewrite (toggle_hide cfg env s Hh). cbn. rewrite Hs. reflexivity.
Qed.

Lemma toggle_stale env w : preserves (fun s : Nimbler M => frame s = FrameStale w) (toggle cfg env).
Proof.
  intros s Hs. destruct (hidden s) eqn:Hh.
  - destruct (refresh_ok cfg (screen env)) eqn:Hok.
    + destruct (toggle_show_view env s Hh Hok) as [-> _].
      unfold frame_add, set_frame. cbn [frame]. rewrite Hs. reflexivity.
    + destruct (toggle_refresh_error_view env s Hh Hok) as (-> & _). exact Hs.
  - rewrite (toggle_hide cfg env s Hh). cbn. rewrite Hs. reflexivity.
Qed.

(** On a screen that fits, every callback keeps the window showing the
    current table while the overlay is shown. *)
Lemma handle_in_step env ev (s : Nimbler M) :
  show_fits cfg env -> frame_in_step s -> frame_in_step (handle cfg env ev s).
Proof.
  intros Hfit. apply (handle_kept cfg env frame_in_step).
  - intros l s0 Hs. exact Hs.
  - intros a b t s0 Hs. exact Hs.
  - apply toggle_in_step, Hfit.
  - intros text s0 Hs. unfold frame_in_step in *. destruct (entered_view text s0) as [-> ->].
    exact Hs.
Qed.

(** A frame that shows an older table shows it after every callback. *)
Lemma handle_stale env ev (s : Nimbler M) w :
  frame s = FrameStale w -> frame (handle cfg env ev s) = FrameStale w.
Proof.
  apply (handle_kept cfg env (fun s : Nimbler M => frame s = FrameStale w)).
  - intros l s0 Hs. exact Hs.
  - intros a b t s0 Hs. exact Hs.
  - apply toggle_stale.
  - intros text s0 Hs. destruct (entered_view text s0) as [-> _]. exact Hs.
Qed.

(** A hidden overlay receives only the hotkey. *)
Lemma hidden_deliverable ev (s : Nimbler M) : hidden s = true -> deliverable ev s -> ev = Hotkey.
Proof.
  intros Hh Hd. destruct ev; cbn [deliverable] in Hd; try reflexivity; exfalso; intuition congruence.
Qed.

Lemma merged_window_out (s : Nimbler M) k :
  nth_error (window_list_merged (wlist s)) k = None -> merged_window k s = (inr IndexError, s).
Proof. intros E. unfold merged_window, pbind, pget. cbv beta iota. rewrite E. reflexivity. Qed.

End Frames.

(** ** Running programs *)

Section Running.
Context {P : Type} `{RegexSearch P} {M : Type} `{Matcher M}.
Variable cfg : Settings P.

Lemma init_hidden env (s : Nimbler M) : nimbler_init cfg env = (inl tt, s) -> hidden s = true.
Proof.
  unfold nimbler_init. destruct (getLatest cfg (screen env) init) as [[] ?].
  all: intros E; inversion E; reflexivity.
Qed.

(** Every reachable state satisfies [shown_inv]. *)
Lemma reachable_inv (s : Nimbler M) : reachable cfg s -> shown_inv s.
Proof.
  induction 1 as [env s Hinit|s s' _ IH Hstep].
  - apply shown_inv_hidden. exact (init_hidden env s Hinit).
  - destruct Hstep as [env ev s _]. apply handle_inv, IH.
Qed.

(** C1: in every state a running program reaches, whatever the screens
    and the events, a shown overlay satisfies [shown_inv]: the counters
    describe the flat list, the flat list is a permutation of the grid
    into the store, and every button of the table names a bound key or an
    existing workspace. *)
Theorem reachable_shown_inv (s : Nimbler M) : reachable cfg s -> shown_inv s.
Proof. apply reachable_inv. Qed.

(** [keypress] on a shown overlay returns, whatever the key. *)
Lemma keypress_safe env kv0 ctrl (s : Nimbler M) :
  shown_inv s -> hidden s = false -> exists b s', keypress cfg env kv0 ctrl s = (inl b, s').
Proof.
  intros Hinv Hh. destruct (Hinv Hh) as (Hc & _ & _ & _ & Hn & Hl & _).
  unfold keypress. cbv zeta. unfold pbind at 1, pget. cbv beta iota.
  destruct (normalize_keyval kv0 =? KEY_Escape)%N.
  { rewrite (pbind_ok _ _ _ _ _ (toggle_hide cfg env s Hh)). eexists _, _. reflexivity. }
  destruct (mem N.eqb (normalize_keyval kv0) (firstn (num_workspaces s) get_keyvals_from_name))
    eqn:Hm.
  { apply (mem_In N.eqb N.eqb_spec), In_firstn_nth_error in Hm as (i & Hi & Ei).
    assert (Hi12 : i < length get_keyvals_from_name)
      by (apply nth_error_Some; intros E; unfold keyval in *; congruence).
    destruct (function_key_spec i Hi12) as (Hkv & _ & _ & Hidx & name & Hname & Hpy).
    assert (Hkv' : Some (normalize_keyval kv0) = Some (KEY_F1 + N.of_nat i)%N)
      by (transitivity (nth_error get_keyvals_from_name i); [symmetry; exact Ei|exact Hkv]).
    assert (Hkv'' : normalize_keyval kv0 = (KEY_F1 + N.of_nat i)%N) by congruence.
    rewrite Hkv'', Hidx. cbn [of_option].
    rewrite pbind_ret_l, Hname. cbn [of_option]. rewrite pbind_ret_l.
    destruct (nth_error (workspaces (wlist s)) i) as [ws|] eqn:Ew;
      [|apply nth_error_None in Ew; lia].
    rewrite (pbind_ok _ _ _ _ _ (activate_workspace_ok cfg env s _ i ws Hh Hpy Ew)).
    eexists _, _. reflexivity. }
  destruct (entry_focus s); cbn [negb].
  { destruct (normalize_keyval kv0 =? KEY_Return)%N; eexists _, _; reflexivity. }
  destruct (mem N.eqb (normalize_keyval kv0) (firstn (window_counter s) get_keyvals_from_unicode))
    eqn:Hw.
  { apply (mem_In N.eqb N.eqb_spec), In_firstn_nth_error in Hw as (k & Hk & Ek).
    rewrite (index_of_NoDup N.eqb N.eqb_spec _ _ _ get_keyvals_from_unicode_NoDup Ek).
    cbn [of_option]. rewrite pbind_ret_l.
    destruct (merged_entry s k Hinv Hh Hk) as (i & e & Ei & Ee).
    destruct (via_number_ok cfg env s k i e Hh Ei Ee) as [Hcl Hpr].
    destruct ctrl; [rewrite (pbind_ok _ _ _ _ _ Hcl)|rewrite (pbind_ok _ _ _ _ _ Hpr)];
      eexists _, _; reflexivity. }
  destruct (normalize_keyval kv0 =? KEY_colon)%N; eexists _, _; reflexivity.
Qed.

(** [enteredNameChanged] on a shown overlay returns. *)
Lemma enteredNameChanged_safe text (s : Nimbler M) :
  shown_inv s -> hidden s = false -> fst (enteredNameChanged text s) = inl tt.
Proof.
  intros Hinv Hh. destruct text as [|c text]; [reflexivity|]. unfold enteredNameChanged.
  set (s1 := set_wlist (snd (rank (c :: text) (wlist s))) s).
  assert (Hr : lift (rank (c :: text)) s = (inl tt, s1)) by reflexivity.
  rewrite (pbind_ok _ _ _ _ _ Hr).
  assert (Hinv1 : shown_inv s1) by exact (rank_preserves _ s Hinv).
  destruct (Hinv1 Hh) as (Hc & Hle & Hp & _).
  destruct (populate_ok s1) as (s' & -> & _); [|reflexivity].
  rewrite <- (Permutation_length Hp). lia.
Qed.

(** No callback delivered to a shown overlay that satisfies [shown_inv]
    raises. *)
Lemma callbacks_safe env ev (s : Nimbler M) :
  shown_inv s -> hidden s = false -> frame s = FrameCurrent -> deliverable ev s ->
  fst (run cfg env ev s) = inl tt.
Proof.
  intros Hinv Hh Hfr Hd.
  assert (Hdisp : displayed s = table s) by (unfold displayed; rewrite Hfr; reflexivity).
  destruct (Hinv Hh) as (_ & _ & _ & _ & _ & _ & Hwb & Hsb).
  destruct ev as [| kv ctrl | text | name | name |]; cbn [run];
    cbn [deliverable] in Hd; try rewrite Hdisp in Hd.
  - rewrite (toggle_hide cfg env s Hh). reflexivity.
  - destruct (keypress_safe env kv ctrl s Hinv Hh) as (b & s' & ->). reflexivity.
  - apply enteredNameChanged_safe; [apply set_entry_inv, Hinv|exact Hh].
  - destruct Hd as (_ & id & Hin).
    destruct (Hwb name id (window_buttons_In _ _ _ Hin)) as (k & Hk & Hc).
    destruct (merged_entry s k Hinv Hh Hk) as (i & e & Ei & Ee).
    rewrite (present_window_via_button_ok cfg env s name k i e Hh Hc Ei Ee). reflexivity.
  - destruct Hd as (_ & Hin). destruct (Hsb name (workspace_buttons_In _ _ Hin)) as (i & Hi & ->).
    destruct (Hinv Hh) as (_ & _ & _ & _ & Hn & Hl & _).
    destruct (nth_error (workspaces (wlist s)) i) as [ws|] eqn:Ew;
      [|apply nth_error_None in Ew; lia].
    unfold activate_workspace_via_button.
    rewrite (activate_workspace_ok cfg env s _ i ws Hh (ws_label_digits i) Ew). reflexivity.
  - reflexivity.
Qed.

(** C2: in a running program whose window shows the current table, no
    callback GTK delivers to the shown overlay raises: every key, every
    click on a button of the table, every change of the entry's text and
    the hotkey that hides it return normally. *)
Theorem shown_callbacks_safe env ev (s : Nimbler M) :
  reachable cfg s -> hidden s = false -> frame s = FrameCurrent -> deliverable ev s ->
  fst (run cfg env ev s) = inl tt.
Proof. intros Hr. apply callbacks_safe, reachable_inv, Hr. Qed.

(** C15: with more than 93 windows to show, a running program never shows
    its overlay: from a hidden state, every sequence of events GTK can
    deliver (only the hotkey, each time raising [IndexError]) leaves it
    hidden and sends no request to the window manager, although the
    specification promises a degraded mode in which the extra windows stay
    reachable. *)
Theorem overflow_never_shows env (s s' : Nimbler M) :
  hidden s = true -> refresh_ok cfg (screen env) = true ->
  length numbering < length (filter (keep cfg) (sc_windows (screen env))) ->
  clos_refl_trans_1n _ (fun a b => exists ev, deliverable ev a /\ b = handle cfg env ev a) s s' ->
  hidden s' = true /\ log s' = log s.
Proof.
  intros Hh Hok Hgt Hrt. revert Hh.
  induction Hrt as [|a b c Hab _ IH]; intros Hh; [split; [exact Hh|reflexivity]|].
  destruct Hab as (ev & Hd & ->).
  destruct ev; [|exfalso; cbn [deliverable] in Hd; intuition congruence ..].
  destruct (show_overflow cfg env a Hh Hok Hgt) as (a' & E & H1 & H2).
  unfold handle, run in IH. rewrite E in IH. cbn [snd] in IH.
  destruct (IH H1) as [H3 H4]. split; [exact H3|congruence].
Qed.

(** The hotkey on a hidden overlay, with at most 93 windows to show, shows
    the current screen, as one step of the event loop. *)
Lemma hotkey_show env (s : Nimbler M) :
  hidden s = true -> refresh_ok cfg (screen env) = true ->
  length (filter (keep cfg) (sc_windows (screen env))) <= length numbering ->
  step cfg s (handle cfg env Hotkey s) /\ hidden (handle cfg env Hotkey s) = false /\
  view (wlist (handle cfg env Hotkey s)) =
    bucket cfg (sc_workspaces (screen env)) (sc_active_workspace (screen env))
      (sc_windows (screen env)).
Proof.
  intros Hh Hok Hc. split; [exact (step_event cfg env Hotkey s I)|].
  destruct (show_ok cfg env s Hh Hok Hc) as (s' & Ht & Hh' & _ & _ & _ & Hv & _).
  unfold handle, run. rewrite Ht. split; assumption.
Qed.

(** C12: from every state, whether the overlay is shown or hidden, at most
    two presses of the hotkey show the overlay, with the windows of the
    current screen, as soon as that screen has a workspace for every kept
    window and at most 93 of them: the program never gets stuck hidden. *)
Theorem hotkey_reveals env (s : Nimbler M) :
  refresh_ok cfg (screen env) = true ->
  length (filter (keep cfg) (sc_windows (screen env))) <= length numbering ->
  let s' := if hidden s then handle cfg env Hotkey s
            else handle cfg env Hotkey (handle cfg env Hotkey s) in
  clos_trans _ (step cfg) s s' /\ hidden s' = false /\
  view (wlist s') = bucket cfg (sc_workspaces (screen env)) (sc_active_workspace (screen env))
                      (sc_windows (screen env)).
Proof.
  intros Hok Hc. cbv zeta. destruct (hidden s) eqn:Hh.
  - destruct (hotkey_show env s Hh Hok Hc) as (Hs & Hv). split; [apply t_step, Hs|exact Hv].
  - assert (E : handle cfg env Hotkey s = hide_state s)
      by (unfold handle, run; rewrite (toggle_hide cfg env s Hh); reflexivity).
    destruct (hotkey_show env (handle cfg env Hotkey s)) as (Hs & Hv);
      [rewrite E; reflexivity|exact Hok|exact Hc|].
    split; [|exact Hv].
    apply (t_trans _ _ _ (handle cfg env Hotkey s)); apply t_step; [|exact Hs].
    exact (step_event cfg env Hotkey s I).
Qed.

End Running.

(** ** The table the window shows *)

Section FrameRuns.
Context {P : Type} `{RegexSearch P} {M : Type} `{Matcher M}.
Variable cfg : Settings P.

Lemma reachable_fit_reachable (s : Nimbler M) :
  reachable_fit cfg s -> reachable cfg s /\ frame_in_step s.
Proof.
  induction 1 as [env s Hi|env ev s _ [IHr IHf] Hd Hfit].
  - split; [exact (reach_init _ env s Hi)|]. revert Hi. unfold nimbler_init.
    destruct (getLatest cfg (screen env) init) as [[?|?] ?]; intros E; inversion E; reflexivity.
  - split; [exact (reach_step _ _ _ IHr (step_event _ env ev s Hd))|apply handle_in_step; assumption].
Qed.

(** C4: in every run in which no show of the overlay meets more than 93
    windows, the window shows the table [self.table] names whenever the
    overlay is shown and no table while it is hidden, and no callback
    GTK delivers to the shown overlay raises. *)
Theorem fitting_runs_safe (s : Nimbler M) :
  reachable_fit cfg s ->
  frame_in_step s /\
  forall env ev, hidden s = false -> deliverable ev s -> fst (run cfg env ev s) = inl tt.
Proof.
  intros Hr. destruct (reachable_fit_reachable s Hr) as [Hreach Hin]. split; [exact Hin|].
  intros env ev Hh Hd. apply callbacks_safe; [apply (reachable_inv cfg), Hreach|exact Hh| |exact Hd].
  unfold frame_in_step in Hin. rewrite Hh in Hin. exact Hin.
Qed.

Lemma frozen_step T (a b : Nimbler M) :
  frozen_by T a -> (exists env ev, deliverable ev a /\ b = handle cfg env ev a) -> frozen_by T b.
Proof.
  intros [(Ha & Fa & Ta)|Fa] (env & ev & Hd & ->).
  - rewrite (hidden_deliverable ev a Ha Hd). unfold handle, run.
    destruct (refresh_ok cfg (screen env)) eqn:Hok.
    + right. destruct (toggle_show_view cfg env a Ha Hok) as [-> _].
      unfold frame_add, set_frame. cbn [frame]. rewrite Fa, Ta. reflexivity.
    + left. destruct (toggle_refresh_error_view cfg env a Ha Hok) as (-> & -> & ->). auto.
  - right. apply (handle_stale cfg), Fa.
Qed.

(** C16: a show stopped by more than 93 windows leaves its table in the
    frame for good: [self.frame.add] refuses every later table, and every
    later state in which the overlay is shown displays that stopped table,
    whatever the events and the screens. *)
Theorem overflow_freezes_frame env (s s' : Nimbler M) :
  hidden s = true -> frame s = FrameEmpty -> refresh_ok cfg (screen env) = true ->
  length numbering < length (filter (keep cfg) (sc_windows (screen env))) ->
  clos_refl_trans_1n _ (fun a b => exists env' ev, deliverable ev a /\ b = handle cfg env' ev a)
    (handle cfg env Hotkey s) s' ->
  hidden s' = false -> frame s' = FrameStale (table (handle cfg env Hotkey s)).
Proof.
  intros Hh He Hok Hgt Hrt Hh'.
  assert (H1 : frozen_by (table (handle cfg env Hotkey s)) (handle cfg env Hotkey s)).
  { left. unfold handle, run. destruct (toggle_show_view cfg env s Hh Hok) as [Hf Hiff].
    split; [|split; [rewrite Hf; unfold frame_add, set_frame; cbn [frame]; rewrite He; reflexivity
                    |reflexivity]].
    destruct (hidden (snd (toggle cfg env s))); [reflexivity|].
    specialize (proj1 Hiff eq_refl). lia. }
  revert H1. generalize (table (handle cfg env Hotkey s)) as T. intros T H1.
  revert H1. induction Hrt as [|a b c Hab _ IH]; intros Ha.
  - destruct Ha as [(Hx & _)|F]; [congruence|exact F].
  - apply IH; [exact Hh'|exact (frozen_step _ a b Ha Hab)].
Qed.

(** C17: in a running program, a click on a window button the window shows
    whose key lies at or beyond the number of windows of the current
    snapshot hides the overlay and raises [IndexError] in
    [window_list_merged[window_number]]: the buttons of a frozen table
    reach past the flat list. *)
Theorem stale_button_raises env (s : Nimbler M) c id k :
  reachable cfg s -> hidden s = false -> In (WindowButton c id) (displayed s) ->
  nth_error numbering k = Some c -> window_counter s <= k ->
  deliverable (ClickWindowButton c) s /\
  run cfg env (ClickWindowButton c) s = (inr IndexError, hide_state s).
Proof.
  intros Hr Hh Hin Hc Hk. split; [split; [exact Hh|exists id; exact Hin]|].
  destruct (reachable_inv cfg s Hr Hh) as (Hcnt & _).
  assert (E : nth_error (window_list_merged (wlist (hide_state s))) k = None)
    by (apply nth_error_None; cbn; lia).
  cbn [run]. unfold present_window_via_button.
  rewrite (index_of_NoDup Ascii.eqb Ascii.eqb_spec _ _ _ numbering_NoDup Hc).
  cbn [of_option]. rewrite pbind_ret_l. unfold present_window_via_number.
  rewrite (pbind_ok _ _ _ _ _ (toggle_hide cfg env s Hh)).
  rewrite (pbind_err _ _ _ _ _ (merged_window_out _ k E)). reflexivity.
Qed.

End FrameRuns.

(** ** The labels of the window buttons *)

Section Labels.
Context {P : Type} `{RegexSearch P} {M : Type} `{Matcher M}.
Variable cfg : Settings P.

Lemma labels_hidden (s : Nimbler M) : hidden s = true -> labels_follow_grid s.
Proof. intros Hh Hh'. congruence. Qed.

Lemma combine_labels (l : list nat) c id :
  In (c, id) (combine numbering l) ->
  exists k, nth_error numbering k = Some c /\ nth_error l k = Some id.
Proof. intros Hin. destruct (combine_In_nth _ _ _ _ Hin) as (k & H1 & H2). eauto. Qed.

Lemma toggle_labels env (s : Nimbler M) : labels_follow_grid (snd (toggle cfg env s)).
Proof.
  destruct (hidden s) eqn:Hh; [|rewrite (toggle_hide cfg env s Hh); apply labels_hidden; reflexivity].
  destruct (refresh_ok cfg (screen env)) eqn:Hok.
  - destruct (le_lt_dec (length (filter (keep cfg) (sc_windows (screen env)))) (length numbering))
      as [Hle|Hgt].
    + destruct (show_ok cfg env s Hh Hok Hle) as (s' & -> & _ & _ & _ & _ & _ & Hm & Hw & _).
      intros _ c id Hin. cbn [snd] in Hin |- *. rewrite Hw, Hm in Hin.
      exact (combine_labels _ _ _ Hin).
    + destruct (show_overflow cfg env s Hh Hok Hgt) as (s' & -> & Hh' & _).
      apply labels_hidden, Hh'.
  - destruct (show_refresh_error cfg env s Hh Hok) as (s' & -> & Hh' & _).
    apply labels_hidden, Hh'.
Qed.

Lemma entered_labels text (s : Nimbler M) :
  shown_inv s -> labels_follow_grid s -> labels_follow_grid (snd (enteredNameChanged text s)).
Proof.
  intros Hinv Hl. destruct (hidden s) eqn:Hh.
  { apply labels_hidden. rewrite (proj2 (entered_view text s)). exact Hh. }
  destruct text as [|c t]; [exact Hl|]. unfold enteredNameChanged.
  set (s1 := set_wlist (snd (rank (c :: t) (wlist s))) s).
  assert (Hr : lift (rank (c :: t)) s = (inl tt, s1)) by reflexivity.
  rewrite (pbind_ok _ _ _ _ _ Hr).
  assert (Hinv1 : shown_inv s1) by exact (rank_preserves _ s Hinv).
  destruct (Hinv1 Hh) as (Hc & Hle & Hp & _).
  destruct (populate_ok s1) as (s2 & -> & Hf & _ & _ & Hw & _);
    [rewrite <- (Permutation_length Hp); lia|].
  destruct Hf as (_ & Hwl & _).
  intros _ c' id Hin. cbn [snd] in Hin |- *. rewrite Hwl. rewrite Hw in Hin.
  apply in_app_or in Hin as [Hin|Hin]; [exact (Hl Hh c' id Hin)|exact (combine_labels _ _ _ Hin)].
Qed.

Lemma labels_kept env ev (s : Nimbler M) :
  shown_inv s /\ labels_follow_grid s ->
  shown_inv (handle cfg env ev s) /\ labels_follow_grid (handle cfg env ev s).
Proof.
  apply (handle_kept cfg env (fun s : Nimbler M => shown_inv s /\ labels_follow_grid s)).
  - intros l s0 [H1 H2]. split; [exact H1|exact H2].
  - intros a b t s0 [H1 H2]. split; [exact H1|exact H2].
  - intros s0 _. split; [apply toggle_inv|apply toggle_labels].
  - intros text s0 [H1 H2].
    split; [apply enteredNameChanged_preserves, H1|apply entered_labels; assumption].
Qed.

(** C14: in every state a running program reaches, each window button of
    the shown table carries the key of its position in the grid: the
    [k]-th key labels the [k]-th dictionary of the workspaces in order,
    whatever queries were typed, while the [k]-th key acts on the [k]-th
    dictionary of [window_list_merged], which [rank] re-sorts. *)
Theorem labels_follow_grid_reachable (s : Nimbler M) : reachable cfg s -> labels_follow_grid s.
Proof.
  intros Hr. enough (E : shown_inv s /\ labels_follow_grid s) by exact (proj2 E).
  induction Hr as [env s Hi|s s' _ IH Hst].
  - split; [apply shown_inv_hidden|apply labels_hidden]; exact (init_hidden cfg env s Hi).
  - destruct Hst as [env ev s _]. apply labels_kept, IH.
Qed.

End Labels.

(** ** Concrete runs *)

Lemma session_s1_shown : hidden Session.s1 = false /\ shown_inv Session.s1.
Proof.
  destruct (show_ok Demo.cfg Session.env Session.s0) as (s' & E & Hh & _ & _ & _ & _ & _ & _ & Hinv);
    [vm_compute; reflexivity|vm_compute; reflexivity|vm_compute; lia|].
  unfold Session.s1, Session.next, handle, run. rewrite E.
  split; assumption.
Qed.

Lemma reach_next s ev :
  reachable Demo.cfg s -> deliverable ev s -> reachable Demo.cfg (Session.next ev s).
Proof. intros Hr Hd. exact (reach_step _ _ _ Hr (step_event _ Session.env ev s Hd)). Qed.

Lemma session_reachable : reachable Demo.cfg Session.s4.
Proof.
  assert (H0 : reachable Demo.cfg Session.s0)
    by (apply (reach_init _ Session.env); vm_compute; reflexivity).
  assert (H1 : reachable Demo.cfg Session.s1) by exact (reach_next _ Hotkey H0 I).
  assert (H2 : reachable Demo.cfg Session.s2)
    by exact (reach_next _ (KeyPress KEY_colon false) H1 (proj1 session_s1_shown)).
  assert (H3 : reachable Demo.cfg Session.s3)
    by (apply (reach_next _ (EntryChanged (str "fi")) H2); vm_compute; repeat split).
  apply (reach_next _ FocusGrid H3). vm_compute. reflexivity.
Qed.


(** ** Witnesses *)

Lemma show_binds_keys_witness :
  hidden Session.s0 = true /\ refresh_ok Demo.cfg (screen Session.env) = true /\
  length (filter (keep Demo.cfg) (sc_windows (screen Session.env))) <= length numbering /\
  exists s', toggle Demo.cfg Session.env Session.s0 = (inl tt, s') /\ hidden s' = false /\
    view (wlist s') = bucket Demo.cfg (sc_workspaces (screen Session.env))
                        (sc_active_workspace (screen Session.env)) (sc_windows (screen Session.env)) /\
    window_buttons (table s') = combine numbering (concat (windowList (wlist s'))) /\
    forall c id, In (WindowButton c id) (table s') ->
      exists e, nth_error (store (wlist s')) id = Some e /\
        keypress Demo.cfg Session.env (unicode_to_keyval (N_of_ascii c)) false s' =
          (inl false, set_log (log s' ++ present_cmds Session.env (window e)) (hide_state s')).
Proof.
  assert (H1 : hidden Session.s0 = true) by (vm_compute; reflexivity).
  assert (H2 : refresh_ok Demo.cfg (screen Session.env) = true) by (vm_compute; reflexivity).
  assert (H3 : length (filter (keep Demo.cfg) (sc_windows (screen Session.env))) <= length numbering)
    by (vm_compute; lia).
  split; [exact H1|split; [exact H2|split; [exact H3|]]].
  exact (show_binds_keys Demo.cfg Session.env Session.env Session.s0 H1 H2 H3).
Defined.

Lemma overflow_never_shows_witness :
  let s' := handle Demo.cfg Session.env_crowd Hotkey Session.s0 in
  hidden Session.s0 = true /\ refresh_ok Demo.cfg (screen Session.env_crowd) = true /\
  length numbering < length (filter (keep Demo.cfg) (sc_windows (screen Session.env_crowd))) /\
  clos_refl_trans_1n _ (fun a b => exists ev, deliverable ev a /\
                                   b = handle Demo.cfg Session.env_crowd ev a) Session.s0 s' /\
  (hidden s' = true /\ log s' = log Session.s0).
Proof.
  cbv zeta.
  assert (H1 : hidden Session.s0 = true) by (vm_compute; reflexivity).
  assert (H2 : refresh_ok Demo.cfg (screen Session.env_crowd) = true) by (vm_compute; reflexivity).
  assert (H3 : length numbering <
               length (filter (keep Demo.cfg) (sc_windows (screen Session.env_crowd))))
    by (vm_compute; lia).
  assert (H4 : clos_refl_trans_1n _ (fun a b => exists ev, deliverable ev a /\
                                   b = handle Demo.cfg Session.env_crowd ev a) Session.s0
                 (handle Demo.cfg Session.env_crowd Hotkey Session.s0))
    by (eapply rt1n_trans; [exists Hotkey; split; [exact I|reflexivity]|apply rt1n_refl]).
  split; [exact H1|split; [exact H2|split; [exact H3|split; [exact H4|]]]].
  exact (overflow_never_shows Demo.cfg Session.env_crowd Session.s0 _ H1 H2 H3 H4).
Defined.

Lemma reachable_shown_inv_witness : reachable Demo.cfg Session.s4 /\ shown_inv Session.s4.
Proof. split; [exact session_reachable|exact (reachable_shown_inv Demo.cfg _ session_reachable)]. Defined.

Lemma shown_callbacks_safe_witness :
  reachable Demo.cfg Session.s4 /\ hidden Session.s4 = false /\ frame Session.s4 = FrameCurrent /\
  deliverable (KeyPress (Session.key "1") false) Session.s4 /\
  fst (run Demo.cfg Session.env (KeyPress (Session.key "1") false) Session.s4) = inl tt.
Proof.
  assert (H2 : hidden Session.s4 = false) by (vm_compute; reflexivity).
  assert (Hf : frame Session.s4 = FrameCurrent) by (vm_compute; reflexivity).
  split; [exact session_reachable|split; [exact H2|split; [exact Hf|split; [exact H2|]]]].
  exact (shown_callbacks_safe Demo.cfg Session.env (KeyPress (Session.key "1") false) Session.s4
           session_reachable H2 Hf H2).
Defined.

Lemma window_key_acts_witness :
  hidden Session.s1 = false /\ entry_focus Session.s1 = false /\ shown_inv Session.s1 /\
  nth_error numbering 1 = Some "1"%char /\ 1 < window_counter Session.s1 /\
  exists i e, nth_error (window_list_merged (wlist Session.s1)) 1 = Some i /\
    nth_error (store (wlist Session.s1)) i = Some e /\
    keypress Demo.cfg Session.env (unicode_to_keyval (N_of_ascii "1")) true Session.s1 =
      (inl false, set_log (log Session.s1 ++ [CloseWindow (window e) (getXTime Session.env)])
                    (hide_state Session.s1)).
Proof.
  destruct session_s1_shown as [Hh Hinv].
  assert (Hf : entry_focus Session.s1 = false) by (vm_compute; reflexivity).
  assert (Hc : nth_error numbering 1 = Some "1"%char) by reflexivity.
  assert (Hk : 1 < window_counter Session.s1) by (vm_compute; lia).
  do 5 (split; [assumption|]).
  exact (window_key_acts Demo.cfg Session.env Session.s1 1 "1"%char true Hh Hf Hinv Hc Hk).
Defined.

Lemma window_button_presents_witness :
  hidden Session.s1 = false /\ shown_inv Session.s1 /\
  In (WindowButton "1"%char 4) (table Session.s1) /\
  exists k i e, nth_error numbering k = Some "1"%char /\ k < window_counter Session.s1 /\
    nth_error (window_list_merged (wlist Session.s1)) k = Some i /\
    nth_error (store (wlist Session.s1)) i = Some e /\
    run Demo.cfg Session.env (ClickWindowButton "1"%char) Session.s1 =
      (inl tt, set_log (log Session.s1 ++ present_cmds Session.env (window e))
                 (hide_state Session.s1)).
Proof.
  destruct session_s1_shown as [Hh Hinv].
  assert (Hin : In (WindowButton "1"%char 4) (table Session.s1))
    by (vm_compute; repeat (first [left; reflexivity|right])).
  do 3 (split; [assumption|]).
  exact (window_button_presents Demo.cfg Session.env Session.s1 "1"%char 4 Hh Hinv Hin).
Defined.

Lemma workspace_button_switches_witness :
  hidden Session.s1 = false /\ shown_inv Session.s1 /\
  In (WorkspaceButton (ws_label 1)) (table Session.s1) /\
  exists i ws, ws_label 1 = ws_label i /\ nth_error (workspaces (wlist Session.s1)) i = Some ws /\
    run Demo.cfg Session.env (ClickWorkspaceButton (ws_label 1)) Session.s1 =
      (inl tt, set_log (log Session.s1 ++ [ActivateWorkspace ws (getXTime Session.env)])
                 (hide_state Session.s1)).
Proof.
  destruct session_s1_shown as [Hh Hinv].
  assert (Hin : In (WorkspaceButton (ws_label 1)) (table Session.s1))
    by (vm_compute; repeat (first [left; reflexivity|right])).
  do 3 (split; [assumption|]).
  exact (workspace_button_switches Demo.cfg Session.env Session.s1 _ Hh Hinv Hin).
Defined.

Lemma function_key_switches_witness :
  hidden Session.s1 = false /\ shown_inv Session.s1 /\ 2 < 12 /\ 2 < num_workspaces Session.s1 /\
  exists ws, nth_error (workspaces (wlist Session.s1)) 2 = Some ws /\
    keypress Demo.cfg Session.env (KEY_F1 + N.of_nat 2)%N false Session.s1 =
      (inl false, set_log (log Session.s1 ++ [ActivateWorkspace ws (getXTime Session.env)])
                    (hide_state Session.s1)).
Proof.
  destruct session_s1_shown as [Hh Hinv].
  assert (Hi : 2 < 12) by lia.
  assert (Hn : 2 < num_workspaces Session.s1) by (vm_compute; lia).
  do 4 (split; [assumption|]).
  exact (function_key_switches Demo.cfg Session.env Session.s1 2 false Hh Hinv Hi Hn).
Defined.

Lemma escape_hides_witness :
  hidden Session.s2 = false /\ entry_focus Session.s2 = true /\
  keypress Demo.cfg Session.env KEY_Escape false Session.s2 = (inl false, hide_state Session.s2).
Proof.
  assert (Hh : hidden Session.s2 = false) by (vm_compute; reflexivity).
  assert (Hf : entry_focus Session.s2 = true) by (vm_compute; reflexivity).
  split; [exact Hh|split; [exact Hf|exact (escape_hides Demo.cfg Session.env Session.s2 false Hh)]].
Defined.

Lemma colon_opens_entry_witness :
  entry_focus Session.s1 = false /\
  keypress Demo.cfg Session.env KEY_colon false Session.s1 =
    (inl true, set_entry true (entry_displayed Session.s1) (entry_text Session.s1) Session.s1).
Proof.
  assert (Hf : entry_focus Session.s1 = false) by (vm_compute; reflexivity).
  split; [exact Hf|exact (colon_opens_entry Demo.cfg Session.env Session.s1 false Hf)].
Defined.

Lemma focused_entry_keys_witness :
  entry_focus Session.s2 = true /\ In (Session.key "a") get_keyvals_from_unicode /\
  (keypress Demo.cfg Session.env (Session.key "a") false Session.s2 = (inl false, Session.s2) /\
   keypress Demo.cfg Session.env KEY_Return false Session.s2 =
     (inl false, set_log (log Session.s2 ++ [PrintEnter]) Session.s2)).
Proof.
  assert (Hf : entry_focus Session.s2 = true) by (vm_compute; reflexivity).
  assert (Hin : In (Session.key "a") get_keyvals_from_unicode)
    by (apply (mem_In N.eqb N.eqb_spec); vm_compute; reflexivity).
  split; [exact Hf|split; [exact Hin|]].
  exact (focused_entry_keys Demo.cfg Session.env Session.s2 _ false Hf Hin).
Defined.

(** From the shown state of the session, two presses show the screen again. *)
Lemma hotkey_reveals_witness :
  refresh_ok Demo.cfg (screen Session.env) = true /\
  length (filter (keep Demo.cfg) (sc_windows (screen Session.env))) <= length numbering /\
  hidden Session.s4 = false /\
  hidden (handle Demo.cfg Session.env Hotkey (handle Demo.cfg Session.env Hotkey Session.s4)) = false.
Proof.
  assert (Hok : refresh_ok Demo.cfg (screen Session.env) = true) by reflexivity.
  assert (Hc : length (filter (keep Demo.cfg) (sc_windows (screen Session.env))) <= length numbering)
    by (vm_compute; lia).
  assert (Hh : hidden Session.s4 = false) by (vm_compute; reflexivity).
  split; [exact Hok|split; [exact Hc|split; [exact Hh|]]].
  pose proof (hotkey_reveals Demo.cfg Session.env Session.s4 Hok Hc) as (_ & Hs & _).
  rewrite Hh in Hs. exact Hs.
Defined.

(** The demonstration session is a run whose screens all fit. *)
Lemma session_fit : reachable_fit Demo.cfg Session.s4.
Proof.
  assert (Hfit : show_fits Demo.cfg Session.env) by (right; vm_compute; lia).
  assert (H0 : reachable_fit Demo.cfg Session.s0)
    by (apply (fit_init _ Session.env); vm_compute; reflexivity).
  assert (H1 : reachable_fit Demo.cfg Session.s1)
    by exact (fit_step _ Session.env Hotkey _ H0 I Hfit).
  assert (H2 : reachable_fit Demo.cfg Session.s2)
    by exact (fit_step _ Session.env (KeyPress KEY_colon false) _ H1 (proj1 session_s1_shown) Hfit).
  assert (H3 : reachable_fit Demo.cfg Session.s3)
    by (apply (fit_step _ Session.env (EntryChanged (str "fi")) _ H2);
        [vm_compute; repeat split|exact Hfit]).
  apply (fit_step _ Session.env FocusGrid _ H3); [vm_compute; reflexivity|exact Hfit].
Qed.

Lemma fitting_runs_safe_witness :
  reachable_fit Demo.cfg Session.s4 /\ hidden Session.s4 = false /\
  deliverable (ClickWindowButton "1"%char) Session.s4 /\
  fst (run Demo.cfg Session.env (ClickWindowButton "1"%char) Session.s4) = inl tt.
Proof.
  assert (Hh : hidden Session.s4 = false) by (vm_compute; reflexivity).
  assert (Hd : deliverable (ClickWindowButton "1"%char) Session.s4).
  { split; [exact Hh|]. exists 4. vm_compute. repeat (first [left; reflexivity|right]). }
  split; [exact session_fit|split; [exact Hh|split; [exact Hd|]]].
  exact (proj2 (fitting_runs_safe Demo.cfg Session.s4 session_fit) Session.env _ Hh Hd).
Defined.

(** The show of the crowd stops; the next show displays its table. *)
Lemma overflow_freezes_frame_witness :
  hidden Session.s0 = true /\ frame Session.s0 = FrameEmpty /\
  refresh_ok Demo.cfg (screen Session.env_crowd) = true /\
  length numbering < length (filter (keep Demo.cfg) (sc_windows (screen Session.env_crowd))) /\
  hidden Session.c2 = false /\
  frame Session.c2 = FrameStale (table (handle Demo.cfg Session.env_crowd Hotkey Session.s0)).
Proof.
  assert (H1 : hidden Session.s0 = true) by (vm_compute; reflexivity).
  assert (H2 : frame Session.s0 = FrameEmpty) by (vm_compute; reflexivity).
  assert (H3 : refresh_ok Demo.cfg (screen Session.env_crowd) = true) by (vm_compute; reflexivity).
  assert (H4 : length numbering <
               length (filter (keep Demo.cfg) (sc_windows (screen Session.env_crowd))))
    by (vm_compute; lia).
  assert (H5 : hidden Session.c2 = false) by (vm_compute; reflexivity).
  assert (Hrt : clos_refl_trans_1n _ (fun a b => exists env' ev, deliverable ev a /\
                  b = handle Demo.cfg env' ev a)
                 (handle Demo.cfg Session.env_crowd Hotkey Session.s0) Session.c2).
  { apply (rt1n_trans _ _ _ Session.c2); [|apply rt1n_refl].
    exists Session.env, Hotkey. split; [exact I|reflexivity]. }
  split; [exact H1|split; [exact H2|split; [exact H3|split; [exact H4|split; [exact H5|]]]]].
  exact (overflow_freezes_frame Demo.cfg Session.env_crowd Session.s0 Session.c2 H1 H2 H3 H4 Hrt H5).
Defined.

(** In that state the button of key [9] raises: three windows are left. *)
Lemma stale_button_raises_witness :
  reachable Demo.cfg Session.c2 /\ hidden Session.c2 = false /\
  In (WindowButton "9"%char 12) (displayed Session.c2) /\
  nth_error numbering 9 = Some "9"%char /\ window_counter Session.c2 <= 9 /\
  run Demo.cfg Session.env (ClickWindowButton "9"%char) Session.c2 =
    (inr IndexError, hide_state Session.c2).
Proof.
  assert (H0 : reachable Demo.cfg Session.s0)
    by (apply (reach_init _ Session.env); vm_compute; reflexivity).
  assert (H1 : reachable Demo.cfg Session.c1)
    by exact (reach_step _ _ _ H0 (step_event _ Session.env_crowd Hotkey _ I)).
  assert (Hr : reachable Demo.cfg Session.c2)
    by exact (reach_step _ _ _ H1 (step_event _ Session.env Hotkey _ I)).
  assert (Hh : hidden Session.c2 = false) by (vm_compute; reflexivity).
  assert (Hin : In (WindowButton "9"%char 12) (displayed Session.c2))
    by (vm_compute; repeat (first [left; reflexivity|right])).
  assert (Hc : nth_error numbering 9 = Some "9"%char) by (vm_compute; reflexivity).
  assert (Hk : window_counter Session.c2 <= 9) by (vm_compute; lia).
  split; [exact Hr|split; [exact Hh|split; [exact Hin|split; [exact Hc|split; [exact Hk|]]]]].
  exact (proj2 (stale_button_raises Demo.cfg Session.env Session.c2 _ 12 9 Hr Hh Hin Hc Hk)).
Defined.

(** After the query ["fi"] the button labelled [1] shows GIMP (dictionary
    [4], the second of the grid) while the key [1] activates Files, the
    second of the re-sorted flat list. *)
Lemma labels_follow_grid_reachable_witness :
  reachable Demo.cfg Session.s4 /\ labels_follow_grid Session.s4 /\
  window_buttons (table Session.s4) =
    [("0"%char, 3); ("1"%char, 4); ("2"%char, 5); ("0"%char, 3); ("1"%char, 4); ("2"%char, 5)] /\
  option_map window (nth_error (store (wlist Session.s4)) 4) = Some (w_id Demo.gimp) /\
  log (handle Demo.cfg Session.env (KeyPress (Session.key "1") false) Session.s4) =
    [ActivateWindow (w_id Demo.files) 42%Z].
Proof.
  split; [exact session_reachable|].
  split; [exact (labels_follow_grid_reachable Demo.cfg _ session_reachable)|].
  split; [|split]; vm_compute; reflexivity.
Defined.

End Nimbler.
