(* ===== verification/Startup.v ===== *)
(** * Startup: the script at the end of [src/nimbler.py] (lines 545-566)

    The module-level code composes the components: [Config()] reads the
    configuration and runs [loadOptions] ([Config.v]); [NimblerWindow(config)]
    builds the controller, whose [__init__] calls [getLatest] ([Nimbler.v]);
    [Keybinder.bind(config.hotkey, win.hotkey, None)] registers the hotkey,
    and when it fails the script prints a message and exits; otherwise
    [Gtk.main()] runs the event loop ([Nimbler.step]).

    [startup] is that sequence on a configuration file and a screen, with
    [Keybinder.bind] as a parameter of the section (whether the X server
    accepts the key is outside the program); its three ends are the
    constructors of [Outcome].  [running] is the set of states of the main
    loop: the state [startup] hands over, closed under the steps of
    [Nimbler.step] with the settings [loadOptions] produced.  The theorems
    characterise [startup] on every branch, connect its state to the
    abstract index of [WindowIndex.v], and carry the invariant and the
    safety of the callbacks from [Nimbler.v] over to the whole program. *)

From Stdlib Require Import String Ascii List Arith ZArith Lia Bool NArith QArith Permutation
  Relation_Operators.
From S2P Require Import Prelude FuzzyMatcher KeyBindings WindowList WindowIndex Config Nimbler.
Import ListNotations.
Local Open Scope nat_scope.

Module Startup.
Import WindowList WindowIndex Config Nimbler.

Section Script.
Context {P : Type} `{RegexCompile P} `{RegexSearch P} {M : Type} `{Matcher M}.

(** [Keybinder.bind(config.hotkey, win.hotkey, None)]: whether the key
    could be grabbed. *)
Variable bind : PyVal -> bool.

(** How the script ends its start: an exception out of [Config()] or
    [NimblerWindow(config)], the [exit()] after a hotkey that could not be
    bound (with the hotkey it prints), or [Gtk.main()] with the window and
    the loaded options. *)
Inductive Outcome : Type :=
| Crashed (e : exn)
| Unbound (hk : PyVal)
| Started (o : Options P) (s : Nimbler M).

(** The script from [config = Config()] to [Gtk.main()]. *)
Definition startup (c : ConfigFile) (env : Env) : Outcome :=
  match loadOptions c with
  | inr e => Crashed e
  | inl o =>
      match nimbler_init (settings o) env with
      | (inr e, _) => Crashed e
      | (inl _, s) => if bind (hotkey o) then Started o s else Unbound (hotkey o)
      end
  end.

(** The states of [Gtk.main()]: the window [startup] built, then the
    callbacks GTK delivers, in environments that may change between two
    events. *)
Inductive running (c : ConfigFile) : Options P -> Nimbler M -> Prop :=
| running_start env o s : startup c env = Started o s -> running c o s
| running_step o s s' : running c o s -> step (settings o) s s' -> running c o s'.

End Script.

(** ** A start on the screen of [WindowList.Demo] *)

Module Run.
Import Config.Sample.
(** A key grabber that accepts [F10] only. *)
Definition bind_F10 (hk : PyVal) : bool :=
  match hk with VStr k => pystr_eqb k (str "F10") | _ => false end.
(** The options an empty configuration loads. *)
Definition o0 : Options pystr :=
  mkOptions (VStr (str "F10"))
    (mkSettings [] [] [DESKTOP; DOCK; DIALOG; TOOLBAR; MENU; UTILITY; SPLASHSCREEN] IconDefault)
    None.
(** The window [startup] hands to [Gtk.main()]. *)
Definition s0 : Nimbler FuzzyMatcher.FuzzyMatcher := snd (nimbler_init (settings o0) Session.env).
End Run.

(** ** Properties *)

Section Props.
Context {P : Type} `{RegexCompile P} `{RegexSearch P} {M : Type} `{Matcher M}.
Variable bind : PyVal -> bool.

Lemma getLatest_unfold cfg sc (wl : WindowList M) :
  getLatest cfg sc wl =
  match refresh cfg sc wl with
  | (inl _, w) => (inl (windowList w), w)
  | (inr e, w) => (inr e, w)
  end.
Proof.
  unfold getLatest, pbind, pget, pret. destruct (refresh cfg sc wl) as [[u|e] w]; reflexivity.
Qed.

(** The state [__init__] leaves, on a screen [refresh] accepts. *)
Lemma nimbler_init_ok (cfg : Settings P) env :
  refresh_ok cfg (screen env) = true ->
  exists s, nimbler_init (M := M) cfg env = (inl tt, s) /\ hidden s = true /\ log s = [] /\
    wl_wf (wlist s) /\ abs (wlist s) = spec_refresh cfg (screen env).
Proof.
  intros Hok. pose proof (refresh_wf cfg (screen env) (init (M := M)) Hok) as Hwf.
  pose proof (refresh_abs cfg (screen env) (init (M := M)) Hok) as Habs.
  unfold nimbler_init. rewrite getLatest_unfold.
  destruct (refresh_total cfg (screen env) (init (M := M)) Hok) as (w & Hr & _).
  rewrite Hr in Hwf, Habs |- *. cbn [snd] in Hwf, Habs.
  eexists. split; [reflexivity|]. cbn. auto.
Qed.

(** [__init__] raises [ValueError] on a screen [refresh] rejects. *)
Lemma nimbler_init_error (cfg : Settings P) env :
  refresh_ok cfg (screen env) = false -> fst (nimbler_init (M := M) cfg env) = inr ValueError.
Proof.
  intros Hko. unfold nimbler_init. rewrite getLatest_unfold.
  destruct (refresh_raises cfg (screen env) (init (M := M)) Hko) as (w & -> & _). reflexivity.
Qed.

Lemma running_loaded c o (s : Nimbler M) :
  running bind c o s -> loadOptions c = inl o /\ reachable (settings o) s.
Proof.
  induction 1 as [env o s E|o s s' _ [Hl IH] Hst].
  - unfold startup in E. destruct (loadOptions c) as [o'|e]; [|discriminate].
    destruct (nimbler_init (settings o') env) as [[u|e] s0] eqn:Ei; [|discriminate].
    destruct u, (bind (hotkey o')); [|discriminate]. injection E as -> ->.
    split; [reflexivity|exact (reach_init _ env s Ei)].
  - split; [exact Hl|exact (reach_step _ s s' IH Hst)].
Qed.

(** C11: the start of the program on every branch: a configuration that
    does not load stops it with the exception of [loadOptions]; one that
    loads stops it with [ValueError] out of [NimblerWindow.__init__] when
    the screen has a kept window on no workspace of its list, makes it
    exit when the hotkey cannot be bound, and otherwise enters
    [Gtk.main()] with a hidden overlay, no request sent, and a well-formed
    window list whose abstraction is the abstract index of the screen. *)
Theorem startup_outcome c env :
  match loadOptions c with
  | inr e => startup (M := M) bind c env = Crashed e
  | inl o =>
      if refresh_ok (settings o) (screen env) then
        if bind (hotkey o) then
          exists s, startup (M := M) bind c env = Started o s /\ hidden s = true /\ log s = [] /\
            wl_wf (wlist s) /\ abs (wlist s) = spec_refresh (settings o) (screen env)
        else startup (M := M) bind c env = Unbound (hotkey o)
      else startup (M := M) bind c env = Crashed ValueError
  end.
Proof.
  unfold startup. destruct (loadOptions c) as [o|e]; [|reflexivity].
  destruct (refresh_ok (settings o) (screen env)) eqn:Hok.
  - destruct (nimbler_init_ok (settings o) env Hok) as (s & -> & Hs).
    destruct (bind (hotkey o)); [exists s; split; [reflexivity|exact Hs]|reflexivity].
  - pose proof (nimbler_init_error (settings o) env Hok) as E.
    destruct (nimbler_init (settings o) env) as [[u|e] s]; cbn in E; [discriminate|].
    injection E as ->. reflexivity.
Qed.

(** C3: in every state of the main loop of the program, whatever the
    configuration, the screens and the events, the options are those
    [loadOptions] read, the overlay satisfies [shown_inv] when shown, and
    no callback GTK delivers to the shown overlay raises while the window
    shows the current table. *)
Theorem running_safe c o (s : Nimbler M) :
  running bind c o s ->
  loadOptions c = inl o /\ shown_inv s /\
  forall env ev, hidden s = false -> frame s = FrameCurrent -> deliverable ev s ->
    fst (run (settings o) env ev s) = inl tt.
Proof.
  intros Hr. destruct (running_loaded c o s Hr) as (Hl & Hreach).
  pose proof (reachable_inv (settings o) s Hreach) as Hinv.
  split; [exact Hl|split; [exact Hinv|]].
  intros env ev Hh Hfr Hd. exact (callbacks_safe (settings o) env ev s Hinv Hh Hfr Hd).
Qed.

(** C19: a configuration file that sets [ignored_windows] or
    [always_show_windows] stops the program with [TypeError] before its
    window exists, on every screen: its main loop has no state at all. *)
Theorem title_patterns_never_run c :
  cp_get c (str "ignored_windows") <> None \/ cp_get c (str "always_show_windows") <> None ->
  (forall env, startup (M := M) bind c env = Crashed TypeError) /\
  forall o (s : Nimbler M), ~ running bind c o s.
Proof.
  intros Hset. pose proof (loadOptions_titles_error (P := P) c Hset) as E.
  split; [intros env; unfold startup; rewrite E; reflexivity|].
  intros o s Hr. destruct (running_loaded c o s Hr) as [Hl _]. congruence.
Qed.

End Props.

(** ** Witnesses *)

Import Config.Sample.

Lemma running_safe_witness :
  running (M := FuzzyMatcher.FuzzyMatcher) Run.bind_F10 Sample.empty Run.o0
    (handle (settings Run.o0) Session.env Hotkey Run.s0) /\
  shown_inv (handle (settings Run.o0) Session.env Hotkey Run.s0).
Proof.
  assert (H0 : running (M := FuzzyMatcher.FuzzyMatcher) Run.bind_F10 Sample.empty Run.o0 Run.s0)
    by (apply (running_start _ _ Session.env); vm_compute; reflexivity).
  assert (H1 : running (M := FuzzyMatcher.FuzzyMatcher) Run.bind_F10 Sample.empty Run.o0
                 (handle (settings Run.o0) Session.env Hotkey Run.s0))
    by exact (running_step _ _ _ _ _ H0 (step_event _ Session.env Hotkey _ I)).
  split; [exact H1|exact (proj1 (proj2 (running_safe Run.bind_F10 _ _ _ H1)))].
Defined.

Lemma title_patterns_never_run_witness :
  cp_get Sample.ignoring (str "ignored_windows") <> None /\
  startup (M := FuzzyMatcher.FuzzyMatcher) Run.bind_F10 Sample.ignoring Session.env =
    Crashed TypeError.
Proof.
  assert (Hset : cp_get Sample.ignoring (str "ignored_windows") <> None)
    by (vm_compute; discriminate).
  split; [exact Hset|].
  exact (proj1 (title_patterns_never_run (P := pystr) Run.bind_F10 Sample.ignoring (or_introl Hset))
           Session.env).
Defined.

End Startup.
